(** * canary-context: tag discovery, tag context and the three output formats

    A shallow embedding of [canary-context.py].  Python text is a sequence of
    code points, a decoded JSON document is a tree, and the program runs in a
    small state-and-exception monad over a world made of the file system,
    the standard output and the log of HTTP requests sent.

    The library calls the program makes ([json], [csv], [requests]) are
    embedded as far as the program drives them.  A [float] is a binary64
    number, read from and written as decimal text with the rounding of IEEE
    754.  A file holds the text handed to [write], line feeds as they are
    (no translation of newlines, as on POSIX systems); of the encoding
    chosen by [open] only the characters it can encode are kept.  The paths
    given to [open] are taken to be paths that can be opened for writing,
    [print] is taken to succeed, and the interpreter's limits on the length
    of integer numerals and on the depth of recursion are left out. *)

From Stdlib Require Import ZArith NArith List String Ascii Lia Bool.
From Stdlib Require Import DecimalFacts DecimalPos DecimalN DecimalZ.
From Stdlib Require Import QArith Qround Qpower Qreduction Lqa.
From stdpp Require Import gmap list.

Close Scope Q_scope.
Local Open Scope N_scope.

(** ** Text *)

(** A Python [str]: code points, each below [0x110000]. *)
Abbreviation pystr := (list N).

(** The text of a literal of the source. *)
Definition lit (s : string) : pystr := map N_of_ascii (list_ascii_of_string s).
Arguments lit : simpl never.

Definition QUOTE : N := 34.
Definition BACKSLASH : N := 92.
Definition LF : N := 10.
Definition CR : N := 13.
Definition SPACE : N := 32.
Definition COMMA : N := 44.

(** The code points that stand for half of a UTF-16 pair. *)
Definition is_surrogate (c : N) : bool := (55296 <=? c) && (c <=? 57343).

(** [sep.join(parts)] *)
Fixpoint join (sep : pystr) (parts : list pystr) : pystr :=
  match parts with
  | [] => []
  | [p] => p
  | p :: ps => p ++ sep ++ join sep ps
  end.

(** ** Floating-point numbers

    A Python [float] is an IEEE 754 binary64 number: a sign, and either a
    magnitude [m * 2 ^ e] with [m < 2 ^ 53], an infinity, or a NaN.  The
    finite ones are kept in their one normal form: [2 ^ 52 <= m] with
    [-1074 <= e <= 971], or [e = -1074] for the subnormal numbers and the
    two zeros. *)

Module Float.

Inductive float : Type :=
| Finite (negative : bool) (m e : Z)
| Infinity (negative : bool)
| NaN.

Definition float_ok (x : float) : bool :=
  match x with
  | Finite _ m e =>
      (0 <=? m)%Z && (m <? 2 ^ 53)%Z && (-1074 <=? e)%Z && (e <=? 971)%Z
      && ((2 ^ 52 <=? m) || (e =? -1074))%Z
  | _ => true
  end.

(** A magnitude in normal form that is not zero. *)
Definition canonical (m e : Z) : Prop :=
  (0 < m < 2 ^ 53)%Z /\ (-1074 <= e <= 971)%Z /\ (2 ^ 52 <= m \/ e = -1074)%Z.

Definition float_eqb (x y : float) : bool :=
  match x, y with
  | Finite s m e, Finite s' m' e' => Bool.eqb s s' && (m =? m')%Z && (e =? e')%Z
  | Infinity s, Infinity s' => Bool.eqb s s'
  | NaN, NaN => true
  | _, _ => false
  end.

Definition pow2 (e : Z) : Q := Qpower (2 # 1) e.
Definition pow10 (p : Z) : Q := Qpower (10 # 1) p.

(** The value of a magnitude. *)
Definition to_Q (m e : Z) : Q := Qmult (inject_Z m) (pow2 e).

(** For [0 < q], the [k] with [2 ^ k <= q < 2 ^ (k + 1)]: the difference
    of the bit lengths of numerator and denominator, or one less. *)
Definition floor_log2 (q : Q) : Z :=
  let k := (Z.log2 (Qnum q) - Z.log2 (Zpos (Qden q)))%Z in
  if Qle_bool (pow2 k) q then k else (k - 1)%Z.

(** The integer nearest to [y], the even one of two that are equally near. *)
Definition round_half_even (y : Q) : Z :=
  let f := Qfloor y in
  match Qcompare (Qminus y (inject_Z f)) (1 # 2) with
  | Lt => f
  | Gt => (f + 1)%Z
  | Eq => if Z.even f then f else (f + 1)%Z
  end.

(** The float nearest to [0 < q] (round-half-even, the default rounding of
    IEEE 754): 53 significant bits where the exponent allows it, fewer
    below [2 ^ -1022], and infinity from [2 ^ 1024 - 2 ^ 970] on. *)
Definition round (negative : bool) (q : Q) : float :=
  let e := Z.max (floor_log2 q - 52) (-1074) in
  let m := round_half_even (Qdiv q (pow2 e)) in
  let (m, e) := if (m =? 2 ^ 53)%Z then ((2 ^ 52)%Z, (e + 1)%Z) else (m, e) in
  if (971 <? e)%Z then Infinity negative else Finite negative m e.

(** The float a decimal numeral of value [q >= 0] is read as. *)
Definition of_Q (negative : bool) (q : Q) : float :=
  if Qle_bool q 0 then Finite negative 0 (-1074) else round negative (Qred q).

(** *** The digits [repr] prints

    [float.__repr__] prints the shortest decimal numeral that is read back
    as the same float and, of several of one length, the one nearest to the
    float's value.  A numeral [c * 10 ^ p] is the shorter the larger [p] is,
    so the search runs down from the largest exponent of ten a float can
    have and, for each, tries the two multiples of [10 ^ p] around the
    value. *)

Section Shortest.

Variables m e : Z.

Definition reads_as (c p : Z) : bool :=
  (0 <? c)%Z
  && float_eqb (of_Q false (Qmult (inject_Z c) (pow10 p))) (Finite false m e).

Definition nearest (p : Z) : option Z :=
  let x := to_Q m e in
  let lo := Qfloor (Qdiv x (pow10 p)) in
  let hi := (lo + 1)%Z in
  match reads_as lo p, reads_as hi p with
  | true, true =>
      match Qcompare (Qminus x (Qmult (inject_Z lo) (pow10 p)))
                     (Qminus (Qmult (inject_Z hi) (pow10 p)) x) with
      | Lt => Some lo
      | Gt => Some hi
      | Eq => Some (if Z.even lo then lo else hi)
      end
  | true, false => Some lo
  | false, true => Some hi
  | false, false => None
  end.

Fixpoint shortest (fuel : nat) (p : Z) : Z * Z :=
  match fuel with
  | O => (Qfloor (Qdiv (to_Q m e) (pow10 p)), p)
  | S fuel' =>
      match nearest p with
      | Some c => (c, p)
      | None => shortest fuel' (p - 1)
      end
  end.

End Shortest.

(** The digits [c] and the exponent [p] of [repr] for the magnitude
    [m * 2 ^ e]: the numeral is [c * 10 ^ p].  No float is as large as
    [10 ^ 309], and 17 digits are always enough, so the search has found
    its numeral before the steps run out. *)
Definition digits (m e : Z) : Z * Z := shortest m e 700 309.

(** [x == y] on floats: a NaN equals nothing, and the two zeros are equal. *)
Definition eqb (x y : float) : bool :=
  match x, y with
  | NaN, _ | _, NaN => false
  | Finite _ Z0 _, Finite _ Z0 _ => true
  | _, _ => float_eqb x y
  end.


End Float.

(** ** Decoded JSON documents

    What [response.json()] hands to the program: [None], [bool], [int],
    [float], [str], [list], and [dict] with [str] keys in insertion
    order. *)

#[warnings="-register-all"]
Inductive json : Type :=
| JNull
| JBool (b : bool)
| JInt (z : Z)
| JFloat (x : Float.float)
| JStr (s : pystr)
| JArr (lst : list json)
| JObj (dct : list (pystr * json)).

(** [k in d] and [d[k]] on a dictionary kept as its items in order. *)
Fixpoint dict_lookup (key : pystr) (dct : list (pystr * json)) : option json :=
  match dct with
  | [] => None
  | (k, v) :: rest => if decide (k = key) then Some v else dict_lookup key rest
  end.

(** [d[k] = v]: an existing key keeps its place, a new one goes last. *)
Fixpoint dict_set (key : pystr) (v : json) (dct : list (pystr * json))
  : list (pystr * json) :=
  match dct with
  | [] => [(key, v)]
  | (k, v0) :: rest =>
      if decide (k = key) then (k, v) :: rest else (k, v0) :: dict_set key v rest
  end.

(** Truth value of an object in [if o:]. *)
Definition truthy (o : json) : bool :=
  match o with
  | JNull => false
  | JBool b => b
  | JInt z => negb (z =? 0)%Z
  | JFloat (Float.Finite _ m _) => negb (m =? 0)%Z
  | JFloat _ => true
  | JStr s => match s with [] => false | _ => true end
  | JArr lst => match lst with [] => false | _ => true end
  | JObj dct => match dct with [] => false | _ => true end
  end.

(** ** [json.dump] and [json.dumps] *)

Module Encoder.

(** [int.__repr__]: decimal digits, a minus sign for negatives. *)
Fixpoint uint_text (d : Decimal.uint) : pystr :=
  match d with
  | Decimal.Nil => []
  | Decimal.D0 d => 48 :: uint_text d
  | Decimal.D1 d => 49 :: uint_text d
  | Decimal.D2 d => 50 :: uint_text d
  | Decimal.D3 d => 51 :: uint_text d
  | Decimal.D4 d => 52 :: uint_text d
  | Decimal.D5 d => 53 :: uint_text d
  | Decimal.D6 d => 54 :: uint_text d
  | Decimal.D7 d => 55 :: uint_text d
  | Decimal.D8 d => 56 :: uint_text d
  | Decimal.D9 d => 57 :: uint_text d
  end.

Definition int_repr (z : Z) : pystr :=
  match Z.to_int z with
  | Decimal.Pos d => uint_text d
  | Decimal.Neg d => 45 :: uint_text d
  end.

(** The exponent of [repr] in scientific notation: a sign and two digits
    at least. *)
Definition exponent_text (x : Z) : pystr :=
  (if (x <? 0)%Z then lit "-" else lit "+")
  ++ (if (Z.abs x <? 10)%Z then lit "0" else []) ++ int_repr (Z.abs x).

(** The digits [ds] laid out with the decimal point after the first
    [decpt] of them, as format code [r] does: plain notation for
    [-4 < decpt <= 16], padded with zeros and with one digit at least after
    the point; scientific notation otherwise. *)
Definition format_float (ds : pystr) (decpt : Z) : pystr :=
  let n := Z.of_nat (length ds) in
  if ((-4 <? decpt) && (decpt <=? 16))%Z then
    if (decpt <=? 0)%Z then lit "0." ++ repeat 48 (Z.to_nat (- decpt)) ++ ds
    else if (decpt <? n)%Z then
      firstn (Z.to_nat decpt) ds ++ lit "." ++ skipn (Z.to_nat decpt) ds
    else ds ++ repeat 48 (Z.to_nat (decpt - n)) ++ lit ".0"
  else
    match ds with
    | [] => []
    | [d] => d :: lit "e" ++ exponent_text (decpt - 1)
    | d :: rest => d :: lit "." ++ rest ++ lit "e" ++ exponent_text (decpt - 1)
    end.

(** [float.__repr__], which is [str] of a float too. *)
Definition float_repr (x : Float.float) : pystr :=
  match x with
  | Float.NaN => lit "nan"
  | Float.Infinity false => lit "inf"
  | Float.Infinity true => lit "-inf"
  | Float.Finite negative m e =>
      (if negative then lit "-" else [])
      ++ (if (m =? 0)%Z then lit "0.0"
          else
            let (c, p) := Float.digits m e in
            let ds := int_repr c in format_float ds (p + Z.of_nat (length ds)))
  end.

(** [floatstr] of the encoder, with [allow_nan] at its default. *)
Definition floatstr (x : Float.float) : pystr :=
  match x with
  | Float.NaN => lit "NaN"
  | Float.Infinity false => lit "Infinity"
  | Float.Infinity true => lit "-Infinity"
  | Float.Finite _ _ _ => float_repr x
  end.

(** One lower-case hexadecimal digit, and ['{0:04x}'.format(n)] for
    [n < 0x10000]. *)
Definition hexdigit (d : N) : N := if d <? 10 then 48 + d else 87 + d.

Definition hex4 (n : N) : pystr :=
  [hexdigit (n / 4096 mod 16); hexdigit (n / 256 mod 16);
   hexdigit (n / 16 mod 16); hexdigit (n mod 16)].

Definition u_escape (n : N) : pystr := BACKSLASH :: 117 :: hex4 n.

(** [replace] of [py_encode_basestring_ascii]: the text standing for one
    character matched by [ESCAPE_ASCII], that is a quote, a backslash or
    anything outside [' '..'~']. *)
Definition escape_char (c : N) : pystr :=
  if c =? BACKSLASH then [BACKSLASH; BACKSLASH]
  else if c =? QUOTE then [BACKSLASH; QUOTE]
  else if c =? 8 then [BACKSLASH; 98]
  else if c =? 12 then [BACKSLASH; 102]
  else if c =? 10 then [BACKSLASH; 110]
  else if c =? 13 then [BACKSLASH; 114]
  else if c =? 9 then [BACKSLASH; 116]
  else if c <? 65536 then u_escape c
  else
    let n := c - 65536 in
    let s1 := N.lor 55296 (N.land (N.shiftr n 10) 1023) in
    let s2 := N.lor 56320 (N.land n 1023) in
    u_escape s1 ++ u_escape s2.

Definition needs_escape (c : N) : bool :=
  (c =? BACKSLASH) || (c =? QUOTE) || (c <? 32) || (126 <? c).

Definition encode_char (c : N) : pystr :=
  if needs_escape c then escape_char c else [c].

Definition encode_basestring_ascii (s : pystr) : pystr :=
  QUOTE :: flat_map encode_char s ++ [QUOTE].

(** ['\n' + _indent * _current_indent_level], nothing without [indent]. *)
Definition newline_indent (indent : option nat) (level : nat) : pystr :=
  match indent with
  | None => []
  | Some width => LF :: repeat SPACE (width * level)
  end.

Definition item_separator (indent : option nat) : pystr :=
  match indent with
  | None => [COMMA; SPACE]
  | Some _ => [COMMA]
  end.

Definition key_separator : pystr := [58; SPACE].

(** [_iterencode], the chunks already concatenated. *)
Fixpoint iterencode (indent : option nat) (level : nat) (o : json) {struct o}
  : pystr :=
  match o with
  | JStr s => encode_basestring_ascii s
  | JNull => lit "null"
  | JBool true => lit "true"
  | JBool false => lit "false"
  | JInt z => int_repr z
  | JFloat x => floatstr x
  | JArr lst =>
      match lst with
      | [] => lit "[]"
      | _ =>
          lit "[" ++ newline_indent indent (S level)
          ++ join (item_separator indent ++ newline_indent indent (S level))
               (map (iterencode indent (S level)) lst)
          ++ newline_indent indent level ++ lit "]"
      end
  | JObj dct =>
      match dct with
      | [] => lit "{}"
      | _ =>
          lit "{" ++ newline_indent indent (S level)
          ++ join (item_separator indent ++ newline_indent indent (S level))
               (map (fun kv => encode_basestring_ascii (fst kv) ++ key_separator
                               ++ iterencode indent (S level) (snd kv)) dct)
          ++ newline_indent indent level ++ lit "}"
      end
  end.

Definition dumps (indent : option nat) (o : json) : pystr :=
  iterencode indent 0 o.

End Encoder.

(** ** [json.load] and [json.loads]

    The scanner of the [json] package with its default settings (strict
    strings, escapes read as the C scanner reads them, [NaN] and the
    infinities accepted).  [None] stands for a [JSONDecodeError]. *)

Module Decoder.

Definition is_ws (c : N) : bool :=
  (c =? SPACE) || (c =? 9) || (c =? LF) || (c =? CR).

Fixpoint skip_ws (s : pystr) : pystr :=
  match s with
  | c :: rest => if is_ws c then skip_ws rest else s
  | [] => []
  end.

(** [s[idx:idx+len(prefix)] == prefix], giving what follows. *)
Fixpoint strip_prefix (prefix s : pystr) : option pystr :=
  match prefix, s with
  | [], _ => Some s
  | p :: prefix', c :: s' => if p =? c then strip_prefix prefix' s' else None
  | _ :: _, [] => None
  end.

Definition hexval (c : N) : option N :=
  if (48 <=? c) && (c <=? 57) then Some (c - 48)
  else if (97 <=? c) && (c <=? 102) then Some (c - 87)
  else if (65 <=? c) && (c <=? 70) then Some (c - 55)
  else None.

(** The four hexadecimal digits after [\u]. *)
Definition decode_uXXXX (s : pystr) : option (N * pystr) :=
  match s with
  | a :: b :: c :: d :: rest =>
      match hexval a, hexval b, hexval c, hexval d with
      | Some a, Some b, Some c, Some d =>
          Some (4096 * a + 256 * b + 16 * c + d, rest)
      | _, _, _, _ => None
      end
  | _ => None
  end.

Definition is_high_surrogate (c : N) : bool := (55296 <=? c) && (c <=? 56319).
Definition is_low_surrogate (c : N) : bool := (56320 <=? c) && (c <=? 57343).

(** The table [BACKSLASH] of the decoder. *)
Definition unescape (esc : N) : option N :=
  if esc =? QUOTE then Some QUOTE
  else if esc =? BACKSLASH then Some BACKSLASH
  else if esc =? 47 then Some 47
  else if esc =? 98 then Some 8
  else if esc =? 102 then Some 12
  else if esc =? 110 then Some 10
  else if esc =? 114 then Some 13
  else if esc =? 116 then Some 9
  else None.

Definition prepend {A} (c : A) (r : option (list A * pystr))
  : option (list A * pystr) :=
  match r with
  | Some (cs, rest) => Some (c :: cs, rest)
  | None => None
  end.

(** [scanstring], started after the opening quote: the string and the
    text after its closing quote. *)
Fixpoint scanstring (fuel : nat) (s : pystr) {struct fuel}
  : option (pystr * pystr) :=
  match fuel with
  | O => None
  | S fuel' =>
      match s with
      | [] => None
      | c :: rest =>
          if c =? QUOTE then Some ([], rest)
          else if c =? BACKSLASH then
            match rest with
            | [] => None
            | esc :: rest1 =>
                if esc =? 117 then
                  match decode_uXXXX rest1 with
                  | None => None
                  | Some (uni, rest2) =>
                      if is_high_surrogate uni then
                        match strip_prefix [BACKSLASH; 117] rest2 with
                        | Some rest3 =>
                            match decode_uXXXX rest3 with
                            | None => None
                            | Some (uni2, rest4) =>
                                if is_low_surrogate uni2 then
                                  prepend
                                    (65536 + N.lor (N.shiftl (uni - 55296) 10)
                                               (uni2 - 56320))
                                    (scanstring fuel' rest4)
                                else prepend uni (scanstring fuel' rest2)
                            end
                        | None => prepend uni (scanstring fuel' rest2)
                        end
                      else prepend uni (scanstring fuel' rest2)
                  end
                else
                  match unescape esc with
                  | Some ch => prepend ch (scanstring fuel' rest1)
                  | None => None
                  end
            end
          else if c <? 32 then None
          else prepend c (scanstring fuel' rest)
      end
  end.

Definition is_digit (c : N) : bool := (48 <=? c) && (c <=? 57).

(** The longest run of digits at the front, and what follows it. *)
Fixpoint scan_digits (s : pystr) : pystr * pystr :=
  match s with
  | c :: rest =>
      if is_digit c then
        let (ds, r) := scan_digits rest in (c :: ds, r)
      else ([], s)
  | [] => ([], [])
  end.

(** [int(ds)] for a run of digits. *)
Definition digits_value (ds : pystr) : Z :=
  fold_left (fun acc c => (10 * acc + (Z.of_N c - 48))%Z) ds 0%Z.

(** The integer part of [NUMBER_RE]: [0] or a run that starts with a
    non-zero digit. *)
Definition match_integer (s : pystr) : option (pystr * pystr) :=
  match s with
  | c :: rest =>
      if c =? 48 then Some ([c], rest)
      else if is_digit c then Some (scan_digits s)
      else None
  | [] => None
  end.

(** The fraction group of [NUMBER_RE]: a point and one digit at least;
    the digits are returned. *)
Definition match_fraction (s : pystr) : option (pystr * pystr) :=
  match s with
  | c :: c1 :: rest =>
      if (c =? 46) && is_digit c1 then Some (scan_digits (c1 :: rest)) else None
  | _ => None
  end.

(** The exponent group of [NUMBER_RE]: [e] or [E], a sign or none, and one
    digit at least; the exponent is returned. *)
Definition match_exponent (s : pystr) : option (Z * pystr) :=
  match s with
  | c :: s1 =>
      if (c =? 101) || (c =? 69) then
        let (negative, s2) :=
          match s1 with
          | c1 :: r =>
              if c1 =? 45 then (true, r) else if c1 =? 43 then (false, r) else (false, s1)
          | [] => (false, s1)
          end in
        match s2 with
        | c2 :: _ =>
            if is_digit c2 then
              let (ds, r) := scan_digits s2 in
              Some (if negative then (- digits_value ds)%Z else digits_value ds, r)
            else None
        | [] => None
        end
      else None
  | [] => None
  end.

(** [float(integer + frac + exp)]: the float nearest to the value of the
    numeral. *)
Definition float_of_literal (negative : bool) (integer frac : pystr) (exp : Z)
  : Float.float :=
  Float.of_Q negative
    (Qmult (inject_Z (digits_value (integer ++ frac)))
           (Float.pow10 (exp - Z.of_nat (length frac)))).

(** A match of [NUMBER_RE] after the sign: an [int] when neither the
    fraction nor the exponent is there, a [float] otherwise. *)
Definition match_number (negative : bool) (s : pystr) : option (json * pystr) :=
  match match_integer s with
  | Some (integer, rest) =>
      let (frac, rest1) :=
        match match_fraction rest with
        | Some (ds, r) => (Some ds, r)
        | None => (None, rest)
        end in
      let (exp, rest2) :=
        match match_exponent rest1 with
        | Some (x, r) => (Some x, r)
        | None => (None, rest1)
        end in
      match frac, exp with
      | None, None =>
          Some (JInt (if negative then (- digits_value integer)%Z
                      else digits_value integer), rest)
      | _, _ =>
          Some (JFloat (float_of_literal negative integer (default [] frac)
                          (default 0%Z exp)), rest2)
      end
  | None => None
  end.

Definition parse_number (s : pystr) : option (json * pystr) :=
  match s with
  | c :: rest => if c =? 45 then match_number true rest else match_number false s
  | [] => None
  end.

(** [dict(pairs)] *)
Definition dict_of_pairs (pairs : list (pystr * json)) : list (pystr * json) :=
  fold_left (fun dct kv => dict_set (fst kv) (snd kv) dct) pairs [].

(** [scan_once] at the first character of a value, with [JSONArray] and
    [JSONObject] as the loops [array_items] (started at the first item)
    and [object_items] (started after the opening quote of a key). *)
Fixpoint scan_once (fuel : nat) (s : pystr) {struct fuel} : option (json * pystr) :=
  match fuel with
  | O => None
  | S fuel' =>
      match s with
      | [] => None
      | c :: rest =>
          if c =? QUOTE then
            match scanstring (S (length rest)) rest with
            | Some (str, r) => Some (JStr str, r)
            | None => None
            end
          else if c =? 123 then
            match skip_ws rest with
            | c1 :: r1 =>
                if c1 =? 125 then Some (JObj [], r1)
                else if c1 =? QUOTE then
                  match object_items fuel' r1 with
                  | Some (pairs, r) => Some (JObj (dict_of_pairs pairs), r)
                  | None => None
                  end
                else None
            | [] => None
            end
          else if c =? 91 then
            match skip_ws rest with
            | c1 :: r1 =>
                if c1 =? 93 then Some (JArr [], r1)
                else
                  match array_items fuel' (c1 :: r1) with
                  | Some (values, r) => Some (JArr values, r)
                  | None => None
                  end
            | [] => None
            end
          else
            match strip_prefix (lit "null") s with
            | Some r => Some (JNull, r)
            | None =>
                match strip_prefix (lit "true") s with
                | Some r => Some (JBool true, r)
                | None =>
                    match strip_prefix (lit "false") s with
                    | Some r => Some (JBool false, r)
                    | None =>
                        match strip_prefix (lit "NaN") s with
                        | Some r => Some (JFloat Float.NaN, r)
                        | None =>
                            match strip_prefix (lit "Infinity") s with
                            | Some r => Some (JFloat (Float.Infinity false), r)
                            | None =>
                                match strip_prefix (lit "-Infinity") s with
                                | Some r => Some (JFloat (Float.Infinity true), r)
                                | None => parse_number s
                                end
                            end
                        end
                    end
                end
            end
      end
  end
with array_items (fuel : nat) (s : pystr) {struct fuel}
  : option (list json * pystr) :=
  match fuel with
  | O => None
  | S fuel' =>
      match scan_once fuel' s with
      | Some (value, r) =>
          match skip_ws r with
          | c :: r1 =>
              if c =? 93 then Some ([value], r1)
              else if c =? COMMA then prepend value (array_items fuel' (skip_ws r1))
              else None
          | [] => None
          end
      | None => None
      end
  end
with object_items (fuel : nat) (s : pystr) {struct fuel}
  : option (list (pystr * json) * pystr) :=
  match fuel with
  | O => None
  | S fuel' =>
      match scanstring (S (length s)) s with
      | Some (key, r) =>
          match skip_ws r with
          | c :: r1 =>
              if c =? 58 then
                match scan_once fuel' (skip_ws r1) with
                | Some (value, r2) =>
                    match skip_ws r2 with
                    | c2 :: r3 =>
                        if c2 =? 125 then Some ([(key, value)], r3)
                        else if c2 =? COMMA then
                          match skip_ws r3 with
                          | c3 :: r4 =>
                              if c3 =? QUOTE then
                                prepend (key, value) (object_items fuel' r4)
                              else None
                          | [] => None
                          end
                        else None
                    | [] => None
                    end
                | None => None
                end
              else None
          | [] => None
          end
      | None => None
      end
  end.

(** [json.loads]: one value, white space allowed around it, nothing
    else; a leading byte-order mark is refused. *)
Definition loads (s : pystr) : option json :=
  if match s with c :: _ => c =? 65279 | [] => false end then None
  else
    match scan_once (S (length s)) (skip_ws s) with
    | Some (obj, rest) =>
        match skip_ws rest with
        | [] => Some obj
        | _ :: _ => None
        end
    | None => None
    end.

End Decoder.

(** ** [csv.writer] with the default [excel] dialect

    Delimiter [,], the double quote as quote character, [doublequote], line
    terminator [\r\n], [QUOTE_MINIMAL], no escape character. *)

Module Csv.

Definition lineterminator : pystr := [CR; LF].

(** The characters that make [join_append_data] set [quoted]. *)
Definition special (c : N) : bool :=
  (c =? COMMA) || (c =? QUOTE) || (c =? CR) || (c =? LF).

Definition quoted (field : pystr) : bool := existsb special field.

(** The field's characters, every quote character doubled. *)
Definition field_data (field : pystr) : pystr :=
  flat_map (fun c => if c =? QUOTE then [QUOTE; QUOTE] else [c]) field.

Definition join_append (field : pystr) : pystr :=
  if quoted field then QUOTE :: field_data field ++ [QUOTE]
  else field_data field.

(** The line [writerow] hands to [write].  A record that has fields and
    is still empty, which takes a single empty field, is written as a
    pair of quotes. *)
Definition writerow (fields : list pystr) : pystr :=
  match fields with
  | [field] =>
      match join_append field with
      | [] => [QUOTE; QUOTE]
      | line => line
      end
  | _ => join [COMMA] (map join_append fields)
  end ++ lineterminator.

End Csv.

(** ** Exceptions, results and the world *)

(** The subclasses of [requests.exceptions.RequestException]. *)
Inductive request_failure : Type :=
| ConnectionError
| Timeout
| SSLError
| TooManyRedirects
| HTTPError
| InvalidURL
| JSONDecodeError.

Inductive exn : Type :=
| KeyError (key : pystr)
| TypeError
| AttributeError
| ValueError
| UnicodeEncodeError
| RequestException (kind : request_failure) (message : pystr)
| OtherError (message : pystr).

Inductive result (A : Type) : Type :=
| Ok (a : A)
| Raise (e : exn).
Arguments Ok {A} a.
Arguments Raise {A} e.

(** A [requests.Response]: the status line, the final URL, and what its
    [json()] method does. *)
Record Response : Type := {
  status_code : Z;
  reason : pystr;
  response_url : pystr;
  response_json : result json
}.

Record Request : Type := {
  req_method : pystr;
  req_url : pystr;
  req_headers : list (pystr * pystr);
  req_data : pystr
}.

Record World : Type := {
  files : gmap pystr pystr;
  stdout : list pystr;
  sent : list Request
}.

Definition M (A : Type) : Type := World -> result A * World.

Definition ret {A} (a : A) : M A := fun w => (Ok a, w).

Definition bind {A B} (m : M A) (k : A -> M B) : M B :=
  fun w => match m w with
           | (Ok a, w') => k a w'
           | (Raise e, w') => (Raise e, w')
           end.

Definition raise {A} (e : exn) : M A := fun w => (Raise e, w).

Definition lift {A} (r : result A) : M A := fun w => (r, w).

Notation "'let!' x ':=' m 'in' k" := (bind m (fun x => k))
  (at level 10, x pattern, m at level 100, k at level 200).

(** [try: body except <handled>: ...]; [handler] gives the clause for the
    exceptions it catches. *)
Definition try_except {A} (body : M A) (handler : exn -> option (M A)) : M A :=
  fun w => match body w with
           | (Ok a, w') => (Ok a, w')
           | (Raise e, w') =>
               match handler e with
               | Some clause => clause w'
               | None => (Raise e, w')
               end
           end.

(** [for x in xs: body] *)
Fixpoint for_each {A} (xs : list A) (body : A -> M unit) : M unit :=
  match xs with
  | [] => ret tt
  | x :: rest => let! _ := body x in for_each rest body
  end.

(** [print(line)] *)
Definition print (line : pystr) : M unit :=
  fun w => (Ok tt, {| files := files w; stdout := stdout w ++ [line]; sent := sent w |}).

(** [open(filename, mode="w")]: the file exists and is empty afterwards. *)
Definition open_w (filename : pystr) : M unit :=
  fun w => (Ok tt, {| files := <[filename := []]> (files w);
                      stdout := stdout w; sent := sent w |}).

(** *** Writing text

    [open] without [encoding] gives the file the encoding of the locale,
    with [errors="strict"].  Such an encoding has every ASCII character;
    which others it has is the parameter [codec].  [write] encodes the whole
    text before any of it reaches the file, and raises [UnicodeEncodeError]
    at a character the encoding lacks.  What was written before stays: the
    [with] statement closes the file on the way out. *)

Section Files.

Variable codec : N -> bool.

Definition encodable (c : N) : bool := (c <? 128) || codec c.

Definition encodable_text (text : pystr) : bool := forallb encodable text.

(** [file.write(text)] on the file opened under [filename]. *)
Definition write (filename : pystr) (text : pystr) : M unit :=
  fun w =>
    if encodable_text text then
      (Ok tt, {| files := <[filename := default [] (files w !! filename) ++ text]> (files w);
                 stdout := stdout w; sent := sent w |})
    else (Raise UnicodeEncodeError, w).

End Files.

(** ** Operations on objects *)

(** The objects [for item in o] runs through. *)
Definition py_iter (o : json) : result (list json) :=
  match o with
  | JArr lst => Ok lst
  | JObj dct => Ok (map (fun kv => JStr (fst kv)) dct)
  | JStr s => Ok (map (fun c => JStr [c]) s)
  | _ => Raise TypeError
  end.

(** [o[key]] for a [str] key. *)
Definition subscript (o : json) (key : pystr) : result json :=
  match o with
  | JObj dct =>
      match dict_lookup key dct with
      | Some v => Ok v
      | None => Raise (KeyError key)
      end
  | _ => Raise TypeError
  end.

(** [o.get(key, dflt)]; only a [dict] has the method. *)
Definition py_get (o : json) (key : pystr) (dflt : json) : result json :=
  match o with
  | JObj dct => Ok (default dflt (dict_lookup key dct))
  | _ => Raise AttributeError
  end.

(** [Response.raise_for_status] *)
Definition raise_for_status (r : Response) : result unit :=
  if ((400 <=? status_code r) && (status_code r <? 500))%Z then
    Raise (RequestException HTTPError
             (Encoder.int_repr (status_code r) ++ lit " Client Error: " ++ reason r
              ++ lit " for url: " ++ response_url r))
  else if ((500 <=? status_code r) && (status_code r <? 600))%Z then
    Raise (RequestException HTTPError
             (Encoder.int_repr (status_code r) ++ lit " Server Error: " ++ reason r
              ++ lit " for url: " ++ response_url r))
  else Ok tt.

(** [if response:] on what [_request_call] returned: [None] is false, a
    [Response] is its [ok], which is whether [raise_for_status] passes. *)
Definition response_truthy (response : option Response) : bool :=
  match response with
  | None => false
  | Some r => match raise_for_status r with Ok _ => true | Raise _ => false end
  end.

(** ** The program *)

Section Program.

(** What [requests.request] does with a request, given the requests made
    before it: a response, or an exception. *)
Variable transport : list Request -> Request -> result Response.

(** The characters beyond ASCII that the encoding of the output file has. *)
Variable codec : N -> bool.

(** [repr] of a [list] or a [dict], on which [str] falls back. *)
Variable container_repr : json -> pystr.

(** [str(o)], also what an f-string puts in place of [{o}]. *)
Definition py_str (o : json) : pystr :=
  match o with
  | JNull => lit "None"
  | JBool true => lit "True"
  | JBool false => lit "False"
  | JInt z => Encoder.int_repr z
  | JFloat x => Encoder.float_repr x
  | JStr s => s
  | _ => container_repr o
  end.

(** [requests.request(method, url, headers=headers, data=data, verify=False)] *)
Definition requests_request (method url : pystr) (headers : list (pystr * pystr))
    (data : pystr) : M Response :=
  fun w =>
    let rq := {| req_method := method; req_url := url;
                 req_headers := headers; req_data := data |} in
    (transport (sent w) rq,
     {| files := files w; stdout := stdout w; sent := sent w ++ [rq] |}).

Definition _request_call (method url : pystr) (headers : list (pystr * pystr))
    (data : pystr) : M (option Response) :=
  try_except
    (let! response := requests_request method url headers data in
     let! _ := lift (raise_for_status response) in
     ret (Some response))
    (fun e =>
       match e with
       | RequestException _ message =>
           Some (let! _ := print (lit "Error during request: " ++ message) in
                 ret None)
       | _ => None
       end).

Definition json_headers : list (pystr * pystr) :=
  [(lit "Content-Type", lit "application/json")].

(** The locals [url] and [payload] of [get_tags]. *)
Definition get_tags_url (canary api_version : pystr) : pystr :=
  canary ++ lit "/" ++ api_version ++ lit "/browseTags".

Definition get_tags_payload (api_token application timezone : pystr) : pystr :=
  Encoder.dumps None
    (JObj [(lit "application", JStr application);
           (lit "timezone", JStr timezone);
           (lit "apiToken", JStr api_token);
           (lit "path", JStr []);
           (lit "deep", JBool true);
           (lit "search", JStr [])]).

Definition get_tags (canary api_version api_token application timezone : pystr)
  : M json :=
  let url := get_tags_url canary api_version in
  let payload := get_tags_payload api_token application timezone in
  let headers := json_headers in
  let! response := _request_call (lit "POST") url headers payload in
  if response_truthy response then
    match response with
    | Some r =>
        let! body := lift (response_json r) in
        lift (py_get body (lit "tags") (JArr []))
    | None => ret (JArr [])
    end
  else ret (JArr []).

(** The locals [url] and [payload] of [get_tag_context]. *)
Definition get_tag_context_url (canary api_version : pystr) : pystr :=
  canary ++ lit "/" ++ api_version ++ lit "/getTagContext".

Definition get_tag_context_payload (api_token : pystr) (tags : json) : pystr :=
  Encoder.dumps None
    (JObj [(lit "apiToken", JStr api_token); (lit "tags", tags)]).

Definition get_tag_context (canary api_version api_token : pystr) (tags : json)
  : M json :=
  let url := get_tag_context_url canary api_version in
  let payload := get_tag_context_payload api_token tags in
  let headers := json_headers in
  let! response := _request_call (lit "POST") url headers payload in
  if response_truthy response then
    match response with
    | Some r =>
        let! body := lift (response_json r) in
        lift (py_get body (lit "data") (JArr []))
    | None => ret (JArr [])
    end
  else ret (JArr []).

(** *** [csv.DictWriter] on the file opened under [filename] *)

(** The text [csv.writer] takes for a field: nothing for [None], the
    string itself, [str] of anything else. *)
Definition field_text (o : json) : pystr :=
  match o with
  | JNull => []
  | JStr s => s
  | _ => py_str o
  end.

(** [DictWriter.writerow] with [restval=""] and [extrasaction="raise"]. *)
Definition DictWriter_writerow (filename : pystr) (fieldnames : list pystr)
    (rowdict : list (pystr * json)) : M unit :=
  if forallb (fun kv => bool_decide (fst kv ∈ fieldnames)) rowdict then
    write codec filename
      (Csv.writerow
         (map (fun key => field_text (default (JStr []) (dict_lookup key rowdict)))
            fieldnames))
  else raise ValueError.

(** [DictWriter.writeheader]: the row [dict(zip(fieldnames, fieldnames))]. *)
Definition DictWriter_writeheader (filename : pystr) (fieldnames : list pystr)
  : M unit :=
  DictWriter_writerow filename fieldnames (map (fun key => (key, JStr key)) fieldnames).

Definition fieldnames : list pystr :=
  [lit "tagName"; lit "historianItemId"; lit "sourceItemId";
   lit "oldestTimeStamp"; lit "latestTimeStamp"].

(** The body of the loop of [save_to_csv]. *)
Definition save_to_csv_item (filename : pystr) (item : json) : M unit :=
  let! tag_context := lift (subscript item (lit "tagContext")) in
  let! name := lift (subscript item (lit "tagName")) in
  let! historian := lift (py_get tag_context (lit "historianItemId") JNull) in
  let! source := lift (py_get tag_context (lit "sourceItemId") JNull) in
  let! oldest := lift (py_get tag_context (lit "oldestTimeStamp") JNull) in
  let! latest := lift (py_get tag_context (lit "latestTimeStamp") JNull) in
  DictWriter_writerow filename fieldnames
    [(lit "tagName", name);
     (lit "historianItemId", historian);
     (lit "sourceItemId", source);
     (lit "oldestTimeStamp", oldest);
     (lit "latestTimeStamp", latest)].

Definition save_to_csv (data : json) (filename : pystr) : M unit :=
  let! _ := open_w filename in
  let! _ := DictWriter_writeheader filename fieldnames in
  let! items := lift (py_iter data) in
  for_each items (save_to_csv_item filename).

(** One [file.write(f"<label>{item['tagContext'].get(<field>)}\n")]. *)
Definition write_context_line (filename : pystr) (item : json)
    (label field : pystr) : M unit :=
  let! tag_context := lift (subscript item (lit "tagContext")) in
  let! value := lift (py_get tag_context field JNull) in
  write codec filename (label ++ py_str value ++ [LF]).

(** The body of the loop of [save_to_txt]. *)
Definition save_to_txt_item (filename : pystr) (item : json) : M unit :=
  let! name := lift (subscript item (lit "tagName")) in
  let! _ := write codec filename (lit "TagName: " ++ py_str name ++ [LF]) in
  let! _ := write_context_line filename item
              (lit "  HistorianItemId: ") (lit "historianItemId") in
  let! _ := write_context_line filename item
              (lit "  SourceItemId: ") (lit "sourceItemId") in
  let! _ := write_context_line filename item
              (lit "  OldestTimeStamp: ") (lit "oldestTimeStamp") in
  let! _ := write_context_line filename item
              (lit "  LatestTimeStamp: ") (lit "latestTimeStamp") in
  write codec filename [LF].

Definition save_to_txt (data : json) (filename : pystr) : M unit :=
  let! _ := open_w filename in
  let! items := lift (py_iter data) in
  for_each items (save_to_txt_item filename).

Definition save_to_json (data : json) (filename : pystr) : M unit :=
  let! _ := open_w filename in
  write codec filename (Encoder.dumps (Some 4%nat) data).

Definition main (canary api_version api_token application timezone
                   output_format output_file : pystr) : M unit :=
  let! tags := get_tags canary api_version api_token application timezone in
  if truthy tags then
    let! tag_context_data := get_tag_context canary api_version api_token tags in
    if truthy tag_context_data then
      let! _ :=
        if decide (output_format = lit "csv") then
          save_to_csv tag_context_data output_file
        else if decide (output_format = lit "txt") then
          save_to_txt tag_context_data output_file
        else if decide (output_format = lit "json") then
          save_to_json tag_context_data output_file
        else ret tt in
      print (lit "Data saved to " ++ output_file ++ lit " in " ++ output_format
             ++ lit " format.")
    else print (lit "No data returned in the tag context.")
  else print (lit "No tags found.").

End Program.

(** ** What a record is written as

    The rendering of a result set as the specification words it: a CSV line
    of five cells, a text block of five labelled lines and an empty one.
    The loops of [save_to_csv] and [save_to_txt] are compared with it
    below. *)

Section Rendering.

Variable container_repr : json -> pystr.

(** The name and the context object of a record, when it has both. *)
Definition record_fields (item : json) : option (json * list (pystr * json)) :=
  match item with
  | JObj rec =>
      match dict_lookup (lit "tagName") rec, dict_lookup (lit "tagContext") rec with
      | Some name, Some (JObj ctx) => Some (name, ctx)
      | _, _ => None
      end
  | _ => None
  end.

(** [ctx.get(field)] *)
Definition context_value (ctx : list (pystr * json)) (field : pystr) : json :=
  default JNull (dict_lookup field ctx).

Definition context_fields : list pystr :=
  [lit "historianItemId"; lit "sourceItemId";
   lit "oldestTimeStamp"; lit "latestTimeStamp"].

(** The CSV cell of a context field, before quoting. *)
Definition csv_cell (ctx : list (pystr * json)) (field : pystr) : pystr :=
  field_text container_repr (context_value ctx field).

Definition csv_cells (name : json) (ctx : list (pystr * json)) : list pystr :=
  field_text container_repr name :: map (csv_cell ctx) context_fields.

Definition csv_header_line : pystr :=
  lit "tagName,historianItemId,sourceItemId,oldestTimeStamp,latestTimeStamp"
  ++ [CR; LF].

Definition csv_record_line (item : json) : pystr :=
  match record_fields item with
  | Some (name, ctx) =>
      join [COMMA] (map Csv.join_append (csv_cells name ctx)) ++ [CR; LF]
  | None => []
  end.

(** The text put after the label of a context field. *)
Definition txt_value (ctx : list (pystr * json)) (field : pystr) : pystr :=
  py_str container_repr (context_value ctx field).

Definition txt_lines (name : json) (ctx : list (pystr * json)) : list pystr :=
  [lit "TagName: " ++ py_str container_repr name;
   lit "  HistorianItemId: " ++ txt_value ctx (lit "historianItemId");
   lit "  SourceItemId: " ++ txt_value ctx (lit "sourceItemId");
   lit "  OldestTimeStamp: " ++ txt_value ctx (lit "oldestTimeStamp");
   lit "  LatestTimeStamp: " ++ txt_value ctx (lit "latestTimeStamp")].

(** The lines of a record, each ended by a newline, and one empty line. *)
Definition txt_record_block (item : json) : pystr :=
  match record_fields item with
  | Some (name, ctx) => flat_map (fun line => line ++ [LF]) (txt_lines name ctx) ++ [LF]
  | None => []
  end.

Definition no_newline (text : pystr) : bool :=
  forallb (fun c => negb ((c =? CR) || (c =? LF))) text.

(** A record none of whose five cells holds a carriage return or a
    line feed. *)
Definition record_plain (item : json) : bool :=
  match record_fields item with
  | Some (name, ctx) => forallb no_newline (csv_cells name ctx)
  | None => false
  end.

End Rendering.

(** The number of line ends of a text, where a line ends at a line feed, at
    a carriage return, or at the two in this order taken together. *)
Fixpoint line_count (text : pystr) : nat :=
  match text with
  | [] => 0
  | c :: rest =>
      if c =? LF then S (line_count rest)
      else if c =? CR then
        match rest with
        | c' :: _ => if c' =? LF then line_count rest else S (line_count rest)
        | [] => 1%nat
        end
      else line_count rest
  end.

(** An object that is a dictionary whose [tagContext], if it has one, is a
    dictionary too. *)
Definition record_shaped (item : json) : bool :=
  match item with
  | JObj rec =>
      match dict_lookup (lit "tagContext") rec with
      | Some (JObj _) | None => true
      | Some _ => false
      end
  | _ => false
  end.

Definition lacks (key : pystr) (item : json) : Prop :=
  match item with
  | JObj rec => dict_lookup key rec = None
  | _ => False
  end.

(** The world after [filename] has been given [content]. *)
Definition with_file (w : World) (filename content : pystr) : World :=
  {| files := <[filename := content]> (files w); stdout := stdout w; sent := sent w |}.

(** ** Sample runs

    Concrete servers and arguments on which the statements below are
    exercised. *)

Module Sample.

Definition empty_world : World := {| files := ∅; stdout := []; sent := [] |}.

Definition canary : pystr := lit "https://canary.local".
Definition api_version : pystr := lit "api/v2".
Definition api_token : pystr := lit "token".
Definition application : pystr := lit "Postman Test".
Definition timezone : pystr := lit "Pacific Standard Time".
Definition output_file : pystr := lit "out.dat".

Definition container_repr (o : json) : pystr := lit "[...]".

(** UTF-8 has every character but the surrogates. *)
Definition utf8 (c : N) : bool := (c <? 1114112) && negb (is_surrogate c).

(** Latin-1 stops at [0xFF]. *)
Definition latin1 (c : N) : bool := c <? 256.

Definition respond (status : Z) (phrase : string) (body : json) : Response :=
  {| status_code := status; reason := lit phrase;
     response_url := canary; response_json := Ok body |}.

(** A [304 Not Modified] answer. *)
Definition not_modified : Response := respond 304 "Not Modified" JNull.

Definition tag1 : json :=
  JObj [(lit "tagName", JStr (lit "Tag1.PV"));
        (lit "tagContext",
         JObj [(lit "historianItemId", JStr (lit "h-1"));
               (lit "sourceItemId", JStr (lit "s-1"));
               (lit "oldestTimeStamp", JStr (lit "2024-01-01T00:00:00"));
               (lit "latestTimeStamp", JStr (lit "2024-02-01T00:00:00"))])].

(** A record whose context lacks [sourceItemId]. *)
Definition tag2 : json :=
  JObj [(lit "tagName", JStr (lit "Tag2.PV"));
        (lit "tagContext",
         JObj [(lit "historianItemId", JStr (lit "h-2"));
               (lit "oldestTimeStamp", JStr (lit "2024-01-01T00:00:00"));
               (lit "latestTimeStamp", JStr (lit "2024-02-01T00:00:00"))])].

(** A record without [tagContext]. *)
Definition tag3 : json := JObj [(lit "tagName", JStr (lit "Tag3.PV"))].

Definition tag_names : json := JArr [JStr (lit "Tag1.PV"); JStr (lit "Tag2.PV")].

(** The server answers the first request with [tags] and every later one
    with [data]. *)
Definition serve (tags data : json) (before : list Request) (rq : Request)
  : result Response :=
  match before with
  | [] => Ok (respond 200 "OK" (JObj [(lit "tags", tags)]))
  | _ :: _ => Ok (respond 200 "OK" (JObj [(lit "data", data)]))
  end.

(** A server that cannot be reached. *)
Definition unreachable (before : list Request) (rq : Request) : result Response :=
  Raise (RequestException ConnectionError (lit "Connection refused")).

(** A server that answers every request with the same response. *)
Definition always (r : Response) (before : list Request) (rq : Request)
  : result Response := Ok r.

End Sample.

(** ** Documents that [json.loads] can have produced

    A string read from JSON text that was decoded from UTF-8 holds code
    points below [0x110000], and never a high surrogate directly followed by
    a low one: the decoder joins an escaped pair into one character.  The
    keys of a dictionary are distinct. *)

Fixpoint str_ok (s : pystr) : bool :=
  match s with
  | [] => true
  | c :: rest =>
      (c <? 1114112)
      && negb (Decoder.is_high_surrogate c
               && match rest with
                  | c' :: _ => Decoder.is_low_surrogate c'
                  | [] => false
                  end)
      && str_ok rest
  end.

Fixpoint doc_ok (o : json) : bool :=
  match o with
  | JFloat x => Float.float_ok x
  | JStr s => str_ok s
  | JArr lst => forallb doc_ok lst
  | JObj dct =>
      bool_decide (NoDup (map fst dct))
      && forallb (fun kv => str_ok (fst kv) && doc_ok (snd kv)) dct
  | _ => true
  end.

(** Fuel that lets [scan_once] read a document back. *)
Fixpoint weight (o : json) : nat :=
  match o with
  | JArr lst => S (list_sum (map (fun x => S (weight x)) lst))
  | JObj dct => S (list_sum (map (fun kv => S (weight (snd kv))) dct))
  | _ => 1%nat
  end.

(** Where the encoder stops a value: at the end of the text, or before a
    comma, a newline, or a closing bracket or brace. *)
Definition value_end (rest : pystr) : bool :=
  match rest with
  | [] => true
  | c :: _ => (c =? COMMA) || (c =? LF) || (c =? 93) || (c =? 125)
  end.

(** Whether the text goes on with a [\u] escape that [scanstring] would
    join to a high surrogate read just before, or would refuse. *)
Definition joins_low (rest : pystr) : bool :=
  match Decoder.strip_prefix [BACKSLASH; 117] rest with
  | Some rest3 =>
      match Decoder.decode_uXXXX rest3 with
      | Some (uni2, _) => Decoder.is_low_surrogate uni2
      | None => true
      end
  | None => false
  end.

(** A decimal numeral without superfluous zeros: [0] itself, or digits that
    start with a non-zero one. *)
Definition normal (d : Decimal.uint) : Prop :=
  match d with
  | Decimal.Nil => False
  | Decimal.D0 d' => d' = Decimal.Nil
  | _ => True
  end.

Definition all_digits (ds : pystr) : bool := forallb Decoder.is_digit ds.

(** What may follow a run of digits: anything but a digit. *)
Definition no_digit (rest : pystr) : Prop :=
  match rest with c :: _ => Decoder.is_digit c = false | [] => True end.

(** One step of [int(ds)]: the value so far, and the next digit. *)
Definition digit_step (acc : Z) (c : N) : Z := (10 * acc + (Z.of_N c - 48))%Z.

(** [scan_once] reads the encoding of [o] back, at any nesting level and
    before any text at which a value may end. *)
Definition reads_back (indent : option nat) (o : json) : Prop :=
  doc_ok o = true ->
  forall level fuel rest,
    (weight o <= fuel)%nat ->
    value_end rest = true ->
    Decoder.scan_once fuel (Encoder.iterencode indent level o ++ rest) = Some (o, rest).

(** The text of a dictionary item: key, colon, value. *)
Definition encode_item (indent : option nat) (level : nat) (kv : pystr * json) : pystr :=
  Encoder.encode_basestring_ascii (fst kv) ++ Encoder.key_separator
  ++ Encoder.iterencode indent level (snd kv).

(** Text as decoding UTF-8 bytes gives it: code points below [0x110000],
    none of them a surrogate. *)
Definition text_ok (s : pystr) : bool :=
  forallb (fun c => (c <? 1114112) && negb (is_surrogate c)) s.

(** ** Reading the formatters' failures *)

Section ItemErrors.

Variable codec : N -> bool.
Variable container_repr : json -> pystr.

(** The exception a single item makes the loop of [save_to_csv] raise, in
    the order the body of the loop meets them; [None] for an item that is
    written. *)
Definition csv_item_error (item : json) : option exn :=
  match item with
  | JObj rec =>
      match dict_lookup (lit "tagContext") rec with
      | None => Some (KeyError (lit "tagContext"))
      | Some tag_context =>
          match dict_lookup (lit "tagName") rec with
          | None => Some (KeyError (lit "tagName"))
          | Some _ =>
              match tag_context with
              | JObj _ =>
                  if encodable_text codec (csv_record_line container_repr item)
                  then None else Some UnicodeEncodeError
              | _ => Some AttributeError
              end
          end
      end
  | _ => Some TypeError
  end.

(** What writing [texts] one after the other leaves in the file before the
    first text that cannot be encoded; [None] when every text can. *)
Fixpoint written_before_refusal (texts : list pystr) : option pystr :=
  match texts with
  | [] => None
  | text :: rest =>
      if encodable_text codec text then
        option_map (fun more => text ++ more) (written_before_refusal rest)
      else Some []
  end.

(** The four texts that [save_to_txt] writes for the context of a record. *)
Definition context_writes (ctx : list (pystr * json)) : list pystr :=
  [lit "  HistorianItemId: "
     ++ py_str container_repr (context_value ctx (lit "historianItemId")) ++ [LF];
   lit "  SourceItemId: "
     ++ py_str container_repr (context_value ctx (lit "sourceItemId")) ++ [LF];
   lit "  OldestTimeStamp: "
     ++ py_str container_repr (context_value ctx (lit "oldestTimeStamp")) ++ [LF];
   lit "  LatestTimeStamp: "
     ++ py_str container_repr (context_value ctx (lit "latestTimeStamp")) ++ [LF]].

(** The same for the loop of [save_to_txt], with the text the body has
    already written when it raises. *)
Definition txt_item_error (item : json) : option (exn * pystr) :=
  match item with
  | JObj rec =>
      match dict_lookup (lit "tagName") rec with
      | None => Some (KeyError (lit "tagName"), [])
      | Some name =>
          let first := lit "TagName: " ++ py_str container_repr name ++ [LF] in
          if encodable_text codec first then
            match dict_lookup (lit "tagContext") rec with
            | None => Some (KeyError (lit "tagContext"), first)
            | Some (JObj ctx) =>
                option_map (fun text => (UnicodeEncodeError, first ++ text))
                  (written_before_refusal (context_writes ctx))
            | Some _ => Some (AttributeError, first)
            end
          else Some (UnicodeEncodeError, [])
      end
  | _ => Some (TypeError, [])
  end.

(** A record whose five lines of text hold no carriage return and no line
    feed. *)
Definition record_plain_txt (item : json) : bool :=
  match record_fields item with
  | Some (name, ctx) => forallb no_newline (txt_lines container_repr name ctx)
  | None => false
  end.

End ItemErrors.

(** A run that leaves the output, the requests and every file but
    [filename] as they were. *)
Definition frame (filename : pystr) (w w' : World) : Prop :=
  stdout w' = stdout w
  /\ sent w' = sent w
  /\ (forall other, other <> filename -> files w' !! other = files w !! other).

Definition keeps {A} (filename : pystr) (m : M A) : Prop :=
  forall w res w', m w = (res, w') -> frame filename w w'.

(** ** Reading a CSV cell back

    The cell at the front of a line written by [csv.writer], and the rest
    of the line: a cell that opens with a quote runs to the closing quote,
    doubled quotes standing for one; any other cell runs to the next comma
    or line end. *)
Fixpoint read_quoted (s : pystr) : pystr * pystr :=
  match s with
  | [] => ([], [])
  | c :: rest =>
      if c =? QUOTE then
        match rest with
        | c' :: rest' =>
            if c' =? QUOTE then
              let (cell, r) := read_quoted rest' in (QUOTE :: cell, r)
            else ([], rest)
        | [] => ([], [])
        end
      else let (cell, r) := read_quoted rest in (c :: cell, r)
  end.

Fixpoint read_plain (s : pystr) : pystr * pystr :=
  match s with
  | [] => ([], [])
  | c :: rest =>
      if (c =? COMMA) || (c =? CR) || (c =? LF) then ([], s)
      else let (cell, r) := read_plain rest in (c :: cell, r)
  end.

Definition read_cell (s : pystr) : pystr * pystr :=
  match s with
  | c :: rest => if c =? QUOTE then read_quoted rest else read_plain s
  | [] => ([], [])
  end.

(** Where a cell ends: at a comma, or at the line terminator. *)
Definition cell_end (rest : pystr) : bool :=
  match rest with
  | c :: _ => (c =? COMMA) || (c =? CR)
  | [] => false
  end.

(** A printable ASCII character, or a line feed. *)
Definition printable (c : N) : bool := ((32 <=? c) && (c <=? 126)) || (c =? LF).

(** A printable ASCII character. *)
Definition visible (c : N) : bool := (32 <=? c) && (c <=? 126).

(** ** Equality of documents

    [a == b] in Python: numbers are compared by value whatever their type,
    [True] and [False] counting as [1] and [0]; a NaN equals nothing, not
    even itself; lists are compared item by item, dictionaries key by key
    whatever the order. *)




(** ** The layout of indented JSON

    The number of spaces each line of a text starts with. *)





(** ** The two requests of a run *)

Definition get_tags_request (canary api_version api_token application timezone : pystr)
  : Request :=
  {| req_method := lit "POST";
     req_url := get_tags_url canary api_version;
     req_headers := json_headers;
     req_data := get_tags_payload api_token application timezone |}.

Definition get_tag_context_request (canary api_version api_token : pystr) (tags : json)
  : Request :=
  {| req_method := lit "POST";
     req_url := get_tag_context_url canary api_version;
     req_headers := json_headers;
     req_data := get_tag_context_payload api_token tags |}.

(** ** More sample servers *)

Module Servers.

(** A [200 OK] whose body is not JSON: [json()] raises. *)
Definition undecodable : Response :=
  {| status_code := 200; reason := lit "OK"; response_url := Sample.canary;
     response_json := Raise (RequestException JSONDecodeError
                               (lit "Expecting value: line 1 column 1 (char 0)")) |}.

(** A server that answers the first request with [tags] and then drops
    the connection. *)
Definition serve_then_drop (tags : json) (before : list Request) (rq : Request)
  : result Response :=
  match before with
  | [] => Ok (Sample.respond 200 "OK" (JObj [(lit "tags", tags)]))
  | _ :: _ => Raise (RequestException Timeout (lit "Read timed out."))
  end.

(** A call that ends in an exception outside the [requests] family. *)
Definition interrupted (before : list Request) (rq : Request) : result Response :=
  Raise (OtherError (lit "KeyboardInterrupt")).

(** A record whose [tagContext] is [null]. *)
Definition tag4 : json :=
  JObj [(lit "tagName", JStr (lit "Tag4.PV")); (lit "tagContext", JNull)].

(** A record whose name is a lone surrogate, as [json.loads] reads it from
    the escape [\ud800], and whose context is empty. *)
Definition tag5 : json :=
  JObj [(lit "tagName", JStr [55296]); (lit "tagContext", JObj [])].

(** A record without [tagContext] whose name is a lone surrogate. *)
Definition tag6 : json := JObj [(lit "tagName", JStr [55296])].

(** A record with a float among its context fields. *)
Definition tag7 : json :=
  JObj [(lit "tagName", JStr (lit "Tag7.PV"));
        (lit "tagContext",
         JObj [(lit "historianItemId", JInt 7);
               (lit "sourceItemId", JFloat (Float.Finite false 6755399441055744 (-52)));
               (lit "oldestTimeStamp", JNull)])].

End Servers.

(** * Properties *)

(** Induction that reaches below lists and dictionaries. *)
Lemma json_nested_ind (P : json -> Prop) :
  P JNull ->
  (forall b, P (JBool b)) ->
  (forall z, P (JInt z)) ->
  (forall x, P (JFloat x)) ->
  (forall s, P (JStr s)) ->
  (forall lst, Forall P lst -> P (JArr lst)) ->
  (forall dct, Forall (fun kv => P (snd kv)) dct -> P (JObj dct)) ->
  forall o, P o.
Proof.
  intros Hnull Hbool Hint Hfloat Hstr Harr Hobj.
  fix IH 1. intros [ | b | z | x | s | lst | dct ].
  - exact Hnull.
  - apply Hbool.
  - apply Hint.
  - apply Hfloat.
  - apply Hstr.
  - apply Harr. induction lst as [ | x lst IHl ]; constructor; [ apply IH | exact IHl ].
  - apply Hobj. induction dct as [ | [k v] dct IHd ]; constructor; [ apply IH | exact IHd ].
Qed.

(** ** The HTTP wrapper and the two clients *)

Section ClientFacts.

Variable transport : list Request -> Request -> result Response.

(** [_request_call] makes one call of [requests.request] and touches
    neither the files nor, unless it reports an error, the output. *)
Lemma request_call_cases (method url : pystr) (headers : list (pystr * pystr))
    (data : pystr) (w : World) :
  let rq := {| req_method := method; req_url := url;
               req_headers := headers; req_data := data |} in
  let w1 := {| files := files w; stdout := stdout w; sent := sent w ++ [rq] |} in
  let failed message :=
    {| files := files w;
       stdout := stdout w ++ [lit "Error during request: " ++ message];
       sent := sent w ++ [rq] |} in
  _request_call transport method url headers data w =
    match transport (sent w) rq with
    | Ok r =>
        match raise_for_status r with
        | Ok _ => (Ok (Some r), w1)
        | Raise (RequestException _ message) => (Ok None, failed message)
        | Raise e => (Raise e, w1)
        end
    | Raise (RequestException _ message) => (Ok None, failed message)
    | Raise e => (Raise e, w1)
    end.
Proof.
  intros rq w1 failed.
  unfold _request_call, try_except, bind, requests_request, lift, ret, print.
  fold rq. destruct (transport (sent w) rq) as [r | e]; simpl.
  - destruct (raise_for_status r) as [[] | e]; simpl; [ reflexivity | ].
    destruct e; reflexivity.
  - destruct e; reflexivity.
Qed.

Lemma raise_for_status_cases (r : Response) :
  (raise_for_status r = Ok tt /\ ~ (400 <= status_code r < 600)%Z)
  \/ (exists message, raise_for_status r = Raise (RequestException HTTPError message)
                      /\ (400 <= status_code r < 600)%Z).
Proof.
  unfold raise_for_status.
  destruct ((400 <=? status_code r) && (status_code r <? 500))%Z eqn:E4.
  - right. eexists. split; [ reflexivity | lia ].
  - destruct ((500 <=? status_code r) && (status_code r <? 600))%Z eqn:E5.
    + right. eexists. split; [ reflexivity | lia ].
    + left. split; [ reflexivity | lia ].
Qed.

(** A response that comes back from the wrapper passes [if response:]. *)
Lemma request_call_some_truthy method url headers data w r w1 :
  _request_call transport method url headers data w = (Ok (Some r), w1) ->
  response_truthy (Some r) = true.
Proof.
  rewrite request_call_cases. cbv zeta.
  destruct (transport _ _) as [r0 | e].
  - destruct (raise_for_status r0) as [[] | e] eqn:E.
    + intros [= <- _]. simpl. rewrite E. reflexivity.
    + destruct e; discriminate.
  - destruct e; discriminate.
Qed.


(** C5 (as amended): a [RequestException] out of [requests.request], or a
    status from 400 to 599, ends in a printed message and [None]; no such
    exception reaches the caller.  Any other status, the 2xx range
    included, gives the response back. *)
Theorem request_call_soft_fail (method url : pystr)
    (headers : list (pystr * pystr)) (data : pystr) (w : World) :
  let rq := {| req_method := method; req_url := url;
               req_headers := headers; req_data := data |} in
  (forall kind message,
      transport (sent w) rq = Raise (RequestException kind message) ->
      exists w', _request_call transport method url headers data w = (Ok None, w')
                 /\ stdout w' = stdout w ++ [lit "Error during request: " ++ message]
                 /\ files w' = files w)
  /\ (forall r,
         transport (sent w) rq = Ok r -> (400 <= status_code r < 600)%Z ->
         exists message w',
           _request_call transport method url headers data w = (Ok None, w')
           /\ stdout w' = stdout w ++ [lit "Error during request: " ++ message]
           /\ files w' = files w)
  /\ (forall r,
         transport (sent w) rq = Ok r -> ~ (400 <= status_code r < 600)%Z ->
         _request_call transport method url headers data w =
           (Ok (Some r),
            {| files := files w; stdout := stdout w; sent := sent w ++ [rq] |})).
Proof.
  intros rq. repeat split.
  - intros kind message E. rewrite request_call_cases. cbv zeta. fold rq. rewrite E.
    eexists. repeat split.
  - intros r E Hst. rewrite request_call_cases. cbv zeta. fold rq. rewrite E.
    destruct (raise_for_status_cases r) as [[_ Hn] | (message & Er & _)];
      [ contradiction | ].
    rewrite Er. exists message. eexists. repeat split.
  - intros r E Hst. rewrite request_call_cases. cbv zeta. fold rq. rewrite E.
    destruct (raise_for_status_cases r) as [[Er _] | (message & _ & Hin)];
      [ | contradiction ].
    rewrite Er. reflexivity.
Qed.

End ClientFacts.

Lemma request_call_soft_fail_witness :
  (exists w', _request_call Sample.unreachable (lit "POST") Sample.canary json_headers []
                Sample.empty_world = (Ok None, w')
              /\ stdout w' = [lit "Error during request: Connection refused"]
              /\ files w' = ∅)
  /\ (exists message w',
         _request_call (Sample.always (Sample.respond 503 "Service Unavailable" JNull))
           (lit "POST") Sample.canary json_headers [] Sample.empty_world = (Ok None, w')
         /\ stdout w' = [lit "Error during request: " ++ message]
         /\ files w' = ∅)
  /\ fst (_request_call (Sample.always (Sample.respond 200 "OK" JNull))
            (lit "POST") Sample.canary json_headers [] Sample.empty_world)
     = Ok (Some (Sample.respond 200 "OK" JNull)).
Proof.
  split; [ | split ].
  - pose proof (request_call_soft_fail Sample.unreachable (lit "POST") Sample.canary
                  json_headers [] Sample.empty_world) as H.
    cbv zeta in H. destruct H as (H & _ & _).
    apply (H ConnectionError (lit "Connection refused")). reflexivity.
  - pose proof (request_call_soft_fail
                  (Sample.always (Sample.respond 503 "Service Unavailable" JNull))
                  (lit "POST") Sample.canary json_headers [] Sample.empty_world) as H.
    cbv zeta in H. destruct H as (_ & H & _).
    apply (H (Sample.respond 503 "Service Unavailable" JNull)).
    + reflexivity.
    + simpl. lia.
  - pose proof (request_call_soft_fail
                  (Sample.always (Sample.respond 200 "OK" JNull))
                  (lit "POST") Sample.canary json_headers [] Sample.empty_world) as H.
    cbv zeta in H. destruct H as (_ & _ & H).
    rewrite (H (Sample.respond 200 "OK" JNull)).
    + reflexivity.
    + reflexivity.
    + simpl. lia.
Defined.

(** C5 as first stated fails: a status outside 200..299 that is not an error
    status, here 304, is handed back as a response, not turned into [None]. *)
Lemma request_call_returns_not_modified :
  ~ (200 <= status_code Sample.not_modified < 300)%Z
  /\ _request_call (Sample.always Sample.not_modified) (lit "POST") Sample.canary
       json_headers [] Sample.empty_world
     = (Ok (Some Sample.not_modified),
        {| files := ∅; stdout := [];
           sent := [{| req_method := lit "POST"; req_url := Sample.canary;
                       req_headers := json_headers; req_data := [] |}] |}).
Proof. split; [ simpl; lia | reflexivity ]. Qed.

Section OrchestratorFacts.

Variable transport : list Request -> Request -> result Response.
Variable codec : N -> bool.
Variable container_repr : json -> pystr.

(** C7 (as amended): when the wrapper gives [None], or the decoded body is
    an object without [tags], [get_tags] returns the empty list and raises
    nothing; when [tags] is there, its value is returned as it is.  A
    decoded body that is no object (a list, a string, a number, [null]) has
    no [get], and [get_tags] raises [AttributeError]. *)
Theorem get_tags_soft_fail (canary api_version api_token application timezone : pystr)
    (w w1 : World) :
  let call :=
    _request_call transport (lit "POST") (get_tags_url canary api_version)
      json_headers (get_tags_payload api_token application timezone) in
  let tags := get_tags transport canary api_version api_token application timezone in
  (call w = (Ok None, w1) -> tags w = (Ok (JArr []), w1))
  /\ (forall r dct,
         call w = (Ok (Some r), w1) -> response_json r = Ok (JObj dct) ->
         (dict_lookup (lit "tags") dct = None -> tags w = (Ok (JArr []), w1))
         /\ (forall v, dict_lookup (lit "tags") dct = Some v -> tags w = (Ok v, w1)))
  /\ (forall r body,
         call w = (Ok (Some r), w1) -> response_json r = Ok body ->
         (forall dct, body <> JObj dct) ->
         tags w = (Raise AttributeError, w1)).
Proof.
  intros call tags. split; [ | split ].
  - intros E. unfold tags, get_tags, bind. fold call. rewrite E. reflexivity.
  - intros r dct E Ej.
    assert (Ht := request_call_some_truthy _ _ _ _ _ _ _ _ E).
    assert (Hrun : tags w = (Ok (default (JArr []) (dict_lookup (lit "tags") dct)), w1)).
    { unfold tags, get_tags, bind. fold call. rewrite E, Ht.
      unfold lift. rewrite Ej. reflexivity. }
    split.
    + intros Hnone. rewrite Hrun, Hnone. reflexivity.
    + intros v Hsome. rewrite Hrun, Hsome. reflexivity.
  - intros r body E Ej Hbody.
    assert (Ht := request_call_some_truthy _ _ _ _ _ _ _ _ E).
    unfold tags, get_tags, bind. fold call. rewrite E, Ht.
    unfold lift. rewrite Ej.
    destruct body; try reflexivity. exfalso. eapply Hbody. reflexivity.
Qed.

(** Either client makes its one request and leaves the files alone. *)
Lemma get_tags_world canary api_version api_token application timezone w res w1 :
  get_tags transport canary api_version api_token application timezone w = (res, w1) ->
  files w1 = files w
  /\ sent w1 = sent w ++ [{| req_method := lit "POST";
                             req_url := get_tags_url canary api_version;
                             req_headers := json_headers;
                             req_data := get_tags_payload api_token application timezone |}].
Proof.
  unfold get_tags, bind. rewrite request_call_cases. cbv zeta.
  destruct (transport _ _) as [r | e].
  - destruct (raise_for_status r) as [[] | e] eqn:Er.
    + unfold response_truthy. rewrite Er. unfold lift.
      destruct (response_json r) as [body | e]; [ | intros [= <- <-]; split; reflexivity ].
      intros [= <- <-]; split; reflexivity.
    + destruct e; intros [= <- <-]; split; reflexivity.
  - destruct e; intros [= <- <-]; split; reflexivity.
Qed.

Lemma get_tag_context_world canary api_version api_token tags w res w1 :
  get_tag_context transport canary api_version api_token tags w = (res, w1) ->
  files w1 = files w.
Proof.
  unfold get_tag_context, bind. rewrite request_call_cases. cbv zeta.
  destruct (transport _ _) as [r | e].
  - destruct (raise_for_status r) as [[] | e] eqn:Er.
    + unfold response_truthy. rewrite Er. unfold lift.
      destruct (response_json r) as [body | e]; intros [= <- <-]; reflexivity.
    + destruct e; intros [= <- <-]; reflexivity.
  - destruct e; intros [= <- <-]; reflexivity.
Qed.

Lemma endpoints_differ (canary api_version : pystr) :
  get_tags_url canary api_version <> get_tag_context_url canary api_version.
Proof.
  unfold get_tags_url, get_tag_context_url. intros E.
  apply app_inv_head in E. apply app_inv_head in E. apply app_inv_head in E.
  discriminate E.
Qed.

(** C3: when discovery returns the empty list, [main] prints
    [No tags found.], writes no file, and the one request it has made
    went to [browseTags], not to [getTagContext]. *)
Theorem main_no_tags (canary api_version api_token application timezone
                        output_format output_file : pystr) (w w1 : World) :
  get_tags transport canary api_version api_token application timezone w
    = (Ok (JArr []), w1) ->
  exists w',
    main transport codec container_repr canary api_version api_token application timezone
      output_format output_file w = (Ok tt, w')
    /\ stdout w' = stdout w1 ++ [lit "No tags found."]
    /\ files w' = files w
    /\ exists rq, sent w' = sent w ++ [rq]
                  /\ req_url rq <> get_tag_context_url canary api_version.
Proof.
  intros E. destruct (get_tags_world _ _ _ _ _ _ _ _ E) as [Hf Hs].
  unfold main, bind. rewrite E. simpl.
  eexists. split; [ reflexivity | ]. simpl. repeat split; [ exact Hf | ].
  eexists. split; [ exact Hs | ]. simpl. apply endpoints_differ.
Qed.

(** C4: when discovery finds tags and the context fetch returns the empty
    list, [main] prints [No data returned in the tag context.] and writes
    no file. *)
Theorem main_no_context (canary api_version api_token application timezone
                           output_format output_file : pystr)
    (tags : json) (w w1 w2 : World) :
  get_tags transport canary api_version api_token application timezone w
    = (Ok tags, w1) ->
  truthy tags = true ->
  get_tag_context transport canary api_version api_token tags w1
    = (Ok (JArr []), w2) ->
  exists w',
    main transport codec container_repr canary api_version api_token application timezone
      output_format output_file w = (Ok tt, w')
    /\ stdout w' = stdout w2 ++ [lit "No data returned in the tag context."]
    /\ files w' = files w.
Proof.
  intros E Ht Ec.
  destruct (get_tags_world _ _ _ _ _ _ _ _ E) as [Hf _].
  assert (Hf2 := get_tag_context_world _ _ _ _ _ _ _ Ec).
  unfold main, bind. rewrite E, Ht, Ec. simpl.
  eexists. split; [ reflexivity | ]. simpl. split; [ reflexivity | congruence ].
Qed.

(** C10: with tags and context data at hand and an [output_format] that
    is none of [csv], [txt], [json], [main] writes no file and still
    prints [Data saved to <file> in <format> format.] *)
Theorem main_unknown_format (canary api_version api_token application timezone
                               output_format output_file : pystr)
    (tags data : json) (w w1 w2 : World) :
  get_tags transport canary api_version api_token application timezone w
    = (Ok tags, w1) ->
  truthy tags = true ->
  get_tag_context transport canary api_version api_token tags w1 = (Ok data, w2) ->
  truthy data = true ->
  output_format <> lit "csv" ->
  output_format <> lit "txt" ->
  output_format <> lit "json" ->
  exists w',
    main transport codec container_repr canary api_version api_token application timezone
      output_format output_file w = (Ok tt, w')
    /\ stdout w' = stdout w2 ++ [lit "Data saved to " ++ output_file ++ lit " in "
                                 ++ output_format ++ lit " format."]
    /\ files w' = files w.
Proof.
  intros E Ht Ec Hd Hcsv Htxt Hjson.
  destruct (get_tags_world _ _ _ _ _ _ _ _ E) as [Hf _].
  assert (Hf2 := get_tag_context_world _ _ _ _ _ _ _ Ec).
  unfold main, bind. rewrite E, Ht, Ec, Hd.
  rewrite !decide_False by assumption. simpl.
  eexists. split; [ reflexivity | ]. simpl. split; [ reflexivity | congruence ].
Qed.

End OrchestratorFacts.

Lemma get_tags_soft_fail_witness :
  get_tags Sample.unreachable Sample.canary Sample.api_version Sample.api_token
    Sample.application Sample.timezone Sample.empty_world
  = (Ok (JArr []),
     snd (_request_call Sample.unreachable (lit "POST")
            (get_tags_url Sample.canary Sample.api_version) json_headers
            (get_tags_payload Sample.api_token Sample.application Sample.timezone)
            Sample.empty_world))
  /\ get_tags (Sample.serve Sample.tag_names JNull) Sample.canary Sample.api_version
       Sample.api_token Sample.application Sample.timezone Sample.empty_world
     = (Ok Sample.tag_names,
        snd (_request_call (Sample.serve Sample.tag_names JNull) (lit "POST")
               (get_tags_url Sample.canary Sample.api_version) json_headers
               (get_tags_payload Sample.api_token Sample.application Sample.timezone)
               Sample.empty_world))
  /\ get_tags (Sample.always (Sample.respond 200 "OK" (JObj []))) Sample.canary
       Sample.api_version Sample.api_token Sample.application Sample.timezone
       Sample.empty_world
     = (Ok (JArr []),
        snd (_request_call (Sample.always (Sample.respond 200 "OK" (JObj [])))
               (lit "POST") (get_tags_url Sample.canary Sample.api_version) json_headers
               (get_tags_payload Sample.api_token Sample.application Sample.timezone)
               Sample.empty_world))
  /\ get_tags (Sample.always (Sample.respond 200 "OK" JNull)) Sample.canary
       Sample.api_version Sample.api_token Sample.application Sample.timezone
       Sample.empty_world
     = (Raise AttributeError,
        snd (_request_call (Sample.always (Sample.respond 200 "OK" JNull))
               (lit "POST") (get_tags_url Sample.canary Sample.api_version) json_headers
               (get_tags_payload Sample.api_token Sample.application Sample.timezone)
               Sample.empty_world)).
Proof.
  split; [ | split; [ | split ] ].
  - pose proof (get_tags_soft_fail Sample.unreachable Sample.canary Sample.api_version
                  Sample.api_token Sample.application Sample.timezone
                  Sample.empty_world) as H.
    cbv zeta in H. apply H. reflexivity.
  - pose proof (get_tags_soft_fail (Sample.serve Sample.tag_names JNull) Sample.canary
                  Sample.api_version Sample.api_token Sample.application Sample.timezone
                  Sample.empty_world) as H.
    cbv zeta in H.
    destruct (H (snd (_request_call (Sample.serve Sample.tag_names JNull) (lit "POST")
                        (get_tags_url Sample.canary Sample.api_version) json_headers
                        (get_tags_payload Sample.api_token Sample.application
                           Sample.timezone) Sample.empty_world))) as (_ & H2 & _).
    destruct (H2 (Sample.respond 200 "OK" (JObj [(lit "tags", Sample.tag_names)]))
                [(lit "tags", Sample.tag_names)] eq_refl eq_refl) as [_ Hsome].
    apply Hsome. reflexivity.
  - pose proof (get_tags_soft_fail (Sample.always (Sample.respond 200 "OK" (JObj [])))
                  Sample.canary Sample.api_version Sample.api_token Sample.application
                  Sample.timezone Sample.empty_world) as H.
    cbv zeta in H.
    destruct (H (snd (_request_call (Sample.always (Sample.respond 200 "OK" (JObj [])))
                        (lit "POST") (get_tags_url Sample.canary Sample.api_version)
                        json_headers
                        (get_tags_payload Sample.api_token Sample.application
                           Sample.timezone) Sample.empty_world))) as (_ & H2 & _).
    destruct (H2 (Sample.respond 200 "OK" (JObj [])) [] eq_refl eq_refl) as [Hnone _].
    apply Hnone. reflexivity.
  - pose proof (get_tags_soft_fail (Sample.always (Sample.respond 200 "OK" JNull))
                  Sample.canary Sample.api_version Sample.api_token Sample.application
                  Sample.timezone Sample.empty_world) as H.
    cbv zeta in H.
    destruct (H (snd (_request_call (Sample.always (Sample.respond 200 "OK" JNull))
                        (lit "POST") (get_tags_url Sample.canary Sample.api_version)
                        json_headers
                        (get_tags_payload Sample.api_token Sample.application
                           Sample.timezone) Sample.empty_world))) as (_ & _ & H3).
    apply (H3 (Sample.respond 200 "OK" JNull) JNull eq_refl eq_refl). discriminate.
Defined.

(** C7 as first stated fails: a body that is the JSON list [[]] decodes, and
    lacks the field [tags] as it has no fields at all; [get_tags] raises
    where the claim promises an empty sequence. *)
Lemma get_tags_raises_on_list_body :
  response_json (Sample.respond 200 "OK" (JArr [])) = Ok (JArr [])
  /\ fst (get_tags (Sample.always (Sample.respond 200 "OK" (JArr []))) Sample.canary
            Sample.api_version Sample.api_token Sample.application Sample.timezone
            Sample.empty_world)
     = Raise AttributeError.
Proof. split; reflexivity. Qed.

Lemma main_no_tags_witness :
  exists w',
    main (Sample.serve (JArr []) JNull) Sample.utf8 Sample.container_repr Sample.canary
      Sample.api_version Sample.api_token Sample.application Sample.timezone
      (lit "csv") Sample.output_file Sample.empty_world = (Ok tt, w')
    /\ stdout w' = [lit "No tags found."]
    /\ files w' = ∅
    /\ exists rq, sent w' = [rq]
                  /\ req_url rq <> get_tag_context_url Sample.canary Sample.api_version.
Proof.
  apply (main_no_tags (Sample.serve (JArr []) JNull) Sample.utf8 Sample.container_repr Sample.canary
           Sample.api_version Sample.api_token Sample.application Sample.timezone
           (lit "csv") Sample.output_file Sample.empty_world
           (snd (get_tags (Sample.serve (JArr []) JNull) Sample.canary Sample.api_version
                   Sample.api_token Sample.application Sample.timezone
                   Sample.empty_world))).
  reflexivity.
Defined.

Lemma main_no_context_witness :
  exists w',
    main (Sample.serve Sample.tag_names (JArr [])) Sample.utf8 Sample.container_repr Sample.canary
      Sample.api_version Sample.api_token Sample.application Sample.timezone
      (lit "csv") Sample.output_file Sample.empty_world = (Ok tt, w')
    /\ stdout w' = [lit "No data returned in the tag context."]
    /\ files w' = ∅.
Proof.
  pose (w1 := snd (get_tags (Sample.serve Sample.tag_names (JArr [])) Sample.canary
                     Sample.api_version Sample.api_token Sample.application
                     Sample.timezone Sample.empty_world)).
  apply (main_no_context (Sample.serve Sample.tag_names (JArr [])) Sample.utf8 Sample.container_repr
           Sample.canary Sample.api_version Sample.api_token Sample.application
           Sample.timezone (lit "csv") Sample.output_file Sample.tag_names
           Sample.empty_world w1
           (snd (get_tag_context (Sample.serve Sample.tag_names (JArr [])) Sample.canary
                   Sample.api_version Sample.api_token Sample.tag_names w1))).
  - reflexivity.
  - reflexivity.
  - reflexivity.
Defined.

Lemma main_unknown_format_witness :
  exists w',
    main (Sample.serve Sample.tag_names (JArr [Sample.tag1; Sample.tag2]))
      Sample.utf8 Sample.container_repr Sample.canary Sample.api_version Sample.api_token
      Sample.application Sample.timezone (lit "xml") Sample.output_file
      Sample.empty_world = (Ok tt, w')
    /\ stdout w' = [lit "Data saved to out.dat in xml format."]
    /\ files w' = ∅.
Proof.
  pose (srv := Sample.serve Sample.tag_names (JArr [Sample.tag1; Sample.tag2])).
  pose (w1 := snd (get_tags srv Sample.canary Sample.api_version Sample.api_token
                     Sample.application Sample.timezone Sample.empty_world)).
  apply (main_unknown_format srv Sample.utf8 Sample.container_repr Sample.canary Sample.api_version
           Sample.api_token Sample.application Sample.timezone (lit "xml")
           Sample.output_file Sample.tag_names (JArr [Sample.tag1; Sample.tag2])
           Sample.empty_world w1
           (snd (get_tag_context srv Sample.canary Sample.api_version Sample.api_token
                   Sample.tag_names w1))).
  - reflexivity.
  - reflexivity.
  - reflexivity.
  - reflexivity.
  - discriminate.
  - discriminate.
  - discriminate.
Defined.

(** ** Binary floating point

    Reading a decimal numeral rounds to the nearest float, and the digits
    [repr] prints are read back as the float they were printed for. *)

Section FloatFacts.

Import Float.
Local Open Scope Z_scope.
Local Open Scope Q_scope.

Section Rounding.

Lemma pow2_pos e : 0 < pow2 e.
Proof. apply Qpower_0_lt. reflexivity. Qed.

Lemma pow2_add a b : pow2 (a + b) == pow2 a * pow2 b.
Proof. apply Qpower_plus. discriminate. Qed.

Lemma pow2_succ a : pow2 (a + 1) == 2 * pow2 a.
Proof. rewrite pow2_add. change (pow2 1) with 2. ring. Qed.

Lemma pow2_pred a : pow2 a == 2 * pow2 (a - 1).
Proof. rewrite <- pow2_succ. replace (a - 1 + 1)%Z with a by ring. reflexivity. Qed.

Lemma pow2_le a b : (a <= b)%Z -> pow2 a <= pow2 b.
Proof. intros H. apply Qpower_le_compat_l; [ exact H | discriminate ]. Qed.

Lemma pow2_lt a b : (a < b)%Z -> pow2 a < pow2 b.
Proof. intros H. apply Qpower_lt_compat_l; [ exact H | reflexivity ]. Qed.

Lemma pow2_lt_inv a b : pow2 a < pow2 b -> (a < b)%Z.
Proof. intros H. apply (Qpower_lt_compat_l_inv (2 # 1)); [ exact H | reflexivity ]. Qed.

Lemma pow2_Z n : (0 <= n)%Z -> pow2 n == inject_Z (2 ^ n).
Proof. intros H. unfold pow2. rewrite Zpower_Qpower by exact H. reflexivity. Qed.

Lemma log2_bounds n : (0 < n)%Z ->
  pow2 (Z.log2 n) <= inject_Z n /\ inject_Z n < 2 * pow2 (Z.log2 n).
Proof.
  intros Hn. pose proof (Z.log2_spec n Hn) as [Hlo Hhi].
  pose proof (Z.log2_nonneg n) as Hnn.
  rewrite <- pow2_succ, !pow2_Z by lia.
  rewrite <- Zle_Qle, <- Zlt_Qlt. split; [ exact Hlo | ].
  replace (Z.log2 n + 1)%Z with (Z.succ (Z.log2 n)) by lia. exact Hhi.
Qed.

Lemma floor_log2_spec q : 0 < q ->
  pow2 (floor_log2 q) <= q /\ q < 2 * pow2 (floor_log2 q).
Proof.
  intros Hq. unfold floor_log2.
  set (n := Qnum q). set (d := Zpos (Qden q)).
  assert (Hn : (0 < n)%Z)
    by (destruct q as [[ | p | p ] dd]; cbv in Hq; subst n; simpl; lia || discriminate).
  assert (Hd : (0 < d)%Z) by (subst d; lia).
  pose proof (log2_bounds n Hn) as [Hn1 Hn2].
  pose proof (log2_bounds d Hd) as [Hd1 Hd2].
  assert (Eq : q * inject_Z d == inject_Z n).
  { subst n d. destruct q as [qn qd]. unfold Qeq, Qmult, inject_Z. simpl.
    rewrite Pos.mul_1_r. ring. }
  assert (Esplit : pow2 (Z.log2 n) == pow2 (Z.log2 n - Z.log2 d) * pow2 (Z.log2 d)).
  { rewrite <- pow2_add. replace (Z.log2 n - Z.log2 d + Z.log2 d)%Z with (Z.log2 n) by ring.
    reflexivity. }
  set (k := (Z.log2 n - Z.log2 d)%Z) in *.
  pose proof (pow2_pos k) as Hk. pose proof (pow2_pos (Z.log2 d)) as Hld.
  assert (Hdq : 0 < inject_Z d) by (change 0 with (inject_Z 0); rewrite <- Zlt_Qlt; exact Hd).
  destruct (Qle_bool (pow2 k) q) eqn:Hcmp.
  - apply Qle_bool_iff in Hcmp. split; [ exact Hcmp | ].
    apply (Qmult_lt_r _ _ (inject_Z d) Hdq). nra.
  - assert (Hlt : q < pow2 k).
    { apply Qnot_le_lt. intros H. apply Qle_bool_iff in H. congruence. }
    rewrite <- pow2_pred. split; [ | exact Hlt ].
    rewrite (pow2_pred k) in Esplit, Hk.
    apply Qlt_le_weak. apply (Qmult_lt_r _ _ (inject_Z d) Hdq). nra.
Qed.

Lemma floor_log2_unique q k : pow2 k <= q -> q < 2 * pow2 k -> floor_log2 q = k.
Proof.
  intros Hlo Hhi.
  assert (Hq : 0 < q) by (pose proof (pow2_pos k); lra).
  pose proof (floor_log2_spec q Hq) as [Hlo' Hhi'].
  rewrite <- pow2_succ in Hhi, Hhi'.
  assert (H1 : (floor_log2 q < k + 1)%Z) by (apply pow2_lt_inv; lra).
  assert (H2 : (k < floor_log2 q + 1)%Z) by (apply pow2_lt_inv; lra).
  lia.
Qed.

End Rounding.

Section RoundingCases.

Lemma round_half_even_near y n :
  inject_Z n - (1 # 2) < y -> y < inject_Z n + (1 # 2) -> round_half_even y = n.
Proof.
  intros Hlo Hhi. unfold round_half_even.
  pose proof (Qfloor_le y) as Hf1. pose proof (Qlt_floor y) as Hf2.
  rewrite inject_Z_plus in Hf2. change (inject_Z 1) with 1 in Hf2.
  assert (Hcase : Qfloor y = n \/ Qfloor y = (n - 1)%Z).
  { assert (H1 : (Qfloor y < n + 1)%Z).
    { rewrite Zlt_Qlt, inject_Z_plus. change (inject_Z 1) with 1. lra. }
    assert (H2 : (n < Qfloor y + 1 + 1)%Z).
    { rewrite Zlt_Qlt, !inject_Z_plus. change (inject_Z 1) with 1. lra. }
    lia. }
  destruct Hcase as [-> | Ef].
  - assert (Hc : (y - inject_Z n ?= 1 # 2) = Lt) by (apply (proj1 (Qlt_alt _ _)); lra).
    rewrite Hc. reflexivity.
  - rewrite Ef. unfold Z.sub. rewrite inject_Z_plus. change (inject_Z (- (1))) with (- (1)).
    assert (Hc : (y - (inject_Z n + - (1)) ?= 1 # 2) = Gt) by (apply (proj1 (Qgt_alt _ _)); lra).
    rewrite Hc. lia.
Qed.

Lemma round_half_even_between y a b :
  inject_Z a <= y -> y <= inject_Z b ->
  (a <= round_half_even y <= b)%Z.
Proof.
  intros Hlo Hhi. unfold round_half_even.
  pose proof (Qfloor_le y) as Hf1. pose proof (Qlt_floor y) as Hf2.
  rewrite inject_Z_plus in Hf2. change (inject_Z 1) with 1 in Hf2.
  assert (H1 : (a <= Qfloor y)%Z).
  { assert (H : (a < Qfloor y + 1)%Z)
      by (rewrite Zlt_Qlt, inject_Z_plus; change (inject_Z 1) with 1; lra).
    lia. }
  assert (H2 : (Qfloor y <= b)%Z) by (rewrite Zle_Qle; lra).
  assert (H3 : Qfloor y = b -> y == inject_Z b).
  { intros E. rewrite E in Hf1. lra. }
  destruct (Qcompare_spec (y - inject_Z (Qfloor y)) (1 # 2)) as [Hc | Hc | Hc].
  - destruct (Z.eq_dec (Qfloor y) b) as [E | E];
      [ rewrite E in Hc; specialize (H3 E); lra | ].
    destruct (Z.even (Qfloor y)); lia.
  - lia.
  - destruct (Z.eq_dec (Qfloor y) b) as [E | E];
      [ rewrite E in Hc; specialize (H3 E); lra | lia ].
Qed.

Lemma div_pow2 q e y : q == y * pow2 e -> q / pow2 e == y.
Proof.
  intros E. rewrite E. apply Qdiv_mult_l. pose proof (pow2_pos e). lra.
Qed.

(** A rational strictly inside the rounding interval of a float is
    rounded to that float. *)
Lemma round_interior negative m e q :
  canonical m e ->
  (inject_Z m - (1 # 2)) * pow2 e < q ->
  q < (inject_Z m + (1 # 2)) * pow2 e ->
  (m = (2 ^ 52)%Z -> e <> (-1074)%Z -> (inject_Z m - (1 # 4)) * pow2 e < q) ->
  round negative q = Finite negative m e.
Proof.
  intros (Hm & He & Hnorm) Hlo Hhi Hedge.
  pose proof (pow2_pos e) as Hpe.
  assert (Hmq : 1 <= inject_Z m) by (change 1 with (inject_Z 1); rewrite <- Zle_Qle; lia).
  assert (Hmq' : inject_Z m <= inject_Z (2 ^ 53 - 1)) by (rewrite <- Zle_Qle; lia).
  change (inject_Z (2 ^ 53 - 1)) with (9007199254740991 # 1) in Hmq'.
  assert (Hq : 0 < q) by nra.
  set (y := q / pow2 e).
  assert (Ey : q == y * pow2 e).
  { subst y. unfold Qdiv. rewrite <- Qmult_assoc, (Qmult_comm (/ _)), Qmult_inv_r by lra. ring. }
  assert (Hy1 : inject_Z m - (1 # 2) < y) by nra.
  assert (Hy2 : y < inject_Z m + (1 # 2)) by nra.
  assert (E52 : pow2 (e + 52) == 4503599627370496 * pow2 e)
    by (rewrite pow2_add; change (pow2 52) with (4503599627370496 # 1); ring).
  destruct (Qlt_le_dec q (pow2 (e + 52))) as [Hsmall | Hbig].
  - (* below the binade of normal numbers with exponent [e] *)
    destruct (Z.eq_dec e (-1074)%Z) as [Ee | Ee].
    + assert (Hfl : (floor_log2 q < e + 52)%Z).
      { apply pow2_lt_inv. pose proof (floor_log2_spec q Hq) as [H _]. lra. }
      unfold round. rewrite Z.max_r by lia. rewrite <- Ee. fold y.
      rewrite (round_half_even_near y m Hy1 Hy2).
      replace (m =? 2 ^ 53)%Z with false by (symmetry; apply Z.eqb_neq; lia).
      replace (971 <? e)%Z with false by (symmetry; apply Z.ltb_ge; lia).
      reflexivity.
    + assert (Em : m = (2 ^ 52)%Z).
      { destruct Hnorm as [Hn | Hn]; [ | contradiction ].
        assert (H : (m < 2 ^ 52 + 1)%Z).
        { rewrite Zlt_Qlt. change (inject_Z (2 ^ 52 + 1)) with (4503599627370497 # 1). nra. }
        lia. }
      specialize (Hedge Em Ee). subst m.
      change (inject_Z (2 ^ 52)) with (4503599627370496 # 1) in *.
      assert (E51 : pow2 e == 2 * pow2 (e - 1)) by apply pow2_pred.
      assert (E51' : pow2 (e - 1 + 52) == 4503599627370496 * pow2 (e - 1))
        by (rewrite pow2_add; change (pow2 52) with (4503599627370496 # 1); ring).
      pose proof (pow2_pos (e - 1)) as Hpe1.
      assert (Hfl : floor_log2 q = (e - 1 + 52)%Z) by (apply floor_log2_unique; nra).
      unfold round. rewrite Hfl.
      replace (e - 1 + 52 - 52)%Z with (e - 1)%Z by ring.
      rewrite Z.max_l by lia.
      rewrite (round_half_even_near (q / pow2 (e - 1)) (2 ^ 53)).
      * rewrite Z.eqb_refl. replace (e - 1 + 1)%Z with e by ring.
        replace (971 <? e)%Z with false by (symmetry; apply Z.ltb_ge; lia).
        reflexivity.
      * change (inject_Z (2 ^ 53)) with (9007199254740992 # 1).
        apply Qlt_shift_div_l; [ exact Hpe1 | nra ].
      * change (inject_Z (2 ^ 53)) with (9007199254740992 # 1).
        apply Qlt_shift_div_r; [ exact Hpe1 | nra ].
  - assert (Hfl : floor_log2 q = (e + 52)%Z) by (apply floor_log2_unique; nra).
    unfold round. rewrite Hfl. replace (e + 52 - 52)%Z with e by ring.
    rewrite Z.max_l by lia. fold y.
    rewrite (round_half_even_near y m Hy1 Hy2).
    replace (m =? 2 ^ 53)%Z with false by (symmetry; apply Z.eqb_neq; lia).
    replace (971 <? e)%Z with false by (symmetry; apply Z.ltb_ge; lia).
    reflexivity.
Qed.

End RoundingCases.

Section Conversion.

Lemma round_ok negative q : 0 < q -> float_ok (round negative q) = true.
Proof.
  intros Hq. unfold round.
  pose proof (floor_log2_spec q Hq) as [Hlo Hhi].
  set (fl := floor_log2 q) in *.
  set (e := Z.max (fl - 52) (-1074)).
  pose proof (pow2_pos e) as Hpe.
  set (y := q / pow2 e).
  assert (Ey : q == y * pow2 e).
  { subst y. unfold Qdiv. rewrite <- Qmult_assoc, (Qmult_comm (/ _)), Qmult_inv_r by lra. ring. }
  assert (Hy0 : 0 <= y) by (apply Qle_shift_div_l; [ exact Hpe | lra ]).
  assert (Hm : (2 ^ 52 <= round_half_even y <= 2 ^ 53
                \/ (e = -1074 /\ 0 <= round_half_even y <= 2 ^ 52))%Z).
  { destruct (Z.max_spec (fl - 52) (-1074)) as [[Hcmp Emax] | [Hcmp Emax]]; fold e in Emax.
    - right. split; [ exact Emax | ].
      apply round_half_even_between; [ exact Hy0 | ].
      change (inject_Z (2 ^ 52)) with (4503599627370496 # 1).
      assert (H : pow2 (fl + 1) <= pow2 (e + 52)) by (apply pow2_le; lia).
      rewrite pow2_succ, pow2_add in H. change (pow2 52) with (4503599627370496 # 1) in H.
      apply Qle_shift_div_r; [ exact Hpe | lra ].
    - left. apply round_half_even_between.
      + change (inject_Z (2 ^ 52)) with (4503599627370496 # 1).
        assert (H : pow2 fl == pow2 e * pow2 52)
          by (rewrite <- pow2_add; replace (e + 52)%Z with fl by lia; reflexivity).
        change (pow2 52) with (4503599627370496 # 1) in H.
        apply Qle_shift_div_l; [ exact Hpe | lra ].
      + change (inject_Z (2 ^ 53)) with (9007199254740992 # 1).
        assert (H : pow2 fl == pow2 e * pow2 52)
          by (rewrite <- pow2_add; replace (e + 52)%Z with fl by lia; reflexivity).
        change (pow2 52) with (4503599627370496 # 1) in H.
        apply Qle_shift_div_r; [ exact Hpe | lra ]. }
  assert (He : (-1074 <= e)%Z) by (subst e; lia).
  fold y. destruct (Z.eqb_spec (round_half_even y) (2 ^ 53)) as [E | E].
  - destruct (971 <? e + 1)%Z eqn:Hover; [ reflexivity | ].
    apply Z.ltb_ge in Hover. unfold float_ok.
    repeat (apply andb_true_iff; split); try (apply Z.leb_le; lia);
      try (apply Z.ltb_lt; reflexivity); reflexivity.
  - destruct (971 <? e)%Z eqn:Hover; [ reflexivity | ].
    apply Z.ltb_ge in Hover. unfold float_ok.
    repeat (apply andb_true_iff; split); try (apply Z.leb_le; lia);
      try (apply Z.ltb_lt; lia).
    apply orb_true_iff. destruct Hm as [Hm | [Ee Hm]];
      [ left; apply Z.leb_le; lia | right; apply Z.eqb_eq; exact Ee ].
Qed.

Lemma of_Q_ok negative q : float_ok (of_Q negative q) = true.
Proof.
  unfold of_Q. destruct (Qle_bool q 0) eqn:Hq; [ reflexivity | ].
  apply round_ok. rewrite Qred_correct. apply Qnot_le_lt. intros H.
  apply Qle_bool_iff in H. congruence.
Qed.

Lemma of_Q_equal negative q q' : q == q' -> of_Q negative q = of_Q negative q'.
Proof.
  intros E. unfold of_Q. rewrite (Qred_complete q q' E).
  replace (Qle_bool q' 0) with (Qle_bool q 0); [ reflexivity | ].
  apply eq_true_iff_eq. rewrite !Qle_bool_iff, E. reflexivity.
Qed.

Lemma of_Q_interior negative m e q :
  canonical m e ->
  (inject_Z m - (1 # 2)) * pow2 e < q ->
  q < (inject_Z m + (1 # 2)) * pow2 e ->
  (m = (2 ^ 52)%Z -> e <> (-1074)%Z -> (inject_Z m - (1 # 4)) * pow2 e < q) ->
  of_Q negative q = Finite negative m e.
Proof.
  intros Hc Hlo Hhi Hedge. unfold of_Q.
  pose proof (pow2_pos e) as Hpe.
  assert (Hmq : 1 <= inject_Z m)
    by (change 1 with (inject_Z 1); rewrite <- Zle_Qle; destruct Hc as (? & _); lia).
  assert (Hq : 0 < q) by nra.
  replace (Qle_bool q 0) with false
    by (symmetry; apply not_true_is_false; intros H; apply Qle_bool_iff in H; lra).
  apply round_interior; [ exact Hc | rewrite Qred_correct .. | ]; try assumption.
  intros E1 E2. rewrite Qred_correct. auto.
Qed.

Lemma of_Q_exact negative m e :
  canonical m e -> of_Q negative (to_Q m e) = Finite negative m e.
Proof.
  intros Hc. pose proof (pow2_pos e) as Hpe. unfold to_Q.
  apply of_Q_interior; [ exact Hc | nra | nra | intros; nra ].
Qed.

End Conversion.

Section ShortestDigits.

Lemma pow10_pos p : 0 < pow10 p.
Proof. apply Qpower_0_lt. reflexivity. Qed.

Lemma pow10_add a b : pow10 (a + b) == pow10 a * pow10 b.
Proof. apply Qpower_plus. discriminate. Qed.

Lemma decade_exists q lo n :
  pow10 lo <= q -> q < pow10 (lo + Z.of_nat n) ->
  exists k, (lo <= k < lo + Z.of_nat n)%Z /\ pow10 k <= q /\ q < pow10 (k + 1).
Proof.
  intros Hlo. induction n as [ | n IH ]; intros Hhi.
  - rewrite Z.add_0_r in Hhi. lra.
  - destruct (Qlt_le_dec q (pow10 (lo + Z.of_nat n))) as [Hlt | Hge].
    + destruct (IH Hlt) as (k & Hk & H1 & H2). exists k. repeat split; try assumption; lia.
    + exists (lo + Z.of_nat n)%Z. repeat split; try assumption; try lia.
      replace (lo + Z.of_nat n + 1)%Z with (lo + Z.of_nat (S n))%Z by lia. exact Hhi.
Qed.

Lemma float_eqb_refl x : float_eqb x x = true.
Proof.
  destruct x as [s m e | s | ]; simpl; [ | | reflexivity ].
  - rewrite eqb_reflx, !Z.eqb_refl. reflexivity.
  - apply eqb_reflx.
Qed.

Lemma float_eqb_eq x y : float_eqb x y = true -> x = y.
Proof.
  destruct x as [s m e | s | ], y as [s' m' e' | s' | ]; simpl; try discriminate.
  - intros H. apply andb_true_iff in H as [H He]. apply andb_true_iff in H as [Hs Hm].
    apply eqb_prop in Hs. apply Z.eqb_eq in Hm, He. congruence.
  - intros H. apply eqb_prop in H. congruence.
  - reflexivity.
Qed.

Variables m e : Z.
Hypothesis Hcanonical : canonical m e.

Lemma magnitude :
  exists k, (-324 <= k <= 308)%Z /\ pow10 k <= to_Q m e /\ to_Q m e < pow10 (k + 1).
Proof.
  destruct Hcanonical as (Hm & He & _).
  pose proof (pow2_pos e) as Hpe.
  assert (Hmq : 1 <= inject_Z m) by (change 1 with (inject_Z 1); rewrite <- Zle_Qle; lia).
  assert (Hmq' : inject_Z m <= inject_Z (2 ^ 53 - 1)) by (rewrite <- Zle_Qle; lia).
  change (inject_Z (2 ^ 53 - 1)) with (9007199254740991 # 1) in Hmq'.
  assert (H1 : pow10 (-324) <= pow2 (-1074)) by (apply Qle_bool_iff; vm_compute; reflexivity).
  assert (H2 : 9007199254740992 * pow2 971 <= pow10 309)
    by (apply Qle_bool_iff; vm_compute; reflexivity).
  assert (H3 : pow2 (-1074) <= pow2 e) by (apply pow2_le; lia).
  assert (H4 : pow2 e <= pow2 971) by (apply pow2_le; lia).
  destruct (decade_exists (to_Q m e) (-324) 633) as (k & Hk & Hlo & Hhi).
  - unfold to_Q. nra.
  - change (-324 + Z.of_nat 633)%Z with 309%Z. unfold to_Q. nra.
  - exists k. repeat split; try assumption; lia.
Qed.

Lemma reads_as_near c p :
  (0 < c)%Z ->
  pow10 (p + 16) <= to_Q m e ->
  - (pow10 p / 2) <= inject_Z c * pow10 p - to_Q m e ->
  inject_Z c * pow10 p - to_Q m e <= pow10 p / 2 ->
  reads_as m e c p = true.
Proof.
  intros Hc Hmag Hlo Hhi. unfold reads_as.
  replace (0 <? c)%Z with true by (symmetry; apply Z.ltb_lt; exact Hc).
  rewrite andb_true_l.
  destruct Hcanonical as (Hm & He & Hnorm).
  pose proof (pow2_pos e) as Hpe. pose proof (pow10_pos p) as Hpp.
  assert (Hmq' : inject_Z m <= inject_Z (2 ^ 53 - 1)) by (rewrite <- Zle_Qle; lia).
  change (inject_Z (2 ^ 53 - 1)) with (9007199254740991 # 1) in Hmq'.
  rewrite pow10_add in Hmag. change (pow10 16) with (10000000000000000 # 1) in Hmag.
  unfold to_Q in *.
  assert (Hx : inject_Z m * pow2 e <= 9007199254740991 * pow2 e) by nra.
  set (x := inject_Z m * pow2 e) in *. set (y := inject_Z c * pow10 p) in *.
  assert (Hhalf : pow10 p / 2 == pow10 p * (1 # 2)) by (unfold Qdiv; reflexivity).
  rewrite Hhalf in Hlo, Hhi.
  rewrite (of_Q_interior false m e); [ apply float_eqb_refl | exact Hcanonical | .. ].
  - setoid_replace ((inject_Z m - (1 # 2)) * pow2 e) with (x - (1 # 2) * pow2 e) using relation Qeq
      by (subst x; ring). lra.
  - setoid_replace ((inject_Z m + (1 # 2)) * pow2 e) with (x + (1 # 2) * pow2 e) using relation Qeq
      by (subst x; ring). lra.
  - intros Em _.
    setoid_replace ((inject_Z m - (1 # 4)) * pow2 e) with (x - (1 # 4) * pow2 e) using relation Qeq
      by (subst x; ring).
    assert (Ex : x == 4503599627370496 * pow2 e)
      by (subst x; rewrite Em; change (inject_Z (2 ^ 52)) with (4503599627370496 # 1);
          reflexivity).
    lra.
Qed.

Lemma nearest_decade k :
  pow10 k <= to_Q m e -> nearest m e (k - 16) <> None.
Proof.
  intros Hk. set (p := (k - 16)%Z).
  pose proof (pow10_pos p) as Hpp.
  assert (Hmag : pow10 (p + 16) <= to_Q m e)
    by (subst p; replace (k - 16 + 16)%Z with k by ring; exact Hk).
  set (x := to_Q m e) in *. set (lo := Qfloor (x / pow10 p)).
  assert (Ey : x == (x / pow10 p) * pow10 p).
  { unfold Qdiv. rewrite <- Qmult_assoc, (Qmult_comm (/ _)), Qmult_inv_r by lra. ring. }
  pose proof (Qfloor_le (x / pow10 p)) as Hf1. pose proof (Qlt_floor (x / pow10 p)) as Hf2.
  fold lo in Hf1, Hf2. rewrite inject_Z_plus in Hf2. change (inject_Z 1) with 1 in Hf2.
  assert (Hlo : (10 ^ 16 <= lo)%Z).
  { rewrite <- (Qfloor_Z (10 ^ 16)). apply Qfloor_resp_le.
    change (inject_Z (10 ^ 16)) with (10000000000000000 # 1).
    rewrite pow10_add in Hmag. change (pow10 16) with (10000000000000000 # 1) in Hmag.
    apply Qle_shift_div_l; [ exact Hpp | lra ]. }
  assert (Hbelow : inject_Z lo * pow10 p <= x).
  { apply Qle_trans with (x / pow10 p * pow10 p);
      [ apply Qmult_le_compat_r; [ exact Hf1 | lra ] | rewrite <- Ey; apply Qle_refl ]. }
  assert (Habove : x < (inject_Z lo + 1) * pow10 p).
  { apply Qle_lt_trans with (x / pow10 p * pow10 p);
      [ rewrite <- Ey; apply Qle_refl | apply Qmult_lt_compat_r; [ exact Hpp | exact Hf2 ] ]. }
  assert (Hhalf : pow10 p / 2 == pow10 p * (1 # 2)) by (unfold Qdiv; reflexivity).
  assert (Hside : reads_as m e lo p = true \/ reads_as m e (lo + 1) p = true).
  { destruct (Qlt_le_dec (pow10 p / 2) (x - inject_Z lo * pow10 p)) as [Hfar | Hnear].
    - right. apply reads_as_near; [ lia | exact Hmag | .. ]; fold x;
        rewrite inject_Z_plus; change (inject_Z 1) with 1; lra.
    - left. apply reads_as_near; [ lia | exact Hmag | .. ]; fold x; lra. }
  unfold nearest. fold x. fold lo.
  destruct (reads_as m e lo p), (reads_as m e (lo + 1) p).
  - destruct (x - inject_Z lo * pow10 p ?= inject_Z (lo + 1) * pow10 p - x); discriminate.
  - discriminate.
  - discriminate.
  - destruct Hside; discriminate.
Qed.

Lemma nearest_reads_as p c : nearest m e p = Some c -> reads_as m e c p = true.
Proof.
  unfold nearest.
  set (lo := Qfloor (to_Q m e / pow10 p)).
  destruct (reads_as m e lo p) eqn:Hlo, (reads_as m e (lo + 1) p) eqn:Hhi;
    try discriminate.
  - destruct (_ ?= _); [ destruct (Z.even lo) | | ]; intros [= <-]; assumption.
  - intros [= <-]; assumption.
  - intros [= <-]; assumption.
Qed.

Lemma shortest_finds fuel p p0 :
  nearest m e p0 <> None -> (p0 <= p)%Z -> (p - Z.of_nat fuel < p0)%Z ->
  exists c p', shortest m e fuel p = (c, p') /\ nearest m e p' = Some c.
Proof.
  intros Hp0. revert p. induction fuel as [ | fuel IH ]; intros p H1 H2; [ lia | ].
  simpl. destruct (nearest m e p) as [c | ] eqn:Hn; [ eauto | ].
  apply IH; [ | lia ].
  assert (p0 <> p) by (intros ->; contradiction). lia.
Qed.

(** The numeral [repr] prints has digits, and is read back as the float. *)
Lemma digits_read_back negative :
  exists c p,
    digits m e = (c, p)
    /\ (0 < c)%Z /\ of_Q negative (inject_Z c * pow10 p) = Finite negative m e.
Proof.
  destruct magnitude as (k & Hk & Hlo & _).
  destruct (shortest_finds 700 309 (k - 16) (nearest_decade k Hlo))
    as (c & p & Es & Hn); [ lia | lia | ].
  exists c, p. split; [ exact Es | ].
  apply nearest_reads_as in Hn. unfold reads_as in Hn.
  apply andb_true_iff in Hn as [Hc H]. apply Z.ltb_lt in Hc. split; [ exact Hc | ].
  apply float_eqb_eq in H. revert H. unfold of_Q.
  destruct (Qle_bool _ 0); [ intros [= <- <-]; reflexivity | ].
  unfold round. repeat (destruct (_ =? _)%Z || destruct (_ <? _)%Z);
    try discriminate; intros [= <- <-]; reflexivity.
Qed.

End ShortestDigits.

End FloatFacts.

(** ** The JSON round trip *)

Section Escapes.

Lemma hexval_hexdigit d : d < 16 -> Decoder.hexval (Encoder.hexdigit d) = Some d.
Proof.
  intros Hd.
  assert (H : d = 0 \/ d = 1 \/ d = 2 \/ d = 3 \/ d = 4 \/ d = 5 \/ d = 6 \/ d = 7
              \/ d = 8 \/ d = 9 \/ d = 10 \/ d = 11 \/ d = 12 \/ d = 13 \/ d = 14
              \/ d = 15) by lia.
  repeat (destruct H as [-> | H]; [ reflexivity | ]). subst d. reflexivity.
Qed.

Lemma decode_hex4 n rest :
  n < 65536 -> Decoder.decode_uXXXX (Encoder.hex4 n ++ rest) = Some (n, rest).
Proof.
  intros Hn. unfold Encoder.hex4, Decoder.decode_uXXXX. cbn [app].
  rewrite !hexval_hexdigit by (apply N.mod_lt; discriminate).
  f_equal. f_equal. zify. Z.to_euclidean_division_equations. lia.
Qed.

(** Bits that do not overlap add up. *)
Lemma lor_high_low a b n : b < 2 ^ n -> N.lor (a * 2 ^ n) b = a * 2 ^ n + b.
Proof.
  intros Hb.
  assert (Hdisj : N.land (a * 2 ^ n) b = 0).
  { apply N.bits_inj_0. intros i. rewrite N.land_spec.
    destruct (N.lt_ge_cases i n) as [Hlt | Hge].
    - rewrite N.mul_pow2_bits_low by exact Hlt. reflexivity.
    - rewrite <- (N.mod_small b (2 ^ n)) by exact Hb.
      rewrite N.mod_pow2_bits_high by exact Hge. apply andb_false_r. }
  rewrite N.add_nocarry_lxor by exact Hdisj. symmetry. apply N.lxor_lor, Hdisj.
Qed.

(** The two halves of the escape of a character beyond [0xffff]. *)
Lemma surrogate_pair c :
  65536 <= c < 1114112 ->
  let n := c - 65536 in
  let s1 := N.lor 55296 (N.land (N.shiftr n 10) 1023) in
  let s2 := N.lor 56320 (N.land n 1023) in
  s1 = 55296 + n / 1024 /\ s2 = 56320 + n mod 1024
  /\ 65536 + N.lor (N.shiftl (s1 - 55296) 10) (s2 - 56320) = c.
Proof.
  intros Hc n s1 s2.
  assert (Hn : n < 1048576) by (unfold n; lia).
  assert (Hdiv : n / 1024 < 1024) by (apply N.Div0.div_lt_upper_bound; lia).
  assert (Hmod : n mod 1024 < 1024) by (apply N.mod_lt; discriminate).
  assert (H1 : s1 = 55296 + n / 1024).
  { unfold s1. change 1023 with (N.ones 10). rewrite N.land_ones, N.shiftr_div_pow2.
    change (2 ^ 10) with 1024. rewrite N.mod_small by exact Hdiv.
    apply (lor_high_low 54 (n / 1024) 10). exact Hdiv. }
  assert (H2 : s2 = 56320 + n mod 1024).
  { unfold s2. change 1023 with (N.ones 10). rewrite N.land_ones.
    change (2 ^ 10) with 1024. apply (lor_high_low 55 (n mod 1024) 10). exact Hmod. }
  split; [ exact H1 | ]. split; [ exact H2 | ].
  rewrite H1, H2.
  rewrite (N.add_comm 55296), (N.add_comm 56320), !N.add_sub.
  rewrite N.shiftl_mul_pow2, (lor_high_low (n / 1024) (n mod 1024) 10) by exact Hmod.
  change (2 ^ 10) with 1024.
  assert (Hsplit : n = 1024 * (n / 1024) + n mod 1024) by (apply N.div_mod; discriminate).
  assert (Hback : 65536 + n = c) by (unfold n; lia).
  clear H1 H2 s1 s2 Hn Hdiv Hmod. revert Hsplit Hback.
  generalize (n / 1024) (n mod 1024). clearbody n. intros q r Hsplit Hback. lia.
Qed.

End Escapes.

Section Strings.

Lemma strip_prefix_app prefix rest :
  Decoder.strip_prefix prefix (prefix ++ rest) = Some rest.
Proof.
  induction prefix as [ | p prefix IH ]; [ reflexivity | ].
  simpl. rewrite N.eqb_refl. exact IH.
Qed.

Local Opaque Encoder.hex4.
Local Arguments Decoder.strip_prefix : simpl never.

(** The four shapes of the text that stands for one character. *)
Lemma encode_char_cases c :
  c < 1114112 ->
  (Encoder.encode_char c = [c] /\ c <> QUOTE /\ c <> BACKSLASH /\ 32 <= c)
  \/ (exists x, Encoder.encode_char c = [BACKSLASH; x]
                /\ x <> 117 /\ Decoder.unescape x = Some c)
  \/ (Encoder.encode_char c = Encoder.u_escape c /\ c < 65536)
  \/ (exists q r,
         Encoder.encode_char c
         = Encoder.u_escape (55296 + q) ++ Encoder.u_escape (56320 + r)
         /\ q < 1024 /\ r < 1024
         /\ 65536 + N.lor (N.shiftl (55296 + q - 55296) 10) (56320 + r - 56320) = c).
Proof.
  intros Hc. unfold Encoder.encode_char, Encoder.needs_escape.
  destruct (N.eqb_spec c BACKSLASH) as [-> | Hbs].
  { right. left. exists BACKSLASH. repeat split. discriminate. }
  destruct (N.eqb_spec c QUOTE) as [-> | Hq].
  { right. left. exists QUOTE. repeat split. discriminate. }
  destruct (N.ltb_spec c 32) as [Hlow | Hlow];
    [ | destruct (N.ltb_spec 126 c) as [Hhigh | Hhigh] ]; cbn [orb].
  3: { left. repeat split; assumption. }
  all: unfold Encoder.escape_char.
  all: destruct (N.eqb_spec c BACKSLASH) as [? | _]; [ contradiction | ].
  all: destruct (N.eqb_spec c QUOTE) as [? | _]; [ contradiction | ].
  all: destruct (N.eqb_spec c 8) as [-> | ?];
    [ right; left; exists 98; repeat split; discriminate | ].
  all: destruct (N.eqb_spec c 12) as [-> | ?];
    [ right; left; exists 102; repeat split; discriminate | ].
  all: destruct (N.eqb_spec c 10) as [-> | ?];
    [ right; left; exists 110; repeat split; discriminate | ].
  all: destruct (N.eqb_spec c 13) as [-> | ?];
    [ right; left; exists 114; repeat split; discriminate | ].
  all: destruct (N.eqb_spec c 9) as [-> | ?];
    [ right; left; exists 116; repeat split; discriminate | ].
  all: destruct (N.ltb_spec c 65536) as [Hbmp | Hbmp];
    [ right; right; left; split; [ reflexivity | assumption ] | ].
  - lia.
  - right. right. right.
    destruct (surrogate_pair c (conj Hbmp Hc)) as (H1 & H2 & Hback).
    cbv zeta in H1, H2, Hback. cbv zeta. rewrite H1, H2 in Hback. rewrite H1, H2.
    exists ((c - 65536) / 1024), ((c - 65536) mod 1024).
    split; [ reflexivity | ].
    split; [ apply N.Div0.div_lt_upper_bound; lia | ].
    split; [ apply N.mod_lt; discriminate | exact Hback ].
Qed.

Lemma high_surrogate_range q :
  q < 1024 ->
  Decoder.is_high_surrogate (55296 + q) = true
  /\ Decoder.is_low_surrogate (55296 + q) = false.
Proof.
  intros Hq. unfold Decoder.is_high_surrogate, Decoder.is_low_surrogate. split.
  - apply andb_true_iff. split; apply N.leb_le; lia.
  - apply andb_false_iff. left. apply N.leb_gt. lia.
Qed.

Lemma low_surrogate_range r :
  r < 1024 -> Decoder.is_low_surrogate (56320 + r) = true.
Proof.
  intros Hr. unfold Decoder.is_low_surrogate.
  apply andb_true_iff. split; apply N.leb_le; lia.
Qed.

Lemma scanstring_u_escape fuel n rest :
  n < 65536 ->
  (Decoder.is_high_surrogate n = true -> joins_low rest = false) ->
  Decoder.scanstring (S fuel) (Encoder.u_escape n ++ rest)
  = Decoder.prepend n (Decoder.scanstring fuel rest).
Proof.
  intros Hn Hjoin. unfold Encoder.u_escape. simpl.
  rewrite decode_hex4 by exact Hn.
  destruct (Decoder.is_high_surrogate n); [ | reflexivity ].
  specialize (Hjoin eq_refl). unfold joins_low in Hjoin.
  destruct (Decoder.strip_prefix [BACKSLASH; 117] rest) as [rest3 | ]; [ | reflexivity ].
  destruct (Decoder.decode_uXXXX rest3) as [[uni2 rest4] | ]; [ | discriminate ].
  rewrite Hjoin. reflexivity.
Qed.

(** [scanstring] reads the text of one character back as that character,
    provided a high surrogate is not followed by the escape of a low one. *)
Lemma scanstring_char fuel c rest :
  c < 1114112 ->
  (Decoder.is_high_surrogate c = true -> joins_low rest = false) ->
  Decoder.scanstring (S fuel) (Encoder.encode_char c ++ rest)
  = Decoder.prepend c (Decoder.scanstring fuel rest).
Proof.
  intros Hc Hjoin.
  destruct (encode_char_cases c Hc)
    as [(-> & Hq & Hbs & Hlow) | [(x & -> & Hx & Hun) | [(-> & Hbmp) | Hpair]]].
  - simpl.
    destruct (N.eqb_spec c QUOTE); [ contradiction | ].
    destruct (N.eqb_spec c BACKSLASH); [ contradiction | ].
    destruct (N.ltb_spec c 32); [ lia | reflexivity ].
  - simpl. destruct (N.eqb_spec x 117); [ contradiction | ]. rewrite Hun. reflexivity.
  - apply scanstring_u_escape; assumption.
  - destruct Hpair as (q & r & -> & Hq & Hr & Hback).
    destruct (high_surrogate_range q Hq) as [Hhigh _].
    unfold Encoder.u_escape. simpl. rewrite <- app_assoc.
    rewrite decode_hex4, Hhigh by lia.
    change ((BACKSLASH :: 117 :: Encoder.hex4 (56320 + r)) ++ rest)
      with ([BACKSLASH; 117] ++ Encoder.hex4 (56320 + r) ++ rest).
    rewrite strip_prefix_app, decode_hex4, low_surrogate_range, Hback by lia.
    reflexivity.
Qed.

(** The text of a character that is not a low surrogate does not start
    like the escape of one. *)
Lemma joins_low_char c rest :
  c < 1114112 -> Decoder.is_low_surrogate c = false ->
  joins_low (Encoder.encode_char c ++ rest) = false.
Proof.
  intros Hc Hlow. unfold joins_low.
  destruct (encode_char_cases c Hc)
    as [(-> & Hq & Hbs & _) | [(x & -> & Hx & _) | [(-> & Hbmp) | Hpair]]].
  - unfold Decoder.strip_prefix. cbn [app].
    destruct (N.eqb_spec BACKSLASH c); [ congruence | reflexivity ].
  - unfold Decoder.strip_prefix. cbn [app]. rewrite N.eqb_refl.
    destruct (N.eqb_spec 117 x); [ congruence | reflexivity ].
  - unfold Encoder.u_escape.
    change ((BACKSLASH :: 117 :: Encoder.hex4 c) ++ rest)
      with ([BACKSLASH; 117] ++ Encoder.hex4 c ++ rest).
    rewrite strip_prefix_app, decode_hex4 by exact Hbmp. exact Hlow.
  - destruct Hpair as (q & r & -> & Hq & _ & _).
    unfold Encoder.u_escape. rewrite <- app_assoc.
    change ((BACKSLASH :: 117 :: Encoder.hex4 (55296 + q)) ++ ?t)
      with ([BACKSLASH; 117] ++ Encoder.hex4 (55296 + q) ++ t).
    rewrite strip_prefix_app, decode_hex4 by lia.
    apply high_surrogate_range, Hq.
Qed.

Lemma joins_low_encoded s rest :
  str_ok s = true ->
  match s with c :: _ => Decoder.is_low_surrogate c = false | [] => True end ->
  joins_low (flat_map Encoder.encode_char s ++ QUOTE :: rest) = false.
Proof.
  destruct s as [ | c s ]; intros Hok Hhead; [ reflexivity | ].
  cbn [flat_map]. rewrite <- app_assoc. apply joins_low_char; [ | exact Hhead ].
  simpl in Hok. apply andb_true_iff in Hok as [Hok _].
  apply andb_true_iff in Hok as [Hc _]. apply N.ltb_lt, Hc.
Qed.

(** [scanstring] reads an encoded string back. *)
Lemma scanstring_encoded s rest fuel :
  str_ok s = true ->
  (length s < fuel)%nat ->
  Decoder.scanstring fuel (flat_map Encoder.encode_char s ++ QUOTE :: rest)
  = Some (s, rest).
Proof.
  revert fuel. induction s as [ | c s IH ]; intros fuel Hok Hfuel.
  - destruct fuel as [ | fuel ]; [ simpl in Hfuel; lia | reflexivity ].
  - destruct fuel as [ | fuel ]; [ simpl in Hfuel; lia | ].
    cbn [str_ok] in Hok. apply andb_true_iff in Hok as [Hok Hrest].
    apply andb_true_iff in Hok as [Hc Hpair]. apply N.ltb_lt in Hc.
    cbn [flat_map]. rewrite <- app_assoc.
    rewrite scanstring_char.
    + rewrite IH by (simpl in Hfuel; try assumption; lia). reflexivity.
    + exact Hc.
    + intros Hhigh. rewrite Hhigh in Hpair. apply joins_low_encoded; [ exact Hrest | ].
      destruct s as [ | c' s ]; [ exact I | ].
      destruct (Decoder.is_low_surrogate c'); [ discriminate | reflexivity ].
Qed.

Lemma encode_char_length c : (1 <= length (Encoder.encode_char c))%nat.
Proof.
  unfold Encoder.encode_char, Encoder.escape_char, Encoder.u_escape.
  repeat match goal with |- context [if ?b then _ else _] => destruct b end;
    cbn [length app]; lia.
Qed.

Lemma encoded_length s : (length s <= length (flat_map Encoder.encode_char s))%nat.
Proof.
  induction s as [ | c s IH ]; [ reflexivity | ].
  cbn [flat_map]. rewrite length_app. pose proof (encode_char_length c). simpl. lia.
Qed.

End Strings.

Section Numbers.

Local Open Scope Z_scope.

Lemma is_digit_range c : Decoder.is_digit c = true <-> (48 <= c <= 57)%N.
Proof.
  unfold Decoder.is_digit. rewrite andb_true_iff, !N.leb_le. reflexivity.
Qed.

Lemma uint_text_digits d : all_digits (Encoder.uint_text d) = true.
Proof. induction d; simpl; auto. Qed.

Lemma all_digits_app a b : all_digits (a ++ b) = all_digits a && all_digits b.
Proof. apply forallb_app. Qed.

Lemma all_digits_zeros n : all_digits (repeat 48%N n) = true.
Proof. induction n as [ | n IH ]; [ reflexivity | exact IH ]. Qed.

Lemma all_digits_firstn n ds : all_digits ds = true -> all_digits (firstn n ds) = true.
Proof.
  revert n. induction ds as [ | c ds IH ]; intros [ | n ]; simpl; auto.
  intros H. apply andb_true_iff in H as [Hc Hds]. rewrite Hc. apply IH, Hds.
Qed.

Lemma all_digits_skipn n ds : all_digits ds = true -> all_digits (skipn n ds) = true.
Proof.
  revert n. induction ds as [ | c ds IH ]; intros [ | n ]; simpl; auto.
  intros H. apply andb_true_iff in H as [Hc Hds]. apply IH, Hds.
Qed.

Lemma scan_digits_run ds rest :
  all_digits ds = true -> no_digit rest ->
  Decoder.scan_digits (ds ++ rest) = (ds, rest).
Proof.
  intros Hds Hrest. induction ds as [ | c ds IH ].
  - destruct rest as [ | c rest ]; [ reflexivity | ].
    cbn [app Decoder.scan_digits]. simpl in Hrest. rewrite Hrest. reflexivity.
  - simpl in Hds. apply andb_true_iff in Hds as [Hc Hds].
    cbn [app Decoder.scan_digits]. rewrite Hc, (IH Hds). reflexivity.
Qed.

(** *** The value of a run of digits *)

Lemma digits_value_fold ds : Decoder.digits_value ds = fold_left digit_step ds 0.
Proof. reflexivity. Qed.

Lemma fold_digits_app acc a b :
  fold_left digit_step (a ++ b) acc
  = fold_left digit_step b (fold_left digit_step a acc).
Proof. apply fold_left_app. Qed.

Lemma fold_digits_shift acc ds :
  fold_left digit_step ds acc
  = acc * 10 ^ Z.of_nat (length ds) + fold_left digit_step ds 0.
Proof.
  revert acc. induction ds as [ | c ds IH ]; intros acc.
  - simpl. lia.
  - cbn [fold_left length]. rewrite (IH (digit_step acc c)), (IH (digit_step 0 c)).
    rewrite Nat2Z.inj_succ, Z.pow_succ_r by lia. unfold digit_step. ring.
Qed.

Lemma digits_value_app a b :
  Decoder.digits_value (a ++ b)
  = Decoder.digits_value a * 10 ^ Z.of_nat (length b) + Decoder.digits_value b.
Proof.
  rewrite !digits_value_fold, fold_digits_app. apply fold_digits_shift.
Qed.

Lemma digits_value_zeros n : Decoder.digits_value (repeat 48%N n) = 0.
Proof.
  rewrite digits_value_fold. induction n as [ | n IH ]; [ reflexivity | exact IH ].
Qed.

Lemma of_uint_acc_fold d acc :
  Z.pos (Pos.of_uint_acc d acc) = fold_left digit_step (Encoder.uint_text d) (Z.pos acc).
Proof.
  revert acc. induction d; intros acc; cbn [Pos.of_uint_acc Encoder.uint_text fold_left];
    [ reflexivity | rewrite IHd; f_equal; unfold digit_step; lia .. ].
Qed.

Lemma of_uint_fold d :
  Z.of_N (Pos.of_uint d) = fold_left digit_step (Encoder.uint_text d) 0.
Proof.
  induction d; cbn [Pos.of_uint Encoder.uint_text fold_left];
    [ reflexivity | exact IHd | cbn [Z.of_N]; rewrite of_uint_acc_fold; reflexivity .. ].
Qed.

Lemma digits_value_to_uint p :
  Decoder.digits_value (Encoder.uint_text (Pos.to_uint p)) = Z.pos p.
Proof.
  rewrite digits_value_fold, <- of_uint_fold, DecimalPos.Unsigned.of_to. reflexivity.
Qed.

(** *** The numeral of a positive integer *)

Lemma nzhead_head d :
  match Decimal.nzhead d with Decimal.D0 _ => False | _ => True end.
Proof. induction d; simpl; auto. Qed.

Lemma unorm_normal d : normal (Decimal.unorm d).
Proof.
  unfold Decimal.unorm. pose proof (nzhead_head d) as H.
  destruct (Decimal.nzhead d); simpl; try exact I; try reflexivity; contradiction.
Qed.

Lemma to_uint_normal p : normal (Pos.to_uint p).
Proof.
  change (Pos.to_uint p) with (N.to_uint (N.pos p)).
  rewrite <- (DecimalN.Unsigned.of_to (N.pos p)) at 1.
  rewrite DecimalN.Unsigned.to_of. apply unorm_normal.
Qed.

(** The digits of a positive integer: a first one that is not [0], and
    more digits. *)
Lemma positive_text p :
  exists c tail,
    Encoder.uint_text (Pos.to_uint p) = c :: tail
    /\ (49 <= c <= 57)%N /\ all_digits tail = true.
Proof.
  pose proof (to_uint_normal p) as Hn. pose proof (DecimalPos.Unsigned.to_uint_nonzero p) as Hz.
  pose proof (uint_text_digits (Pos.to_uint p)) as Hd.
  destruct (Pos.to_uint p) as [ | d | d | d | d | d | d | d | d | d | d ];
    [ contradiction | simpl in Hn; subst d; contradiction | .. ];
    cbn [Encoder.uint_text] in *; eexists _, _; (split; [ reflexivity | ]);
    (split; [ lia | exact Hd ]).
Qed.

Lemma int_repr_pos p : Encoder.int_repr (Z.pos p) = Encoder.uint_text (Pos.to_uint p).
Proof. reflexivity. Qed.

Lemma match_integer_run c tail rest :
  (49 <= c <= 57)%N -> all_digits tail = true -> no_digit rest ->
  Decoder.match_integer ((c :: tail) ++ rest) = Some (c :: tail, rest).
Proof.
  intros Hc Htail Hrest. cbn [app Decoder.match_integer].
  destruct (N.eqb_spec c 48) as [E | _]; [ lia | ].
  assert (Hd : Decoder.is_digit c = true) by (apply is_digit_range; lia).
  rewrite Hd. change (c :: tail ++ rest) with ((c :: tail) ++ rest).
  rewrite scan_digits_run; [ reflexivity | simpl; rewrite Hd; exact Htail | exact Hrest ].
Qed.

Lemma value_end_no_digit rest : value_end rest = true -> no_digit rest.
Proof.
  destruct rest as [ | c rest ]; [ intros _; exact I | ]. unfold value_end. intros H.
  repeat (apply orb_true_iff in H as [H | H]); apply N.eqb_eq in H; subst c;
    reflexivity.
Qed.

Lemma value_end_no_fraction rest :
  value_end rest = true -> Decoder.match_fraction rest = None.
Proof.
  destruct rest as [ | c rest ]; [ reflexivity | ]. unfold value_end. intros H.
  repeat (apply orb_true_iff in H as [H | H]); apply N.eqb_eq in H; subst c;
    destruct rest; reflexivity.
Qed.

Lemma value_end_no_exponent rest :
  value_end rest = true -> Decoder.match_exponent rest = None.
Proof.
  destruct rest as [ | c rest ]; [ reflexivity | ]. unfold value_end. intros H.
  repeat (apply orb_true_iff in H as [H | H]); apply N.eqb_eq in H; subst c;
    reflexivity.
Qed.

Lemma match_number_int negative integer rest :
  Decoder.match_integer (integer ++ rest) = Some (integer, rest) ->
  value_end rest = true ->
  Decoder.match_number negative (integer ++ rest)
  = Some (JInt (if negative then - Decoder.digits_value integer
                else Decoder.digits_value integer), rest).
Proof.
  intros Hint Hend. unfold Decoder.match_number.
  rewrite Hint, (value_end_no_fraction rest Hend), (value_end_no_exponent rest Hend).
  reflexivity.
Qed.

(** The numeral [repr] prints for an integer is read back as the
    integer. *)
Lemma parse_number_repr z rest :
  value_end rest = true ->
  Decoder.parse_number (Encoder.int_repr z ++ rest) = Some (JInt z, rest).
Proof.
  intros Hend. pose proof (value_end_no_digit rest Hend) as Hnd.
  destruct z as [ | p | p ].
  - change (Encoder.int_repr 0) with [48%N]. unfold Decoder.parse_number.
    cbn [app N.eqb Pos.eqb]. change (48%N :: rest) with ([48%N] ++ rest).
    rewrite match_number_int; [ reflexivity | reflexivity | exact Hend ].
  - rewrite int_repr_pos.
    destruct (positive_text p) as (c & tail & E & Hc & Htail).
    pose proof (digits_value_to_uint p) as Hv. rewrite E in *.
    unfold Decoder.parse_number. cbn [app].
    destruct (N.eqb_spec c 45) as [E45 | _]; [ lia | ].
    change (c :: tail ++ rest) with ((c :: tail) ++ rest).
    rewrite match_number_int, Hv;
      [ reflexivity | apply match_integer_run; assumption | exact Hend ].
  - change (Encoder.int_repr (Z.neg p)) with (45%N :: Encoder.uint_text (Pos.to_uint p)).
    destruct (positive_text p) as (c & tail & E & Hc & Htail).
    pose proof (digits_value_to_uint p) as Hv. rewrite E in *.
    unfold Decoder.parse_number. cbn [app]. rewrite N.eqb_refl.
    change (c :: tail ++ rest) with ((c :: tail) ++ rest).
    rewrite match_number_int, Hv;
      [ reflexivity | apply match_integer_run; assumption | exact Hend ].
Qed.

End Numbers.
Section FloatText.

Local Open Scope Z_scope.

Lemma no_digit_point rest : no_digit (46%N :: rest).
Proof. reflexivity. Qed.

Lemma no_digit_e rest : no_digit (101%N :: rest).
Proof. reflexivity. Qed.

Lemma match_fraction_run fs rest :
  fs <> [] -> all_digits fs = true -> no_digit rest ->
  Decoder.match_fraction (46%N :: fs ++ rest) = Some (fs, rest).
Proof.
  intros Hne Hfs Hrest. destruct fs as [ | c fs ]; [ contradiction | ].
  cbn [app Decoder.match_fraction]. rewrite N.eqb_refl.
  pose proof Hfs as Hfs'. simpl in Hfs'. apply andb_true_iff in Hfs' as [Hc _].
  rewrite Hc. cbn [andb]. change (c :: fs ++ rest) with ((c :: fs) ++ rest).
  rewrite scan_digits_run by assumption. reflexivity.
Qed.

Lemma match_fraction_e s : Decoder.match_fraction (101%N :: s) = None.
Proof. destruct s; reflexivity. Qed.

(** The numeral of a natural number: digits, whose value it is. *)
Lemma natural_text n :
  0 <= n ->
  exists c tail,
    Encoder.int_repr n = c :: tail
    /\ all_digits (c :: tail) = true /\ Decoder.digits_value (c :: tail) = n.
Proof.
  intros Hn. destruct n as [ | p | p ]; [ | | lia ].
  - exists 48%N, []. repeat split.
  - rewrite int_repr_pos. destruct (positive_text p) as (c & tail & E & Hc & Htail).
    pose proof (digits_value_to_uint p) as Hv. rewrite E in *.
    exists c, tail. repeat split; [ | exact Hv ].
    simpl. rewrite Htail, andb_true_r. apply is_digit_range. lia.
Qed.

Lemma match_exponent_text x rest :
  no_digit rest ->
  Decoder.match_exponent (101%N :: Encoder.exponent_text x ++ rest) = Some (x, rest).
Proof.
  intros Hrest. unfold Encoder.exponent_text.
  destruct (natural_text (Z.abs x) (Z.abs_nonneg x)) as (c & tail & E & Hd & Hv).
  rewrite E.
  set (pad := if Z.abs x <? 10 then lit "0" else []).
  assert (Hpad : all_digits (pad ++ c :: tail) = true
                 /\ Decoder.digits_value (pad ++ c :: tail) = Z.abs x
                 /\ exists c' tail', pad ++ c :: tail = c' :: tail'
                                     /\ Decoder.is_digit c' = true).
  { subst pad. destruct (Z.abs x <? 10).
    - change (lit "0") with [48%N]. repeat split.
      + exact Hd.
      + rewrite digits_value_app, Hv. reflexivity.
      + eexists _, _. split; reflexivity.
    - repeat split; try assumption. simpl in Hd. apply andb_true_iff in Hd as [Hc _].
      eexists _, _. split; [ reflexivity | exact Hc ]. }
  destruct Hpad as (Hall & Hval & c' & tail' & Etext & Hc').
  cbn [Decoder.match_exponent]. cbn [N.eqb Pos.eqb orb].
  destruct (Z.ltb_spec x 0) as [Hneg | Hpos].
  - change (lit "-") with [45%N]. cbn [app]. cbn [N.eqb Pos.eqb].
    rewrite Etext. cbn [app]. rewrite Hc'.
    change (c' :: tail' ++ rest) with ((c' :: tail') ++ rest). rewrite <- Etext.
    rewrite scan_digits_run by assumption. rewrite Hval. f_equal. f_equal. lia.
  - change (lit "+") with [43%N]. cbn [app]. cbn [N.eqb Pos.eqb].
    rewrite Etext. cbn [app]. rewrite Hc'.
    change (c' :: tail' ++ rest) with ((c' :: tail') ++ rest). rewrite <- Etext.
    rewrite scan_digits_run by assumption. rewrite Hval. f_equal. f_equal. lia.
Qed.

Lemma pow10_Z n : 0 <= n -> Qeq (Float.pow10 n) (inject_Z (10 ^ n)).
Proof. intros H. unfold Float.pow10. rewrite Zpower_Qpower by exact H. reflexivity. Qed.

(** The layout of [repr] is read back as the value of its digits at the
    scale the decimal point gives them. *)
Lemma match_number_format negative c tail decpt rest :
  (49 <= c <= 57)%N -> all_digits tail = true ->
  value_end rest = true ->
  Decoder.match_number negative (Encoder.format_float (c :: tail) decpt ++ rest)
  = Some (JFloat
            (Float.of_Q negative
               (Qmult (inject_Z (Decoder.digits_value (c :: tail)))
                      (Float.pow10 (decpt - Z.of_nat (length (c :: tail)))))),
          rest).
Proof.
  intros Hc Htail Hend.
  pose proof (value_end_no_digit rest Hend) as Hnd.
  assert (Hcd : Decoder.is_digit c = true) by (apply is_digit_range; lia).
  assert (Hds : all_digits (c :: tail) = true) by (simpl; rewrite Hcd; exact Htail).
  set (ds := c :: tail) in *. set (n := Z.of_nat (length ds)).
  assert (Hn : 1 <= n) by (subst n ds; cbn [length]; lia).
  unfold Encoder.format_float. fold n.
  destruct ((-4 <? decpt) && (decpt <=? 16)) eqn:Hfixed.
  - destruct (Z.leb_spec decpt 0) as [Hle | Hgt].
    + (* 0.000ddd *)
      change (lit "0.") with [48%N; 46%N]. cbn [app].
      set (zeros := repeat 48%N (Z.to_nat (- decpt))).
      unfold Decoder.match_number. cbn [Decoder.match_integer N.eqb Pos.eqb].
      rewrite <- app_assoc, app_assoc.
      rewrite match_fraction_run;
        [ | subst zeros ds; destruct (repeat _ _); discriminate
          | rewrite all_digits_app; subst zeros; rewrite all_digits_zeros; exact Hds
          | exact Hnd ].
      rewrite (value_end_no_exponent rest Hend). cbn [default from_option id].
      f_equal. f_equal. f_equal. unfold Decoder.float_of_literal.
      apply of_Q_equal.
      rewrite digits_value_app. change (Decoder.digits_value [48%N]) with 0.
      rewrite digits_value_app. subst zeros.
      rewrite digits_value_zeros, !Z.mul_0_l, !Z.add_0_l.
      rewrite length_app, repeat_length.
      replace (0 - Z.of_nat (Z.to_nat (- decpt) + length ds)) with (decpt - n)
        by (subst n; lia).
      reflexivity.
    + destruct (Z.ltb_spec decpt n) as [Hin | Hout].
      * (* ddd.ddd *)
        change (lit ".") with [46%N].
        set (d := Z.to_nat decpt).
        assert (Hd : (1 <= d < length ds)%nat) by (subst d n; lia).
        assert (Efirst : firstn d ds = c :: firstn (d - 1) tail).
        { subst ds. destruct d as [ | d ]; [ lia | ].
          cbn [firstn]. replace (S d - 1)%nat with d by lia. reflexivity. }
        unfold Decoder.match_number. rewrite <- !app_assoc. rewrite Efirst at 1.
        rewrite match_integer_run;
          [ | exact Hc | apply all_digits_firstn; exact Htail | apply no_digit_point ].
        rewrite <- Efirst. cbn [app].
        rewrite match_fraction_run;
          [ | intros E; apply (f_equal (@length N)) in E; rewrite length_skipn in E;
              subst ds; simpl in *; lia
            | apply all_digits_skipn; exact Hds | exact Hnd ].
        rewrite (value_end_no_exponent rest Hend). cbn [default from_option id].
        f_equal. f_equal. f_equal. unfold Decoder.float_of_literal.
        rewrite firstn_skipn, length_skipn.
        replace (0 - Z.of_nat (length ds - d)) with (decpt - n) by (subst n d; lia).
        reflexivity.
      * (* ddd000.0 *)
        change (lit ".0") with [46%N; 48%N].
        set (j := Z.to_nat (decpt - n)). set (zeros := repeat 48%N j).
        assert (Etext : (ds ++ zeros ++ [46%N; 48%N]) ++ rest
                        = (c :: tail ++ zeros) ++ 46%N :: [48%N] ++ rest)
          by (subst ds; cbn [app]; rewrite <- !app_assoc; reflexivity).
        unfold Decoder.match_number. rewrite Etext.
        rewrite match_integer_run;
          [ | exact Hc
            | rewrite all_digits_app; subst zeros; rewrite all_digits_zeros, Htail;
              reflexivity
            | apply no_digit_point ].
        rewrite match_fraction_run; [ | discriminate | reflexivity | exact Hnd ].
        rewrite (value_end_no_exponent rest Hend). cbn [default from_option id].
        f_equal. f_equal. f_equal. unfold Decoder.float_of_literal.
        apply of_Q_equal.
        change (c :: tail ++ zeros) with (ds ++ zeros).
        rewrite <- app_assoc, digits_value_app, digits_value_app.
        subst zeros. rewrite digits_value_zeros, length_app, repeat_length.
        change (Decoder.digits_value [48%N]) with 0. cbn [length].
        rewrite !Z.add_0_r.
        replace (0 - Z.of_nat 1) with (-1) by reflexivity.
        replace (Z.of_nat (j + 1)) with (decpt - n + 1) by (subst j; lia).
        rewrite inject_Z_mult, <- (pow10_Z (decpt - n + 1)) by lia.
        rewrite <- Qmult_assoc, <- pow10_add.
        replace (decpt - n + 1 + -1) with (decpt - n) by ring. reflexivity.
  - (* d.ddde+XX *)
    change (lit "e") with [101%N]. change (lit ".") with [46%N].
    subst ds. destruct tail as [ | c1 tail1 ].
    + unfold Decoder.match_number. cbn [app].
      change (c :: 101%N :: Encoder.exponent_text (decpt - 1) ++ rest)
        with ((c :: []) ++ 101%N :: Encoder.exponent_text (decpt - 1) ++ rest).
      rewrite match_integer_run; [ | exact Hc | reflexivity | apply no_digit_e ].
      rewrite match_fraction_e.
      rewrite match_exponent_text by exact Hnd. cbn [default from_option id].
      f_equal. f_equal. f_equal. unfold Decoder.float_of_literal.
      rewrite app_nil_r. cbn [length] in *. subst n.
      replace (decpt - 1 - Z.of_nat 0) with (decpt - Z.of_nat 1) by lia. reflexivity.
    + assert (Etext : (c :: [46%N] ++ (c1 :: tail1) ++ [101%N]
                            ++ Encoder.exponent_text (decpt - 1)) ++ rest
                      = (c :: []) ++ 46%N :: (c1 :: tail1)
                        ++ 101%N :: Encoder.exponent_text (decpt - 1) ++ rest)
        by (cbn [app]; rewrite <- !app_assoc; reflexivity).
      unfold Decoder.match_number. rewrite Etext.
      rewrite match_integer_run; [ | exact Hc | reflexivity | apply no_digit_point ].
      rewrite match_fraction_run; [ | discriminate | exact Htail | apply no_digit_e ].
      rewrite match_exponent_text by exact Hnd. cbn [default from_option id].
      f_equal. f_equal. f_equal. unfold Decoder.float_of_literal.
      cbn [app]. subst n.
      replace (decpt - 1 - Z.of_nat (length (c1 :: tail1)))
        with (decpt - Z.of_nat (length (c :: c1 :: tail1))) by (cbn [length]; lia).
      reflexivity.
Qed.

(** The text [repr] prints for a finite float is read back as the float. *)
Lemma match_number_float negative m e rest :
  Float.float_ok (Float.Finite negative m e) = true ->
  value_end rest = true ->
  Decoder.match_number negative
    ((if (m =? 0) then lit "0.0"
      else
        let (c, p) := Float.digits m e in
        let ds := Encoder.int_repr c in
        Encoder.format_float ds (p + Z.of_nat (length ds))) ++ rest)
  = Some (JFloat (Float.Finite negative m e), rest).
Proof.
  intros Hok Hend. unfold Float.float_ok in Hok.
  repeat (apply andb_true_iff in Hok as [Hok ?]).
  destruct (Z.eqb_spec m 0) as [-> | Hm].
  - assert (e = -1074) as -> by (destruct (Z.eqb_spec e (-1074)); [ assumption | discriminate ]).
    change (lit "0.0") with [48%N; 46%N; 48%N].
    unfold Decoder.match_number. cbn [app Decoder.match_integer N.eqb Pos.eqb].
    change (46%N :: 48%N :: rest) with (46%N :: [48%N] ++ rest).
    rewrite match_fraction_run;
      [ | discriminate | reflexivity | apply value_end_no_digit; exact Hend ].
    rewrite (value_end_no_exponent rest Hend). reflexivity.
  - assert (Hcan : Float.canonical m e).
    { unfold Float.canonical. apply Z.leb_le in Hok. lia. }
    destruct (digits_read_back m e Hcan negative) as (c & p & Ed & Hc & Hback).
    rewrite Ed.
    destruct c as [ | cp | cp ]; [ lia | | lia ].
    rewrite int_repr_pos.
    destruct (positive_text cp) as (c0 & tail & E & Hc0 & Htail).
    pose proof (digits_value_to_uint cp) as Hv. cbv zeta. rewrite E in *.
    rewrite match_number_format by assumption.
    rewrite Hv.
    replace (p + Z.of_nat (length (c0 :: tail)) - Z.of_nat (length (c0 :: tail)))
      with p by ring.
    rewrite Hback. reflexivity.
Qed.

End FloatText.


Section Documents.

Lemma skip_ws_head c rest :
  Decoder.is_ws c = false -> Decoder.skip_ws (c :: rest) = c :: rest.
Proof. intros H. simpl. rewrite H. reflexivity. Qed.

Lemma skip_ws_spaces n rest :
  Decoder.skip_ws (repeat SPACE n ++ rest) = Decoder.skip_ws rest.
Proof. induction n as [ | n IH ]; [ reflexivity | exact IH ]. Qed.

Lemma skip_ws_newline_indent indent level rest :
  Decoder.skip_ws (Encoder.newline_indent indent level ++ rest) = Decoder.skip_ws rest.
Proof.
  destruct indent as [width | ]; [ | reflexivity ].
  unfold Encoder.newline_indent. cbn [app]. apply skip_ws_spaces.
Qed.

Lemma skip_ws_separator indent level rest :
  Decoder.skip_ws
    ((Encoder.item_separator indent ++ Encoder.newline_indent indent level) ++ rest)
  = COMMA :: (match indent with None => [SPACE] | Some _ => [] end)
    ++ Encoder.newline_indent indent level ++ rest.
Proof. destruct indent; reflexivity. Qed.

Lemma skip_ws_after_comma indent level rest :
  Decoder.skip_ws
    ((match indent with None => [SPACE] | Some _ => [] end)
     ++ Encoder.newline_indent indent level ++ rest)
  = Decoder.skip_ws rest.
Proof.
  destruct indent as [width | ]; [ | reflexivity ].
  cbn [app]. apply skip_ws_newline_indent.
Qed.

Lemma value_end_newline_indent indent level c rest :
  (c =? 93) || (c =? 125) = true ->
  value_end (Encoder.newline_indent indent level ++ c :: rest) = true.
Proof.
  intros Hc. destruct indent as [width | ]; [ reflexivity | ].
  cbn [Encoder.newline_indent app value_end].
  apply orb_true_iff in Hc as [-> | ->]; rewrite ?orb_true_r; reflexivity.
Qed.

Lemma value_end_separator indent level rest :
  value_end
    ((Encoder.item_separator indent ++ Encoder.newline_indent indent level) ++ rest)
  = true.
Proof. destruct indent; reflexivity. Qed.

Lemma join_cons sep p q ps :
  join sep (p :: q :: ps) = p ++ sep ++ join sep (q :: ps).
Proof. reflexivity. Qed.

(** The texts of numbers start with a digit or a minus sign. *)
Lemma int_repr_head z :
  exists c tail, Encoder.int_repr z = c :: tail /\ (48 <= c <= 57 \/ c = 45).
Proof.
  destruct z as [ | p | p ].
  - exists 48, []. split; [ reflexivity | lia ].
  - rewrite int_repr_pos. destruct (positive_text p) as (c & tail & -> & Hc & _).
    exists c, tail. split; [ reflexivity | lia ].
  - eexists 45, _. split; [ reflexivity | lia ].
Qed.

Lemma format_float_head c tail decpt :
  exists c' tail',
    Encoder.format_float (c :: tail) decpt = c' :: tail' /\ (c' = 48 \/ c' = c).
Proof.
  unfold Encoder.format_float.
  destruct ((-4 <? decpt) && (decpt <=? 16))%Z.
  - destruct (Z.leb_spec decpt 0) as [Hle | Hgt];
      [ eexists _, _; split; [ reflexivity | left; reflexivity ] | ].
    destruct (decpt <? Z.of_nat (length (c :: tail)))%Z.
    + destruct (Z.to_nat decpt) as [ | d ] eqn:Ed; [ lia | ].
      eexists _, _; split; [ reflexivity | right; reflexivity ].
    + eexists _, _; split; [ reflexivity | right; reflexivity ].
  - destruct tail; eexists _, _; (split; [ reflexivity | right; reflexivity ]).
Qed.

Lemma float_repr_head negative m e :
  exists c tail,
    Encoder.float_repr (Float.Finite negative m e) = c :: tail
    /\ (48 <= c <= 57 \/ c = 45).
Proof.
  unfold Encoder.float_repr.
  destruct negative; [ eexists 45, _; split; [ reflexivity | lia ] | ].
  cbn [app]. destruct (m =? 0)%Z; [ exists 48, (lit ".0"); split; [ reflexivity | lia ] | ].
  destruct (Float.digits m e) as [c p]. cbv zeta.
  destruct (int_repr_head c) as (c0 & tail & -> & Hc0).
  destruct (format_float_head c0 tail (p + Z.of_nat (length (c0 :: tail))))
    as (c' & tail' & -> & Hc').
  exists c', tail'. split; [ reflexivity | lia ].
Qed.

(** Every encoded value starts with a character that is neither white
    space nor a closing bracket. *)
Lemma iterencode_head indent level o :
  exists c tail,
    Encoder.iterencode indent level o = c :: tail
    /\ Decoder.is_ws c = false /\ (c =? 93) = false /\ (c =? 65279) = false.
Proof.
  assert (Hnumber : forall c, (48 <= c <= 57 \/ c = 45) ->
                              Decoder.is_ws c = false /\ (c =? 93) = false
                              /\ (c =? 65279) = false).
  { intros c Hc. unfold Decoder.is_ws, SPACE, LF, CR.
    repeat split; repeat (apply orb_false_iff; split); apply N.eqb_neq; lia. }
  destruct o as [ | [ | ] | z | x | s | [ | x lst ] | [ | kv dct ] ];
    try (eexists _, _; split; [ reflexivity | repeat split ]).
  - cbn [Encoder.iterencode].
    destruct (int_repr_head z) as (c & tail & -> & Hc).
    exists c, tail. split; [ reflexivity | apply Hnumber, Hc ].
  - cbn [Encoder.iterencode].
    destruct x as [ negative m e | [ | ] | ];
      try (eexists _, _; split; [ reflexivity | repeat split ]).
    unfold Encoder.floatstr.
    destruct (float_repr_head negative m e) as (c & tail & -> & Hc).
    exists c, tail. split; [ reflexivity | apply Hnumber, Hc ].
Qed.

Lemma skip_ws_value indent level o rest :
  Decoder.skip_ws (Encoder.iterencode indent level o ++ rest)
  = Encoder.iterencode indent level o ++ rest.
Proof.
  destruct (iterencode_head indent level o) as (c & tail & -> & Hws & _).
  apply skip_ws_head, Hws.
Qed.

(** *** One step of the scanner on each kind of text *)

Lemma scan_once_string fuel rest :
  Decoder.scan_once (S fuel) (QUOTE :: rest)
  = match Decoder.scanstring (S (length rest)) rest with
    | Some (str, r) => Some (JStr str, r)
    | None => None
    end.
Proof. reflexivity. Qed.

Lemma scan_once_array fuel rest :
  Decoder.scan_once (S fuel) (91 :: rest)
  = match Decoder.skip_ws rest with
    | c1 :: r1 =>
        if c1 =? 93 then Some (JArr [], r1)
        else
          match Decoder.array_items fuel (c1 :: r1) with
          | Some (values, r) => Some (JArr values, r)
          | None => None
          end
    | [] => None
    end.
Proof. reflexivity. Qed.

Lemma scan_once_object fuel rest :
  Decoder.scan_once (S fuel) (123 :: rest)
  = match Decoder.skip_ws rest with
    | c1 :: r1 =>
        if c1 =? 125 then Some (JObj [], r1)
        else if c1 =? QUOTE then
          match Decoder.object_items fuel r1 with
          | Some (pairs, r) => Some (JObj (Decoder.dict_of_pairs pairs), r)
          | None => None
          end
        else None
    | [] => None
    end.
Proof. reflexivity. Qed.

Lemma array_items_step fuel s :
  Decoder.array_items (S fuel) s
  = match Decoder.scan_once fuel s with
    | Some (value, r) =>
        match Decoder.skip_ws r with
        | c :: r1 =>
            if c =? 93 then Some ([value], r1)
            else if c =? COMMA then
              Decoder.prepend value (Decoder.array_items fuel (Decoder.skip_ws r1))
            else None
        | [] => None
        end
    | None => None
    end.
Proof. reflexivity. Qed.

Lemma object_items_step fuel s :
  Decoder.object_items (S fuel) s
  = match Decoder.scanstring (S (length s)) s with
    | Some (key, r) =>
        match Decoder.skip_ws r with
        | c :: r1 =>
            if c =? 58 then
              match Decoder.scan_once fuel (Decoder.skip_ws r1) with
              | Some (value, r2) =>
                  match Decoder.skip_ws r2 with
                  | c2 :: r3 =>
                      if c2 =? 125 then Some ([(key, value)], r3)
                      else if c2 =? COMMA then
                        match Decoder.skip_ws r3 with
                        | c3 :: r4 =>
                            if c3 =? QUOTE then
                              Decoder.prepend (key, value) (Decoder.object_items fuel r4)
                            else None
                        | [] => None
                        end
                      else None
                  | [] => None
                  end
              | None => None
              end
            else None
        | [] => None
        end
    | None => None
    end.
Proof. reflexivity. Qed.

Lemma scan_once_number fuel c tail :
  Decoder.is_digit c = true
  \/ (c = 45 /\ match tail with d :: _ => Decoder.is_digit d = true | [] => False end) ->
  Decoder.scan_once (S fuel) (c :: tail) = Decoder.parse_number (c :: tail).
Proof.
  intros Hc.
  assert (Hrange : 45 <= c <= 57).
  { destruct Hc as [Hc | [-> _]]; [ | lia ]. apply is_digit_range in Hc. lia. }
  cbn [Decoder.scan_once].
  destruct (N.eqb_spec c QUOTE) as [E | _]; [ unfold QUOTE in E; lia | ].
  destruct (N.eqb_spec c 123) as [E | _]; [ lia | ].
  destruct (N.eqb_spec c 91) as [E | _]; [ lia | ].
  change (lit "null") with (110 :: lit "ull").
  change (lit "true") with (116 :: lit "rue").
  change (lit "false") with (102 :: lit "alse").
  change (lit "NaN") with (78 :: lit "aN").
  change (lit "Infinity") with (73 :: lit "nfinity").
  change (lit "-Infinity") with (45 :: 73 :: lit "nfinity").
  cbn [Decoder.strip_prefix].
  destruct (N.eqb_spec 110 c) as [E | _]; [ lia | ].
  destruct (N.eqb_spec 116 c) as [E | _]; [ lia | ].
  destruct (N.eqb_spec 102 c) as [E | _]; [ lia | ].
  destruct (N.eqb_spec 78 c) as [E | _]; [ lia | ].
  destruct (N.eqb_spec 73 c) as [E | _]; [ lia | ].
  destruct (N.eqb_spec 45 c) as [E | _]; [ | reflexivity ].
  destruct Hc as [Hc | [_ Hd]]; [ apply is_digit_range in Hc; lia | ].
  destruct tail as [ | d tail ]; [ contradiction | ].
  apply is_digit_range in Hd.
  destruct (N.eqb_spec 73 d) as [E' | _]; [ lia | reflexivity ].
Qed.

Lemma scan_once_int fuel z rest :
  value_end rest = true ->
  Decoder.scan_once (S fuel) (Encoder.int_repr z ++ rest) = Some (JInt z, rest).
Proof.
  intros Hend. rewrite <- (parse_number_repr z rest Hend).
  destruct z as [ | p | p ].
  - apply scan_once_number. left. reflexivity.
  - rewrite int_repr_pos. destruct (positive_text p) as (c & tail & -> & Hc & _).
    apply scan_once_number. left. apply is_digit_range. lia.
  - change (Encoder.int_repr (Z.neg p)) with (45 :: Encoder.uint_text (Pos.to_uint p)).
    destruct (positive_text p) as (c & tail & -> & Hc & _).
    apply scan_once_number. right. split; [ reflexivity | ].
    apply is_digit_range. lia.
Qed.

Lemma match_number_head negative s r :
  Decoder.match_number negative s = Some r ->
  match s with d :: _ => Decoder.is_digit d = true | [] => False end.
Proof.
  unfold Decoder.match_number, Decoder.match_integer.
  destruct s as [ | d s ]; [ discriminate | ].
  destruct (N.eqb_spec d 48) as [-> | _]; [ reflexivity | ].
  destruct (Decoder.is_digit d); [ reflexivity | discriminate ].
Qed.

Lemma scan_once_float fuel x rest :
  Float.float_ok x = true ->
  value_end rest = true ->
  Decoder.scan_once (S fuel) (Encoder.floatstr x ++ rest) = Some (JFloat x, rest).
Proof.
  intros Hok Hend. destruct x as [ negative m e | [ | ] | ]; try reflexivity.
  pose proof (match_number_float negative m e rest Hok Hend) as Hread.
  pose proof (match_number_head _ _ _ Hread) as Hhead.
  unfold Encoder.floatstr, Encoder.float_repr. rewrite <- app_assoc.
  destruct ((if (m =? 0)%Z then lit "0.0"
             else let (c, p) := Float.digits m e in
                  let ds := Encoder.int_repr c in
                  Encoder.format_float ds (p + Z.of_nat (length ds))) ++ rest)
    as [ | d body ] eqn:Ebody; [ contradiction | ].
  destruct negative.
  - change (lit "-" ++ d :: body) with (45 :: d :: body).
    rewrite scan_once_number by (right; split; [ reflexivity | exact Hhead ]).
    unfold Decoder.parse_number. rewrite N.eqb_refl. exact Hread.
  - cbn [app]. rewrite scan_once_number by (left; exact Hhead).
    unfold Decoder.parse_number.
    apply is_digit_range in Hhead.
    destruct (N.eqb_spec d 45) as [E | _]; [ lia | exact Hread ].
Qed.

End Documents.

Section RoundTrip.

Variable indent : option nat.

Lemma dict_set_fresh key v dct :
  key ∉ map fst dct -> dict_set key v dct = dct ++ [(key, v)].
Proof.
  induction dct as [ | [k v0] dct IH ]; intros Hfresh; [ reflexivity | ].
  simpl in *. apply not_elem_of_cons in Hfresh as [Hne Hrest].
  rewrite decide_False by congruence. rewrite IH by exact Hrest. reflexivity.
Qed.

Lemma dict_of_pairs_distinct pairs :
  NoDup (map fst pairs) -> Decoder.dict_of_pairs pairs = pairs.
Proof.
  unfold Decoder.dict_of_pairs.
  enough (H : forall acc,
             NoDup (map fst acc ++ map fst pairs) ->
             fold_left (fun dct kv => dict_set (fst kv) (snd kv) dct) pairs acc
             = acc ++ pairs) by (intros Hnd; apply (H [] Hnd)).
  induction pairs as [ | [k v] pairs IH ]; intros acc Hnd.
  - simpl. rewrite app_nil_r. reflexivity.
  - simpl. rewrite dict_set_fresh.
    + rewrite IH.
      * rewrite <- app_assoc. reflexivity.
      * rewrite map_app, <- app_assoc. exact Hnd.
    + simpl in Hnd. apply NoDup_app in Hnd as (_ & Hdisj & _).
      intros Hin. apply (Hdisj k Hin). apply list_elem_of_here.
Qed.

Lemma join_head sep p ps rest :
  exists tail, join sep (p :: ps) ++ rest = p ++ tail.
Proof.
  destruct ps as [ | q ps ].
  - exists rest. reflexivity.
  - rewrite join_cons, <- app_assoc. eauto.
Qed.

Lemma list_sum_positive {A} (f : A -> nat) x xs fuel :
  (list_sum (map (fun y => S (f y)) (x :: xs)) <= fuel)%nat ->
  exists fuel', fuel = S fuel' /\ (f x <= fuel')%nat
                /\ (list_sum (map (fun y => S (f y)) xs) <= fuel')%nat.
Proof.
  simpl. intros H. destruct fuel as [ | fuel' ]; [ lia | ].
  exists fuel'. repeat split; lia.
Qed.

(** The loop of [JSONArray] reads the items of a list back. *)
Lemma array_items_encoded level level' xs :
  Forall (reads_back indent) xs ->
  forall x fuel rest,
    reads_back indent x ->
    forallb doc_ok (x :: xs) = true ->
    (list_sum (map (fun y => S (weight y)) (x :: xs)) <= fuel)%nat ->
    Decoder.array_items fuel
      (join (Encoder.item_separator indent ++ Encoder.newline_indent indent level)
         (map (Encoder.iterencode indent level) (x :: xs))
       ++ Encoder.newline_indent indent level' ++ 93 :: rest)
    = Some (x :: xs, rest).
Proof.
  induction 1 as [ | y ys Hy _ IH ]; intros x fuel rest Hx Hok Hfuel.
  - destruct (list_sum_positive weight x [] fuel Hfuel) as (fuel' & -> & Hwx & _).
    simpl in Hok. rewrite andb_true_r in Hok.
    cbn [map join]. rewrite array_items_step.
    rewrite (Hx Hok level fuel' _ Hwx) by (apply value_end_newline_indent; reflexivity).
    rewrite skip_ws_newline_indent. reflexivity.
  - destruct (list_sum_positive weight x (y :: ys) fuel Hfuel) as (fuel' & -> & Hwx & Hrest).
    cbn [forallb] in Hok. apply andb_true_iff in Hok as [Hokx Hokrest].
    cbn [map]. rewrite join_cons, <- !app_assoc, array_items_step.
    rewrite (Hx Hokx level fuel' _ Hwx).
    2: { rewrite app_assoc. apply value_end_separator. }
    rewrite app_assoc, skip_ws_separator.
    change (COMMA =? 93) with false. rewrite N.eqb_refl. cbv iota.
    rewrite skip_ws_after_comma.
    change (Encoder.iterencode indent level y
            :: map (Encoder.iterencode indent level) ys)
      with (map (Encoder.iterencode indent level) (y :: ys)).
    assert (Hskip : forall t,
               Decoder.skip_ws
                 (join (Encoder.item_separator indent
                        ++ Encoder.newline_indent indent level)
                    (map (Encoder.iterencode indent level) (y :: ys)) ++ t)
               = join (Encoder.item_separator indent
                       ++ Encoder.newline_indent indent level)
                   (map (Encoder.iterencode indent level) (y :: ys)) ++ t).
    { intros t. cbn [map]. destruct (join_head
        (Encoder.item_separator indent ++ Encoder.newline_indent indent level)
        (Encoder.iterencode indent level y)
        (map (Encoder.iterencode indent level) ys) t) as (tail & ->).
      apply skip_ws_value. }
    rewrite Hskip. rewrite (IH y fuel' rest Hy Hokrest Hrest). reflexivity.
Qed.


Lemma encode_item_text level kv rest :
  encode_item indent level kv ++ rest
  = QUOTE :: flat_map Encoder.encode_char (fst kv)
    ++ QUOTE :: 58 :: SPACE :: Encoder.iterencode indent level (snd kv) ++ rest.
Proof.
  unfold encode_item, Encoder.encode_basestring_ascii, Encoder.key_separator.
  cbn [app]. rewrite <- !app_assoc. reflexivity.
Qed.

Lemma skip_ws_space rest : Decoder.skip_ws (SPACE :: rest) = Decoder.skip_ws rest.
Proof. reflexivity. Qed.

Lemma join_items_head level kv kvs rest :
  exists text,
    join (Encoder.item_separator indent ++ Encoder.newline_indent indent level)
      (map (encode_item indent level) (kv :: kvs)) ++ rest
    = QUOTE :: text.
Proof.
  cbn [map].
  destruct (join_head
    (Encoder.item_separator indent ++ Encoder.newline_indent indent level)
    (encode_item indent level kv) (map (encode_item indent level) kvs) rest)
    as (tail & ->).
  rewrite encode_item_text. eauto.
Qed.

(** The loop of [JSONObject] reads the items of a dictionary back; it
    starts after the opening quote of the first key. *)
Lemma object_items_encoded level level' kvs :
  Forall (fun kv => reads_back indent (snd kv)) kvs ->
  forall kv fuel rest,
    reads_back indent (snd kv) ->
    forallb (fun kv => str_ok (fst kv) && doc_ok (snd kv)) (kv :: kvs) = true ->
    (list_sum (map (fun kv => S (weight (snd kv))) (kv :: kvs)) <= fuel)%nat ->
    Decoder.object_items fuel
      (tl (join (Encoder.item_separator indent ++ Encoder.newline_indent indent level)
             (map (encode_item indent level) (kv :: kvs))
           ++ Encoder.newline_indent indent level' ++ 125 :: rest))
    = Some (kv :: kvs, rest).
Proof.
  induction 1 as [ | kv' kvs Hkv' _ IH ]; intros [k v] fuel rest Hv Hok Hfuel;
    change (reads_back indent v) in Hv.
  - destruct (list_sum_positive (fun kv => weight (snd kv)) (k, v) [] fuel Hfuel)
      as (fuel' & -> & Hwv & _).
    cbn [forallb fst snd] in Hok. rewrite andb_true_r in Hok.
    apply andb_true_iff in Hok as [Hk Hokv].
    cbn [map join]. rewrite encode_item_text. cbn [tl fst snd].
    rewrite object_items_step.
    rewrite scanstring_encoded
      by (try exact Hk; rewrite length_app; pose proof (encoded_length k); lia).
    rewrite (skip_ws_head 58) by reflexivity. rewrite N.eqb_refl.
    rewrite skip_ws_space, skip_ws_value.
    rewrite (Hv Hokv level fuel' _ Hwv) by (apply value_end_newline_indent; reflexivity).
    rewrite skip_ws_newline_indent. reflexivity.
  - destruct (list_sum_positive (fun kv => weight (snd kv)) (k, v) (kv' :: kvs) fuel Hfuel)
      as (fuel' & -> & Hwv & Hrest).
    cbn [forallb] in Hok. apply andb_true_iff in Hok as [Hokkv Hokrest].
    cbn [fst snd] in Hokkv. apply andb_true_iff in Hokkv as [Hk Hokv].
    change (map (encode_item indent level) ((k, v) :: kv' :: kvs))
      with (encode_item indent level (k, v)
            :: encode_item indent level kv' :: map (encode_item indent level) kvs).
    rewrite join_cons, <- !app_assoc, encode_item_text. cbn [tl fst snd].
    change (encode_item indent level kv' :: map (encode_item indent level) kvs)
      with (map (encode_item indent level) (kv' :: kvs)).
    rewrite object_items_step.
    rewrite scanstring_encoded
      by (try exact Hk; rewrite length_app; pose proof (encoded_length k); lia).
    rewrite (skip_ws_head 58) by reflexivity. rewrite N.eqb_refl.
    rewrite skip_ws_space, skip_ws_value.
    rewrite (Hv Hokv level fuel' _ Hwv).
    2: { rewrite app_assoc. apply value_end_separator. }
    rewrite app_assoc, skip_ws_separator.
    change (COMMA =? 125) with false. rewrite N.eqb_refl. cbv iota.
    rewrite skip_ws_after_comma.
    specialize (IH kv' fuel' rest Hkv' Hokrest Hrest).
    destruct (join_items_head level kv' kvs
                (Encoder.newline_indent indent level' ++ 125 :: rest)) as (text' & E).
    rewrite E in IH |- *. cbn [tl] in IH.
    rewrite skip_ws_head by reflexivity. rewrite N.eqb_refl, IH. reflexivity.
Qed.


(** [scan_once] reads every encoded document back. *)
Lemma scan_once_encoded o : reads_back indent o.
Proof.
  induction o as [ | b | z | x | s | lst IH | dct IH ] using json_nested_ind;
    intros Hok level fuel rest Hfuel Hend;
    (destruct fuel as [ | fuel ]; [ simpl in Hfuel; lia | ]).
  - reflexivity.
  - destruct b; reflexivity.
  - apply scan_once_int, Hend.
  - apply scan_once_float; [ exact Hok | exact Hend ].
  - cbn [Encoder.iterencode]. unfold Encoder.encode_basestring_ascii.
    cbn [app]. rewrite <- app_assoc. cbn [app].
    rewrite scan_once_string, scanstring_encoded; [ reflexivity | exact Hok | ].
    rewrite length_app. pose proof (encoded_length s). lia.
  - destruct lst as [ | x xs ]; [ reflexivity | ].
    inversion IH as [ | ? ? Hx Hxs ]; subst.
    change (Encoder.iterencode indent level (JArr (x :: xs)))
      with (lit "[" ++ Encoder.newline_indent indent (S level)
            ++ join (Encoder.item_separator indent
                     ++ Encoder.newline_indent indent (S level))
                 (map (Encoder.iterencode indent (S level)) (x :: xs))
            ++ Encoder.newline_indent indent level ++ lit "]").
    change (lit "[") with [91]. change (lit "]") with [93].
    cbn [app]. rewrite <- !app_assoc. cbn [app].
    rewrite scan_once_array, skip_ws_newline_indent.
    destruct (join_head
      (Encoder.item_separator indent ++ Encoder.newline_indent indent (S level))
      (Encoder.iterencode indent (S level) x)
      (map (Encoder.iterencode indent (S level)) xs)
      (Encoder.newline_indent indent level ++ 93 :: rest)) as (tail & Etail).
    destruct (iterencode_head indent (S level) x)
      as (c & tail' & Ehead & Hws & Hclose & _).
    pose proof (array_items_encoded (S level) level xs Hxs x fuel rest Hx Hok)
      as Hitems.
    cbn [map] in Etail, Hitems |- *. rewrite Etail in Hitems |- *.
    rewrite Ehead in Hitems |- *. cbn [app] in Hitems |- *.
    rewrite skip_ws_head by exact Hws. rewrite Hclose, Hitems; [ reflexivity | ].
    simpl in Hfuel. simpl. lia.
  - destruct dct as [ | kv kvs ]; [ reflexivity | ].
    inversion IH as [ | ? ? Hkv Hkvs ]; subst.
    cbn [doc_ok] in Hok. apply andb_true_iff in Hok as [Hdistinct Hok].
    apply bool_decide_eq_true in Hdistinct.
    change (Encoder.iterencode indent level (JObj (kv :: kvs)))
      with (lit "{" ++ Encoder.newline_indent indent (S level)
            ++ join (Encoder.item_separator indent
                     ++ Encoder.newline_indent indent (S level))
                 (map (encode_item indent (S level)) (kv :: kvs))
            ++ Encoder.newline_indent indent level ++ lit "}").
    change (lit "{") with [123]. change (lit "}") with [125].
    cbn [app]. rewrite <- !app_assoc. cbn [app].
    rewrite scan_once_object, skip_ws_newline_indent.
    pose proof (object_items_encoded (S level) level kvs Hkvs kv fuel rest
                  Hkv Hok) as Hitems.
    destruct (join_items_head (S level) kv kvs
                (Encoder.newline_indent indent level ++ 125 :: rest)) as (text & E).
    rewrite E in Hitems |- *. cbn [tl] in Hitems.
    rewrite skip_ws_head by reflexivity.
    change (QUOTE =? 125) with false. rewrite N.eqb_refl. cbv iota.
    rewrite Hitems by (simpl in Hfuel; simpl; lia).
    rewrite dict_of_pairs_distinct by exact Hdistinct. reflexivity.
Qed.

Lemma join_weight level xs :
  Forall (fun x => (weight x <= length (Encoder.iterencode indent level x))%nat) xs ->
  (list_sum (map (fun x => S (weight x)) xs)
   <= S (length (join (Encoder.item_separator indent
                       ++ Encoder.newline_indent indent level)
                   (map (Encoder.iterencode indent level) xs))))%nat.
Proof.
  induction 1 as [ | x xs Hx Hxs IH ]; [ simpl; lia | ].
  destruct xs as [ | y ys ].
  - simpl. lia.
  - change (map (Encoder.iterencode indent level) (x :: y :: ys))
      with (Encoder.iterencode indent level x
            :: Encoder.iterencode indent level y
            :: map (Encoder.iterencode indent level) ys).
    rewrite join_cons, !length_app.
    change (Encoder.iterencode indent level y
            :: map (Encoder.iterencode indent level) ys)
      with (map (Encoder.iterencode indent level) (y :: ys)).
    assert (Hsep : (1 <= length (Encoder.item_separator indent))%nat)
      by (destruct indent; simpl; lia).
    change (list_sum (map (fun x => S (weight x)) (x :: y :: ys)))
      with (S (weight x) + list_sum (map (fun x => S (weight x)) (y :: ys)))%nat.
    lia.
Qed.

Lemma join_items_weight level kvs :
  Forall (fun kv => (weight (snd kv)
                     <= length (Encoder.iterencode indent level (snd kv)))%nat) kvs ->
  (list_sum (map (fun kv => S (weight (snd kv))) kvs)
   <= S (length (join (Encoder.item_separator indent
                       ++ Encoder.newline_indent indent level)
                   (map (encode_item indent level) kvs))))%nat.
Proof.
  assert (Hitem : forall kv,
             (length (Encoder.iterencode indent level (snd kv))
              <= length (encode_item indent level kv))%nat).
  { intros kv. unfold encode_item. rewrite !length_app. lia. }
  induction 1 as [ | kv kvs Hkv Hkvs IH ]; [ simpl; lia | ].
  pose proof (Hitem kv) as Hlen.
  destruct kvs as [ | kv' kvs ].
  - simpl. simpl in Hlen. lia.
  - change (map (encode_item indent level) (kv :: kv' :: kvs))
      with (encode_item indent level kv
            :: encode_item indent level kv' :: map (encode_item indent level) kvs).
    rewrite join_cons, !length_app.
    change (encode_item indent level kv' :: map (encode_item indent level) kvs)
      with (map (encode_item indent level) (kv' :: kvs)).
    assert (Hsep : (1 <= length (Encoder.item_separator indent))%nat)
      by (destruct indent; simpl; lia).
    change (list_sum (map (fun kv => S (weight (snd kv))) (kv :: kv' :: kvs)))
      with (S (weight (snd kv))
            + list_sum (map (fun kv => S (weight (snd kv))) (kv' :: kvs)))%nat.
    lia.
Qed.

(** The text of a document is at least as long as the fuel it takes. *)
Lemma weight_length o :
  forall level, (weight o <= length (Encoder.iterencode indent level o))%nat.
Proof.
  induction o as [ | b | z | x | s | lst IH | dct IH ] using json_nested_ind; intros level.
  - simpl; lia.
  - destruct b; simpl; lia.
  - destruct (iterencode_head indent level (JInt z)) as (c & tail & E & _).
    rewrite E. simpl. lia.
  - destruct (iterencode_head indent level (JFloat x)) as (c & tail & E & _).
    rewrite E. simpl. lia.
  - simpl. lia.
  - destruct lst as [ | x xs ]; [ simpl; lia | ].
    change (Encoder.iterencode indent level (JArr (x :: xs)))
      with (lit "[" ++ Encoder.newline_indent indent (S level)
            ++ join (Encoder.item_separator indent
                     ++ Encoder.newline_indent indent (S level))
                 (map (Encoder.iterencode indent (S level)) (x :: xs))
            ++ Encoder.newline_indent indent level ++ lit "]").
    rewrite !length_app.
    change (length (lit "[")) with 1%nat. change (length (lit "]")) with 1%nat.
    pose proof (join_weight (S level) (x :: xs)) as Hjoin.
    cbn [weight]. rewrite Forall_forall in IH.
    assert (Hall : Forall (fun x => (weight x
                     <= length (Encoder.iterencode indent (S level) x))%nat) (x :: xs))
      by (apply Forall_forall; intros y Hy; apply IH, Hy).
    specialize (Hjoin Hall). lia.
  - destruct dct as [ | kv kvs ]; [ simpl; lia | ].
    change (Encoder.iterencode indent level (JObj (kv :: kvs)))
      with (lit "{" ++ Encoder.newline_indent indent (S level)
            ++ join (Encoder.item_separator indent
                     ++ Encoder.newline_indent indent (S level))
                 (map (encode_item indent (S level)) (kv :: kvs))
            ++ Encoder.newline_indent indent level ++ lit "}").
    rewrite !length_app.
    change (length (lit "{")) with 1%nat. change (length (lit "}")) with 1%nat.
    pose proof (join_items_weight (S level) (kv :: kvs)) as Hjoin.
    cbn [weight]. rewrite Forall_forall in IH.
    assert (Hall : Forall (fun kv => (weight (snd kv)
                     <= length (Encoder.iterencode indent (S level) (snd kv)))%nat)
                     (kv :: kvs))
      by (apply Forall_forall; intros y Hy; apply IH, Hy).
    specialize (Hjoin Hall). lia.
Qed.

(** [json.loads] undoes [json.dumps], whatever the indent. *)
Lemma loads_dumps o :
  doc_ok o = true -> Decoder.loads (Encoder.dumps indent o) = Some o.
Proof.
  intros Hok. unfold Decoder.loads, Encoder.dumps.
  destruct (iterencode_head indent 0 o) as (c & tail & E & Hws & _ & Hbom).
  rewrite E at 1. rewrite Hbom.
  rewrite <- (app_nil_r (Encoder.iterencode indent 0 o)) at 2.
  rewrite skip_ws_value.
  rewrite (scan_once_encoded o Hok 0%nat _ []); [ reflexivity | | reflexivity ].
  pose proof (weight_length o 0%nat). lia.
Qed.

End RoundTrip.

(** ** What the decoder returns

    Every document that [json.loads] reads from UTF-8 text has the shape
    that the round trip asks for. *)

Section DecodedText.

Lemma text_ok_cons c s :
  text_ok (c :: s) = true ->
  c < 1114112 /\ is_surrogate c = false /\ text_ok s = true.
Proof.
  unfold text_ok. cbn [forallb]. intros H.
  apply andb_true_iff in H as [Hc Hs]. apply andb_true_iff in Hc as [Hlt Hsur].
  apply N.ltb_lt in Hlt. apply negb_true_iff in Hsur. auto.
Qed.

Lemma surrogate_kinds c :
  is_surrogate c = false ->
  Decoder.is_high_surrogate c = false /\ Decoder.is_low_surrogate c = false.
Proof.
  unfold is_surrogate, Decoder.is_high_surrogate, Decoder.is_low_surrogate. intros H.
  apply andb_false_iff in H.
  split; apply andb_false_iff;
    destruct H as [H | H]; apply N.leb_gt in H;
    first [ left; apply N.leb_gt; lia | right; apply N.leb_gt; lia ].
Qed.

Lemma high_not_low c :
  Decoder.is_high_surrogate c = true -> Decoder.is_low_surrogate c = false.
Proof.
  unfold Decoder.is_high_surrogate, Decoder.is_low_surrogate. intros H.
  apply andb_true_iff in H as [_ H]. apply N.leb_le in H.
  apply andb_false_iff. left. apply N.leb_gt. lia.
Qed.

Lemma hexval_bound c v : Decoder.hexval c = Some v -> v < 16.
Proof.
  unfold Decoder.hexval.
  destruct ((48 <=? c) && (c <=? 57)) eqn:E1;
    [ | destruct ((97 <=? c) && (c <=? 102)) eqn:E2;
        [ | destruct ((65 <=? c) && (c <=? 70)) eqn:E3 ] ];
    intros [= <-];
    match goal with
    | H : _ && _ = true |- _ =>
        apply andb_true_iff in H as [H1 H2]; apply N.leb_le in H1, H2; lia
    end.
Qed.

Lemma decode_uXXXX_ok s uni rest :
  Decoder.decode_uXXXX s = Some (uni, rest) ->
  uni < 65536 /\ (text_ok s = true -> text_ok rest = true).
Proof.
  unfold Decoder.decode_uXXXX.
  destruct s as [ | a [ | b [ | c [ | d s ] ] ] ]; try discriminate.
  destruct (Decoder.hexval a) as [va | ] eqn:Ea; [ | discriminate ].
  destruct (Decoder.hexval b) as [vb | ] eqn:Eb; [ | discriminate ].
  destruct (Decoder.hexval c) as [vc | ] eqn:Ec; [ | discriminate ].
  destruct (Decoder.hexval d) as [vd | ] eqn:Ed; [ | discriminate ].
  intros [= <- <-].
  apply hexval_bound in Ea, Eb, Ec, Ed. split; [ lia | ].
  intros H. repeat (apply text_ok_cons in H as (_ & _ & H)). exact H.
Qed.

Lemma strip_prefix_ok prefix s rest :
  Decoder.strip_prefix prefix s = Some rest -> text_ok s = true -> text_ok rest = true.
Proof.
  revert s. induction prefix as [ | p prefix IH ]; intros s.
  - intros [= <-]. auto.
  - destruct s as [ | c s ]; [ discriminate | ]. simpl.
    destruct (p =? c); [ | discriminate ].
    intros H Hs. apply text_ok_cons in Hs as (_ & _ & Hs). eauto.
Qed.

Lemma skip_ws_ok s : text_ok s = true -> text_ok (Decoder.skip_ws s) = true.
Proof.
  induction s as [ | c s IH ]; [ auto | ]. intros H. simpl.
  destruct (Decoder.is_ws c); [ | exact H ].
  apply text_ok_cons in H as (_ & _ & H). auto.
Qed.

Lemma scan_digits_ok s : text_ok s = true -> text_ok (snd (Decoder.scan_digits s)) = true.
Proof.
  induction s as [ | c s IH ]; [ auto | ]. intros H. simpl.
  destruct (Decoder.is_digit c); [ | exact H ].
  apply text_ok_cons in H as (_ & _ & H). specialize (IH H).
  destruct (Decoder.scan_digits s). exact IH.
Qed.

Lemma match_integer_ok s ds r :
  text_ok s = true -> Decoder.match_integer s = Some (ds, r) -> text_ok r = true.
Proof.
  intros Hs. unfold Decoder.match_integer.
  destruct s as [ | c s ]; [ discriminate | ].
  destruct (c =? 48).
  - intros [= _ <-]. apply text_ok_cons in Hs as (_ & _ & Hs). exact Hs.
  - destruct (Decoder.is_digit c); [ | discriminate ].
    pose proof (scan_digits_ok (c :: s) Hs) as Hr.
    destruct (Decoder.scan_digits (c :: s)) as [d' r'].
    intros [= _ <-]. exact Hr.
Qed.

Lemma match_fraction_ok s ds r :
  text_ok s = true -> Decoder.match_fraction s = Some (ds, r) -> text_ok r = true.
Proof.
  intros Hs. unfold Decoder.match_fraction.
  destruct s as [ | c [ | c1 s ] ]; try discriminate.
  destruct ((c =? 46) && Decoder.is_digit c1); [ | discriminate ].
  apply text_ok_cons in Hs as (_ & _ & Hs).
  pose proof (scan_digits_ok (c1 :: s) Hs) as Hr.
  destruct (Decoder.scan_digits (c1 :: s)) as [d' r'].
  intros [= _ <-]. exact Hr.
Qed.

Lemma match_exponent_ok s x r :
  text_ok s = true -> Decoder.match_exponent s = Some (x, r) -> text_ok r = true.
Proof.
  intros Hs. unfold Decoder.match_exponent.
  destruct s as [ | c s1 ]; [ discriminate | ].
  destruct ((c =? 101) || (c =? 69)); [ | discriminate ].
  apply text_ok_cons in Hs as (_ & _ & Hs1).
  assert (Hs2 : text_ok
                  (snd (match s1 with
                        | c1 :: r0 =>
                            if c1 =? 45 then (true, r0)
                            else if c1 =? 43 then (false, r0) else (false, s1)
                        | [] => (false, s1)
                        end)) = true).
  { destruct s1 as [ | c1 r0 ]; [ exact Hs1 | ].
    destruct (c1 =? 45); [ apply text_ok_cons in Hs1 as (_ & _ & H); exact H | ].
    destruct (c1 =? 43); [ apply text_ok_cons in Hs1 as (_ & _ & H); exact H | ].
    exact Hs1. }
  destruct (match s1 with
            | c1 :: r0 =>
                if c1 =? 45 then (true, r0)
                else if c1 =? 43 then (false, r0) else (false, s1)
            | [] => (false, s1)
            end) as [negative s2].
  cbn [snd] in Hs2. destruct s2 as [ | c2 s2 ]; [ discriminate | ].
  destruct (Decoder.is_digit c2); [ | discriminate ].
  pose proof (scan_digits_ok (c2 :: s2) Hs2) as Hr.
  destruct (Decoder.scan_digits (c2 :: s2)) as [d' r'].
  intros [= _ <-]. exact Hr.
Qed.

Lemma match_number_ok negative s o rest :
  Decoder.match_number negative s = Some (o, rest) ->
  text_ok s = true -> doc_ok o = true /\ text_ok rest = true.
Proof.
  unfold Decoder.match_number. intros H Hs.
  destruct (Decoder.match_integer s) as [[integer r] | ] eqn:Em; [ | discriminate ].
  pose proof (match_integer_ok s integer r Hs Em) as Hr.
  assert (Hr1 : text_ok
                  (snd (match Decoder.match_fraction r with
                        | Some (ds, r0) => (Some ds, r0)
                        | None => (None, r)
                        end)) = true).
  { destruct (Decoder.match_fraction r) as [[ds r0] | ] eqn:Ef; [ | exact Hr ].
    eapply match_fraction_ok; eassumption. }
  destruct (match Decoder.match_fraction r with
            | Some (ds, r0) => (Some ds, r0)
            | None => (None, r)
            end) as [frac rest1].
  cbn [snd] in Hr1.
  assert (Hr2 : text_ok
                  (snd (match Decoder.match_exponent rest1 with
                        | Some (x, r0) => (Some x, r0)
                        | None => (None, rest1)
                        end)) = true).
  { destruct (Decoder.match_exponent rest1) as [[x r0] | ] eqn:Ee; [ | exact Hr1 ].
    eapply match_exponent_ok; eassumption. }
  destruct (match Decoder.match_exponent rest1 with
            | Some (x, r0) => (Some x, r0)
            | None => (None, rest1)
            end) as [exp rest2].
  cbn [snd] in Hr2.
  destruct frac as [ds | ], exp as [x | ]; injection H as <- <-;
    (split; [ | assumption ]); try reflexivity;
    cbn [doc_ok]; apply of_Q_ok.
Qed.

Lemma parse_number_ok s o rest :
  Decoder.parse_number s = Some (o, rest) ->
  text_ok s = true -> doc_ok o = true /\ text_ok rest = true.
Proof.
  unfold Decoder.parse_number. destruct s as [ | c s ]; [ discriminate | ].
  destruct (c =? 45); intros H Hs.
  - apply text_ok_cons in Hs as (_ & _ & Hs). eapply match_number_ok; eassumption.
  - eapply match_number_ok; eassumption.
Qed.

Lemma prepend_some {A} (c : A) r cs rest :
  Decoder.prepend c r = Some (cs, rest) ->
  exists cs', r = Some (cs', rest) /\ cs = c :: cs'.
Proof.
  destruct r as [[cs' rest'] | ]; [ | discriminate ].
  intros [= <- <-]. eauto.
Qed.

Lemma unescape_plain esc ch :
  Decoder.unescape esc = Some ch -> ch < 128.
Proof.
  unfold Decoder.unescape.
  repeat match goal with
         | |- context [if ?b then _ else _] => destruct b
         end; intros [= <-]; unfold QUOTE, BACKSLASH; lia.
Qed.

Lemma plain_not_surrogate c :
  c < 128 ->
  c < 1114112 /\ Decoder.is_high_surrogate c = false
  /\ Decoder.is_low_surrogate c = false.
Proof.
  intros Hc. split; [ lia | ].
  apply surrogate_kinds. unfold is_surrogate.
  apply andb_false_iff. left. apply N.leb_gt. lia.
Qed.

Lemma joined_pair_range uni uni2 :
  Decoder.is_high_surrogate uni = true ->
  Decoder.is_low_surrogate uni2 = true ->
  let c := 65536 + N.lor (N.shiftl (uni - 55296) 10) (uni2 - 56320) in
  c < 1114112 /\ Decoder.is_high_surrogate c = false
  /\ Decoder.is_low_surrogate c = false.
Proof.
  unfold Decoder.is_high_surrogate, Decoder.is_low_surrogate. intros Hh Hl.
  apply andb_true_iff in Hh as [Hh1 Hh2]. apply andb_true_iff in Hl as [Hl1 Hl2].
  apply N.leb_le in Hh1, Hh2, Hl1, Hl2.
  rewrite N.shiftl_mul_pow2, (lor_high_low (uni - 55296) (uni2 - 56320) 10)
    by (change (2 ^ 10) with 1024; lia).
  change (2 ^ 10) with 1024. cbv zeta.
  split; [ lia | ].
  split; apply andb_false_iff; right; apply N.leb_gt; lia.
Qed.

End DecodedText.

Section DecodedStrings.

Local Arguments Decoder.strip_prefix : simpl never.
Local Arguments Decoder.decode_uXXXX : simpl never.

Lemma str_ok_cons c s :
  c < 1114112 ->
  (Decoder.is_high_surrogate c = true ->
   match s with c' :: _ => Decoder.is_low_surrogate c' = false | [] => True end) ->
  str_ok s = true ->
  str_ok (c :: s) = true.
Proof.
  intros Hc Hpair Hs. cbn [str_ok]. rewrite Hs, andb_true_r.
  apply andb_true_iff. split; [ apply N.ltb_lt, Hc | ].
  apply negb_true_iff.
  destruct (Decoder.is_high_surrogate c); [ | reflexivity ].
  specialize (Hpair eq_refl). destruct s as [ | c' s ]; [ reflexivity | ].
  rewrite Hpair. reflexivity.
Qed.

(** The string that [scanstring] returns is well formed, and it starts
    with a low surrogate only if the text started with the escape of
    one. *)
Lemma scanstring_ok fuel :
  forall s str rest,
    Decoder.scanstring fuel s = Some (str, rest) ->
    text_ok s = true ->
    str_ok str = true /\ text_ok rest = true
    /\ match str with
       | c :: _ => Decoder.is_low_surrogate c = true -> joins_low s = true
       | [] => True
       end.
Proof.
  induction fuel as [ | fuel IH ]; intros s str rest H Hs; [ discriminate | ].
  destruct s as [ | c s ]; [ discriminate | ].
  destruct (text_ok_cons c s Hs) as (Hc & Hsur & Hs').
  destruct (surrogate_kinds c Hsur) as [Hchigh Hclow].
  simpl in H.
  destruct (c =? QUOTE) eqn:Eq.
  { injection H as <- <-. auto. }
  destruct (c =? BACKSLASH) eqn:Ebs.
  - apply N.eqb_eq in Ebs. subst c.
    destruct s as [ | esc rest1 ]; [ discriminate | ].
    apply text_ok_cons in Hs' as (_ & _ & Hrest1).
    destruct (esc =? 117) eqn:Eu.
    + apply N.eqb_eq in Eu. subst esc.
      destruct (Decoder.decode_uXXXX rest1) as [[uni rest2] | ] eqn:Ed; [ | discriminate ].
      destruct (decode_uXXXX_ok _ _ _ Ed) as [Huni Hrest2]. specialize (Hrest2 Hrest1).
      assert (Hsingle : forall str2,
                 Decoder.scanstring fuel rest2 = Some (str2, rest) ->
                 (Decoder.is_high_surrogate uni = true -> joins_low rest2 = false) ->
                 str_ok (uni :: str2) = true /\ text_ok rest = true
                 /\ (Decoder.is_low_surrogate uni = true ->
                     joins_low (BACKSLASH :: 117 :: rest1) = true)).
      { intros str2 E2 Hjoin.
        destruct (IH _ _ _ E2 Hrest2) as (Hstr2 & Hrest & Hhead).
        split; [ | split; [ exact Hrest | ] ].
        - apply str_ok_cons; [ lia | | exact Hstr2 ].
          intros Hhigh. specialize (Hjoin Hhigh).
          destruct str2 as [ | c' str2 ]; [ exact I | ].
          destruct (Decoder.is_low_surrogate c'); [ | reflexivity ].
          specialize (Hhead eq_refl). congruence.
        - intros Hlow. unfold joins_low.
          change (BACKSLASH :: 117 :: rest1) with ([BACKSLASH; 117] ++ rest1).
          rewrite strip_prefix_app, Ed. exact Hlow. }
      destruct (Decoder.is_high_surrogate uni) eqn:Ehigh.
      * destruct (Decoder.strip_prefix [BACKSLASH; 117] rest2) as [rest3 | ] eqn:Es.
        -- destruct (Decoder.decode_uXXXX rest3) as [[uni2 rest4] | ] eqn:Ed2;
             [ | discriminate ].
           destruct (Decoder.is_low_surrogate uni2) eqn:Elow.
           ++ apply prepend_some in H as (str4 & E4 & ->).
              destruct (joined_pair_range uni uni2 Ehigh Elow) as (Hj & Hjh & Hjl).
              cbv zeta in Hj, Hjh, Hjl.
              assert (Hrest4 : text_ok rest4 = true).
              { eapply decode_uXXXX_ok; [ exact Ed2 | ].
                eapply strip_prefix_ok; eassumption. }
              destruct (IH _ _ _ E4 Hrest4) as (Hstr4 & Hrest & _).
              split; [ | split; [ exact Hrest | ] ].
              ** apply str_ok_cons; [ exact Hj | congruence | exact Hstr4 ].
              ** congruence.
           ++ apply prepend_some in H as (str2 & E2 & ->).
              apply Hsingle; [ exact E2 | ].
              intros _. unfold joins_low. rewrite Es, Ed2. exact Elow.
        -- apply prepend_some in H as (str2 & E2 & ->).
           apply Hsingle; [ exact E2 | ].
           intros _. unfold joins_low. rewrite Es. reflexivity.
      * apply prepend_some in H as (str2 & E2 & ->).
        apply Hsingle; [ exact E2 | discriminate ].
    + destruct (Decoder.unescape esc) as [ch | ] eqn:Ech; [ | discriminate ].
      apply prepend_some in H as (str1 & E1 & ->).
      destruct (plain_not_surrogate ch (unescape_plain _ _ Ech)) as (Hch & Hchh & Hchl).
      destruct (IH _ _ _ E1 Hrest1) as (Hstr1 & Hrest & _).
      split; [ | split; [ exact Hrest | congruence ] ].
      apply str_ok_cons; [ exact Hch | congruence | exact Hstr1 ].
  - destruct (c <? 32); [ discriminate | ].
    apply prepend_some in H as (str1 & E1 & ->).
    destruct (IH _ _ _ E1 Hs') as (Hstr1 & Hrest & _).
    split; [ | split; [ exact Hrest | congruence ] ].
    apply str_ok_cons; [ exact Hc | congruence | exact Hstr1 ].
Qed.

End DecodedStrings.

Section DecodedDocuments.

Lemma dict_set_keys key v dct :
  map fst (dict_set key v dct)
  = if bool_decide (key ∈ map fst dct) then map fst dct else map fst dct ++ [key].
Proof.
  induction dct as [ | [k v0] dct IH ]; [ reflexivity | ].
  cbn [dict_set map fst]. destruct (decide (k = key)) as [-> | Hne].
  - rewrite bool_decide_eq_true_2 by apply list_elem_of_here. reflexivity.
  - cbn [map fst]. rewrite IH.
    destruct (bool_decide (key ∈ map fst dct)) eqn:E.
    + apply bool_decide_eq_true in E.
      rewrite bool_decide_eq_true_2 by (apply list_elem_of_further, E). reflexivity.
    + apply bool_decide_eq_false in E.
      rewrite bool_decide_eq_false_2; [ reflexivity | ].
      intros Hin. apply elem_of_cons in Hin as [-> | Hin]; contradiction.
Qed.

Lemma dict_set_distinct key v dct :
  NoDup (map fst dct) -> NoDup (map fst (dict_set key v dct)).
Proof.
  intros Hnd. rewrite dict_set_keys.
  destruct (bool_decide (key ∈ map fst dct)) eqn:E; [ exact Hnd | ].
  apply bool_decide_eq_false in E. apply NoDup_app. split; [ exact Hnd | ].
  split; [ | apply NoDup_singleton ].
  intros k Hk Hk'. apply list_elem_of_singleton in Hk'. subst k. contradiction.
Qed.

Lemma dict_set_forall (P : pystr * json -> bool) key v dct :
  P (key, v) = true -> forallb P dct = true -> forallb P (dict_set key v dct) = true.
Proof.
  intros Hkv. induction dct as [ | [k v0] dct IH ]; intros Hall.
  - simpl. rewrite Hkv. reflexivity.
  - cbn [forallb] in Hall. apply andb_true_iff in Hall as [H0 Hrest].
    cbn [dict_set]. destruct (decide (k = key)) as [-> | Hne]; cbn [forallb].
    + rewrite Hkv, Hrest. reflexivity.
    + rewrite H0, IH by exact Hrest. reflexivity.
Qed.

Lemma dict_of_pairs_ok (P : pystr * json -> bool) pairs :
  forallb P pairs = true ->
  NoDup (map fst (Decoder.dict_of_pairs pairs))
  /\ forallb P (Decoder.dict_of_pairs pairs) = true.
Proof.
  unfold Decoder.dict_of_pairs.
  enough (H : forall acc,
             forallb P pairs = true ->
             NoDup (map fst acc) -> forallb P acc = true ->
             NoDup (map fst (fold_left (fun dct kv => dict_set (fst kv) (snd kv) dct)
                               pairs acc))
             /\ forallb P (fold_left (fun dct kv => dict_set (fst kv) (snd kv) dct)
                             pairs acc) = true).
  { intros Hall. apply H; [ exact Hall | apply NoDup_nil_2 | reflexivity ]. }
  induction pairs as [ | [k v] pairs IH ]; intros acc Hall Hnd Hacc; [ auto | ].
  cbn [forallb] in Hall. apply andb_true_iff in Hall as [Hkv Hrest].
  cbn [fold_left fst snd]. apply IH; [ exact Hrest | | ].
  - apply dict_set_distinct, Hnd.
  - apply dict_set_forall; assumption.
Qed.

Lemma scan_once_step fuel c rest :
  Decoder.scan_once (S fuel) (c :: rest)
  = if c =? QUOTE then
      match Decoder.scanstring (S (length rest)) rest with
      | Some (str, r) => Some (JStr str, r)
      | None => None
      end
    else if c =? 123 then
      match Decoder.skip_ws rest with
      | c1 :: r1 =>
          if c1 =? 125 then Some (JObj [], r1)
          else if c1 =? QUOTE then
            match Decoder.object_items fuel r1 with
            | Some (pairs, r) => Some (JObj (Decoder.dict_of_pairs pairs), r)
            | None => None
            end
          else None
      | [] => None
      end
    else if c =? 91 then
      match Decoder.skip_ws rest with
      | c1 :: r1 =>
          if c1 =? 93 then Some (JArr [], r1)
          else
            match Decoder.array_items fuel (c1 :: r1) with
            | Some (values, r) => Some (JArr values, r)
            | None => None
            end
      | [] => None
      end
    else
      match Decoder.strip_prefix (lit "null") (c :: rest) with
      | Some r => Some (JNull, r)
      | None =>
          match Decoder.strip_prefix (lit "true") (c :: rest) with
          | Some r => Some (JBool true, r)
          | None =>
              match Decoder.strip_prefix (lit "false") (c :: rest) with
              | Some r => Some (JBool false, r)
              | None =>
                  match Decoder.strip_prefix (lit "NaN") (c :: rest) with
                  | Some r => Some (JFloat Float.NaN, r)
                  | None =>
                      match Decoder.strip_prefix (lit "Infinity") (c :: rest) with
                      | Some r => Some (JFloat (Float.Infinity false), r)
                      | None =>
                          match Decoder.strip_prefix (lit "-Infinity") (c :: rest) with
                          | Some r => Some (JFloat (Float.Infinity true), r)
                          | None => Decoder.parse_number (c :: rest)
                          end
                      end
                  end
              end
          end
      end.
Proof. reflexivity. Qed.

(** What the scanner and its two loops return is well formed, and so is
    the text left over. *)
Lemma scan_ok fuel :
  (forall s o rest,
      Decoder.scan_once fuel s = Some (o, rest) -> text_ok s = true ->
      doc_ok o = true /\ text_ok rest = true)
  /\ (forall s values rest,
         Decoder.array_items fuel s = Some (values, rest) -> text_ok s = true ->
         forallb doc_ok values = true /\ text_ok rest = true)
  /\ (forall s pairs rest,
         Decoder.object_items fuel s = Some (pairs, rest) -> text_ok s = true ->
         forallb (fun kv => str_ok (fst kv) && doc_ok (snd kv)) pairs = true
         /\ text_ok rest = true).
Proof.
  induction fuel as [ | fuel (IHscan & IHarray & IHobject) ];
    [ repeat split; discriminate | ].
  split; [ | split ].
  - intros s o rest H Hs. destruct s as [ | c s ]; [ discriminate | ].
    rewrite scan_once_step in H.
    destruct (text_ok_cons c s Hs) as (_ & _ & Hs').
    destruct (c =? QUOTE).
    { destruct (Decoder.scanstring (S (length s)) s) as [[str r] | ] eqn:E;
        [ | discriminate ].
      injection H as <- <-.
      destruct (scanstring_ok _ _ _ _ E Hs') as (Hstr & Hr & _). auto. }
    destruct (c =? 123).
    { pose proof (skip_ws_ok s Hs') as Hskip.
      destruct (Decoder.skip_ws s) as [ | c1 r1 ]; [ discriminate | ].
      apply text_ok_cons in Hskip as (_ & _ & Hr1).
      destruct (c1 =? 125); [ injection H as <- <-; auto | ].
      destruct (c1 =? QUOTE); [ | discriminate ].
      destruct (Decoder.object_items fuel r1) as [[pairs r] | ] eqn:E; [ | discriminate ].
      injection H as <- <-.
      destruct (IHobject _ _ _ E Hr1) as [Hpairs Hr].
      destruct (dict_of_pairs_ok _ pairs Hpairs) as [Hnd Hall].
      split; [ | exact Hr ].
      cbn [doc_ok]. rewrite Hall, andb_true_r. apply bool_decide_eq_true, Hnd. }
    destruct (c =? 91).
    { pose proof (skip_ws_ok s Hs') as Hskip.
      destruct (Decoder.skip_ws s) as [ | c1 r1 ]; [ discriminate | ].
      destruct (c1 =? 93).
      - injection H as <- <-. apply text_ok_cons in Hskip as (_ & _ & Hr1). auto.
      - destruct (Decoder.array_items fuel (c1 :: r1)) as [[values r] | ] eqn:E;
          [ | discriminate ].
        injection H as <- <-. destruct (IHarray _ _ _ E Hskip) as [Hvalues Hr]. auto. }
    destruct (Decoder.strip_prefix (lit "null") (c :: s)) as [r | ] eqn:En.
    { injection H as <- <-. split; [ reflexivity | ]. eapply strip_prefix_ok; eassumption. }
    destruct (Decoder.strip_prefix (lit "true") (c :: s)) as [r | ] eqn:Et.
    { injection H as <- <-. split; [ reflexivity | ]. eapply strip_prefix_ok; eassumption. }
    destruct (Decoder.strip_prefix (lit "false") (c :: s)) as [r | ] eqn:Ef.
    { injection H as <- <-. split; [ reflexivity | ]. eapply strip_prefix_ok; eassumption. }
    destruct (Decoder.strip_prefix (lit "NaN") (c :: s)) as [r | ] eqn:Enan.
    { injection H as <- <-. split; [ reflexivity | ]. eapply strip_prefix_ok; eassumption. }
    destruct (Decoder.strip_prefix (lit "Infinity") (c :: s)) as [r | ] eqn:Einf.
    { injection H as <- <-. split; [ reflexivity | ]. eapply strip_prefix_ok; eassumption. }
    destruct (Decoder.strip_prefix (lit "-Infinity") (c :: s)) as [r | ] eqn:Eninf.
    { injection H as <- <-. split; [ reflexivity | ]. eapply strip_prefix_ok; eassumption. }
    eapply parse_number_ok; eassumption.
  - intros s values rest H Hs. rewrite array_items_step in H.
    destruct (Decoder.scan_once fuel s) as [[value r] | ] eqn:E; [ | discriminate ].
    destruct (IHscan _ _ _ E Hs) as [Hvalue Hr].
    pose proof (skip_ws_ok r Hr) as Hskip.
    destruct (Decoder.skip_ws r) as [ | c r1 ]; [ discriminate | ].
    apply text_ok_cons in Hskip as (_ & _ & Hr1).
    destruct (c =? 93).
    + injection H as <- <-. cbn [forallb]. rewrite Hvalue. auto.
    + destruct (c =? COMMA); [ | discriminate ].
      apply prepend_some in H as (values' & E' & ->).
      destruct (IHarray _ _ _ E' (skip_ws_ok r1 Hr1)) as [Hvalues Hrest].
      cbn [forallb]. rewrite Hvalue, Hvalues. auto.
  - intros s pairs rest H Hs. rewrite object_items_step in H.
    destruct (Decoder.scanstring (S (length s)) s) as [[key r] | ] eqn:Ek;
      [ | discriminate ].
    destruct (scanstring_ok _ _ _ _ Ek Hs) as (Hkey & Hr & _).
    pose proof (skip_ws_ok r Hr) as Hskip.
    destruct (Decoder.skip_ws r) as [ | c r1 ]; [ discriminate | ].
    apply text_ok_cons in Hskip as (_ & _ & Hr1).
    destruct (c =? 58); [ | discriminate ].
    destruct (Decoder.scan_once fuel (Decoder.skip_ws r1)) as [[value r2] | ] eqn:Ev;
      [ | discriminate ].
    destruct (IHscan _ _ _ Ev (skip_ws_ok r1 Hr1)) as [Hvalue Hr2].
    pose proof (skip_ws_ok r2 Hr2) as Hskip2.
    destruct (Decoder.skip_ws r2) as [ | c2 r3 ]; [ discriminate | ].
    apply text_ok_cons in Hskip2 as (_ & _ & Hr3).
    destruct (c2 =? 125).
    + injection H as <- <-. cbn [forallb fst snd]. rewrite Hkey, Hvalue. auto.
    + destruct (c2 =? COMMA); [ | discriminate ].
      pose proof (skip_ws_ok r3 Hr3) as Hskip3.
      destruct (Decoder.skip_ws r3) as [ | c3 r4 ]; [ discriminate | ].
      apply text_ok_cons in Hskip3 as (_ & _ & Hr4).
      destruct (c3 =? QUOTE); [ | discriminate ].
      apply prepend_some in H as (pairs' & E' & ->).
      destruct (IHobject _ _ _ E' Hr4) as [Hpairs Hrest].
      cbn [forallb fst snd]. rewrite Hkey, Hvalue, Hpairs. auto.
Qed.

(** Every document read by [json.loads] from UTF-8 text meets [doc_ok]. *)
Lemma loads_doc_ok s o :
  text_ok s = true -> Decoder.loads s = Some o -> doc_ok o = true.
Proof.
  intros Hs. unfold Decoder.loads.
  destruct (match s with c :: _ => c =? 65279 | [] => false end); [ discriminate | ].
  destruct (Decoder.scan_once (S (length s)) (Decoder.skip_ws s)) as [[obj rest] | ] eqn:E;
    [ | discriminate ].
  destruct (Decoder.skip_ws rest); [ | discriminate ].
  intros [= <-].
  destruct (scan_ok (S (length s))) as (Hscan & _ & _).
  apply (Hscan _ _ _ E (skip_ws_ok s Hs)).
Qed.

End DecodedDocuments.

(** The data of a response body that is UTF-8 text survives the trip
    through [save_to_json] and [json.loads] unchanged. *)
Corollary decoded_data_round_trip (body : pystr) (data : json) :
  text_ok body = true ->
  Decoder.loads body = Some data ->
  Decoder.loads (Encoder.dumps (Some 4%nat) data) = Some data.
Proof. intros Hbody Hdata. apply loads_dumps. eapply loads_doc_ok; eassumption. Qed.

(** A pair of surrogates kept as two characters is what [doc_ok] rules
    out: the encoder writes two escapes, which the decoder joins. *)
Example surrogate_pair_joined :
  Decoder.loads (Encoder.dumps (Some 4%nat) (JStr [55357; 56832]))
  = Some (JStr [128512]).
Proof. reflexivity. Qed.

(** ** The characters of JSON text *)

Section Ascii.

Lemma printable_app a b :
  forallb printable (a ++ b) = forallb printable a && forallb printable b.
Proof. apply forallb_app. Qed.

Lemma visible_app a b :
  forallb visible (a ++ b) = forallb visible a && forallb visible b.
Proof. apply forallb_app. Qed.

Lemma visible_printable s : forallb visible s = true -> forallb printable s = true.
Proof.
  induction s as [ | c s IH ]; [ reflexivity | ]. cbn [forallb]. intros H.
  apply andb_true_iff in H as [Hc Hs]. rewrite (IH Hs), andb_true_r.
  unfold printable. unfold visible in Hc. rewrite Hc. reflexivity.
Qed.

Lemma visible_hexdigit d : d < 16 -> visible (Encoder.hexdigit d) = true.
Proof.
  intros Hd.
  assert (H : d = 0 \/ d = 1 \/ d = 2 \/ d = 3 \/ d = 4 \/ d = 5 \/ d = 6 \/ d = 7
              \/ d = 8 \/ d = 9 \/ d = 10 \/ d = 11 \/ d = 12 \/ d = 13 \/ d = 14
              \/ d = 15) by lia.
  repeat (destruct H as [-> | H]; [ reflexivity | ]). subst d. reflexivity.
Qed.

Lemma visible_u_escape n : forallb visible (Encoder.u_escape n) = true.
Proof.
  unfold Encoder.u_escape, Encoder.hex4. cbn [forallb].
  rewrite !visible_hexdigit by (apply N.mod_lt; discriminate). reflexivity.
Qed.

Lemma visible_encode_char c : forallb visible (Encoder.encode_char c) = true.
Proof.
  unfold Encoder.encode_char, Encoder.needs_escape.
  destruct (N.eqb_spec c BACKSLASH) as [-> | Hbs]; [ reflexivity | ].
  destruct (N.eqb_spec c QUOTE) as [-> | Hq]; [ reflexivity | ].
  destruct (N.ltb_spec c 32) as [Hlow | Hlow];
    [ | destruct (N.ltb_spec 126 c) as [Hhigh | Hhigh] ]; cbn [orb].
  3: { cbn [forallb]. unfold visible.
       replace (32 <=? c) with true by (symmetry; apply N.leb_le; lia).
       replace (c <=? 126) with true by (symmetry; apply N.leb_le; lia).
       reflexivity. }
  all: unfold Encoder.escape_char.
  all: repeat match goal with
         | |- context [if ?b then _ else _] => destruct b
         end;
    try reflexivity; try apply visible_u_escape.
  all: cbv zeta; rewrite visible_app, !visible_u_escape; reflexivity.
Qed.

Lemma visible_string s :
  forallb visible (Encoder.encode_basestring_ascii s) = true.
Proof.
  unfold Encoder.encode_basestring_ascii.
  change (QUOTE :: flat_map Encoder.encode_char s ++ [QUOTE])
    with ([QUOTE] ++ flat_map Encoder.encode_char s ++ [QUOTE]).
  rewrite !visible_app. cbn [forallb]. rewrite andb_true_r.
  induction s as [ | c s IH ]; [ reflexivity | ].
  cbn [flat_map]. rewrite visible_app, visible_encode_char. exact IH.
Qed.

Lemma visible_uint d : forallb visible (Encoder.uint_text d) = true.
Proof. induction d; simpl; auto. Qed.

Lemma visible_int z : forallb visible (Encoder.int_repr z) = true.
Proof.
  unfold Encoder.int_repr. destruct (Z.to_int z); cbn [forallb];
    rewrite ?visible_uint; reflexivity.
Qed.

Lemma visible_repeat c n : visible c = true -> forallb visible (repeat c n) = true.
Proof. intros Hc. induction n as [ | n IH ]; [ reflexivity | simpl; rewrite Hc; exact IH ]. Qed.

Lemma visible_firstn n s :
  forallb visible s = true -> forallb visible (firstn n s) = true.
Proof.
  revert n. induction s as [ | c s IH ]; intros [ | n ]; simpl; auto.
  intros H. apply andb_true_iff in H as [Hc Hs]. rewrite Hc. apply IH, Hs.
Qed.

Lemma visible_skipn n s :
  forallb visible s = true -> forallb visible (skipn n s) = true.
Proof.
  revert n. induction s as [ | c s IH ]; intros [ | n ]; simpl; auto.
  intros H. apply andb_true_iff in H as [Hc Hs]. apply IH, Hs.
Qed.

Lemma visible_exponent_text x : forallb visible (Encoder.exponent_text x) = true.
Proof.
  unfold Encoder.exponent_text. rewrite !visible_app, visible_int.
  destruct (x <? 0)%Z, (Z.abs x <? 10)%Z; reflexivity.
Qed.

Lemma visible_format_float ds decpt :
  forallb visible ds = true ->
  forallb visible (Encoder.format_float ds decpt) = true.
Proof.
  intros Hds. unfold Encoder.format_float.
  destruct ((-4 <? decpt) && (decpt <=? 16))%Z.
  - destruct (decpt <=? 0)%Z; [ | destruct (decpt <? Z.of_nat (length ds))%Z ].
    + rewrite !visible_app, visible_repeat, Hds by reflexivity. reflexivity.
    + rewrite !visible_app, visible_firstn, visible_skipn by exact Hds.
      reflexivity.
    + rewrite !visible_app, visible_repeat, Hds by reflexivity. reflexivity.
  - destruct ds as [ | d [ | d' rest ] ]; [ reflexivity | | ].
    + simpl in Hds. cbn [forallb]. rewrite visible_app, visible_exponent_text.
      apply andb_true_iff in Hds as [-> _]. reflexivity.
    + cbn [forallb] in Hds |- *. apply andb_true_iff in Hds as [Hd Hrest].
      rewrite Hd. cbn [andb].
      rewrite !visible_app, visible_exponent_text. cbn [forallb].
      rewrite Hrest. reflexivity.
Qed.

Lemma visible_float_repr x : forallb visible (Encoder.float_repr x) = true.
Proof.
  destruct x as [ negative m e | [ | ] | ]; try reflexivity.
  unfold Encoder.float_repr. rewrite visible_app.
  replace (forallb visible (if negative then lit "-" else [])) with true
    by (destruct negative; reflexivity).
  destruct (m =? 0)%Z; [ reflexivity | ].
  destruct (Float.digits m e) as [c p]. cbv zeta.
  apply visible_format_float, visible_int.
Qed.

Lemma visible_floatstr x : forallb visible (Encoder.floatstr x) = true.
Proof.
  destruct x as [ negative m e | [ | ] | ]; try reflexivity.
  apply visible_float_repr.
Qed.

Lemma printable_newline_indent indent level :
  forallb printable (Encoder.newline_indent indent level) = true.
Proof.
  destruct indent as [width | ]; [ | reflexivity ].
  unfold Encoder.newline_indent. cbn [forallb].
  induction (width * level)%nat as [ | n IH ]; [ reflexivity | exact IH ].
Qed.

Lemma printable_join sep parts :
  forallb printable sep = true ->
  Forall (fun p => forallb printable p = true) parts ->
  forallb printable (join sep parts) = true.
Proof.
  intros Hsep. induction 1 as [ | p parts Hp Hparts IH ]; [ reflexivity | ].
  destruct parts as [ | q parts ]; [ exact Hp | ].
  rewrite join_cons, !printable_app, Hp, Hsep, IH. reflexivity.
Qed.

Lemma printable_separator indent level :
  forallb printable
    (Encoder.item_separator indent ++ Encoder.newline_indent indent level) = true.
Proof.
  rewrite printable_app, printable_newline_indent.
  destruct indent; reflexivity.
Qed.

Lemma printable_iterencode indent o :
  forall level, forallb printable (Encoder.iterencode indent level o) = true.
Proof.
  induction o as [ | b | z | x | s | lst IH | dct IH ] using json_nested_ind; intros level.
  - reflexivity.
  - destruct b; reflexivity.
  - apply visible_printable, visible_int.
  - apply visible_printable, visible_floatstr.
  - apply visible_printable, visible_string.
  - destruct lst as [ | x xs ]; [ reflexivity | ].
    change (Encoder.iterencode indent level (JArr (x :: xs)))
      with (lit "[" ++ Encoder.newline_indent indent (S level)
            ++ join (Encoder.item_separator indent
                     ++ Encoder.newline_indent indent (S level))
                 (map (Encoder.iterencode indent (S level)) (x :: xs))
            ++ Encoder.newline_indent indent level ++ lit "]").
    rewrite !printable_app, !printable_newline_indent, printable_join;
      [ reflexivity | apply printable_separator | ].
    apply Forall_map. eapply Forall_impl; [ exact IH | ]. intros y Hy. apply Hy.
  - destruct dct as [ | kv kvs ]; [ reflexivity | ].
    change (Encoder.iterencode indent level (JObj (kv :: kvs)))
      with (lit "{" ++ Encoder.newline_indent indent (S level)
            ++ join (Encoder.item_separator indent
                     ++ Encoder.newline_indent indent (S level))
                 (map (encode_item indent (S level)) (kv :: kvs))
            ++ Encoder.newline_indent indent level ++ lit "}").
    rewrite !printable_app, !printable_newline_indent, printable_join;
      [ reflexivity | apply printable_separator | ].
    apply Forall_map. eapply Forall_impl; [ exact IH | ]. intros y Hy.
    unfold encode_item.
    rewrite !printable_app, (visible_printable _ (visible_string _)), Hy. reflexivity.
Qed.

End Ascii.

(** ** The layout of indented JSON *)

Section Layout.

Variable width : nat.











End Layout.

(** ** Equality of documents *)

Section Equality.




End Equality.

(** ** The formatters *)

Section FormatterRuns.

Variable codec : N -> bool.
Variable container_repr : json -> pystr.

Lemma open_w_with_file filename w :
  open_w filename w = (Ok tt, with_file w filename []).
Proof. reflexivity. Qed.

Lemma encodable_text_app a b :
  encodable_text codec (a ++ b) = encodable_text codec a && encodable_text codec b.
Proof. apply forallb_app. Qed.

Lemma encodable_text_concat texts :
  encodable_text codec (concat texts) = forallb (encodable_text codec) texts.
Proof.
  induction texts as [ | text texts IH ]; [ reflexivity | ].
  cbn [concat forallb]. rewrite encodable_text_app, IH. reflexivity.
Qed.

(** ASCII text can always be written. *)
Lemma ascii_encodable text :
  forallb (fun c => c <? 128) text = true -> encodable_text codec text = true.
Proof.
  unfold encodable_text. induction text as [ | c text IH ]; [ reflexivity | ].
  cbn [forallb]. intros H. apply andb_true_iff in H as [Hc Htext].
  rewrite (IH Htext), andb_true_r. unfold encodable. rewrite Hc. reflexivity.
Qed.

Lemma printable_encodable text :
  forallb printable text = true -> encodable_text codec text = true.
Proof.
  intros Htext. apply ascii_encodable.
  rewrite forallb_forall in Htext |- *. intros c Hin. specialize (Htext c Hin).
  apply N.ltb_lt. unfold printable, LF in Htext.
  apply orb_true_iff in Htext as [Hc | Hc].
  - apply andb_true_iff in Hc as [_ Hc]. apply N.leb_le in Hc. lia.
  - apply N.eqb_eq in Hc. lia.
Qed.

Lemma write_with_file filename text content w :
  encodable_text codec text = true ->
  write codec filename text (with_file w filename content)
  = (Ok tt, with_file w filename (content ++ text)).
Proof.
  intros Htext. unfold write. rewrite Htext. unfold with_file. simpl.
  rewrite lookup_insert_eq, insert_insert_eq. reflexivity.
Qed.

Lemma write_refused filename text content w :
  encodable_text codec text = false ->
  write codec filename text (with_file w filename content)
  = (Raise UnicodeEncodeError, with_file w filename content).
Proof. intros Htext. unfold write. rewrite Htext. reflexivity. Qed.

Lemma writerow_record filename name historian source oldest latest :
  DictWriter_writerow codec container_repr filename fieldnames
    [(lit "tagName", name); (lit "historianItemId", historian);
     (lit "sourceItemId", source); (lit "oldestTimeStamp", oldest);
     (lit "latestTimeStamp", latest)]
  = write codec filename
      (join [COMMA]
         (map Csv.join_append
            (map (field_text container_repr) [name; historian; source; oldest; latest]))
       ++ [CR; LF]).
Proof. reflexivity. Qed.

Lemma writeheader_line filename :
  DictWriter_writeheader codec container_repr filename fieldnames
  = write codec filename csv_header_line.
Proof. reflexivity. Qed.

Lemma header_written filename w :
  write codec filename csv_header_line (with_file w filename [])
  = (Ok tt, with_file w filename csv_header_line).
Proof. apply write_with_file, ascii_encodable. reflexivity. Qed.

(** A loop whose every round appends to the file appends the rounds'
    texts in order. *)
Lemma for_each_appends (body : json -> M unit) (render : json -> pystr)
    (filename : pystr) (w : World) (items : list json) :
  (forall item content,
      item ∈ items ->
      body item (with_file w filename content)
      = (Ok tt, with_file w filename (content ++ render item))) ->
  forall content,
    for_each items body (with_file w filename content)
    = (Ok tt, with_file w filename (content ++ flat_map render items)).
Proof.
  induction items as [ | item items IH ]; intros Hbody content.
  - simpl. rewrite app_nil_r. reflexivity.
  - simpl. unfold bind. rewrite Hbody by apply list_elem_of_here.
    rewrite IH.
    + rewrite <- app_assoc. reflexivity.
    + intros item' content' Hin. apply Hbody. apply list_elem_of_further. exact Hin.
Qed.

Lemma for_each_app {A} (xs ys : list A) (body : A -> M unit) w :
  for_each (xs ++ ys) body w
  = match for_each xs body w with
    | (Ok _, w') => for_each ys body w'
    | (Raise e, w') => (Raise e, w')
    end.
Proof.
  revert w. induction xs as [ | x xs IH ]; intros w; [ reflexivity | ].
  cbn [app for_each]. unfold bind. destruct (body x w) as [[[] | e] w1]; [ | reflexivity ].
  apply IH.
Qed.

(** A loop stops at the first round that raises, with what the rounds
    before have appended and what the round itself has written. *)
Lemma for_each_stops (body : json -> M unit) (render : json -> pystr)
    (filename : pystr) (w : World) (good rest : list json) (bad : json)
    (e : exn) (written : pystr) :
  (forall item content,
      item ∈ good ->
      body item (with_file w filename content)
      = (Ok tt, with_file w filename (content ++ render item))) ->
  (forall content,
      body bad (with_file w filename content)
      = (Raise e, with_file w filename (content ++ written))) ->
  forall content,
    for_each (good ++ bad :: rest) body (with_file w filename content)
    = (Raise e, with_file w filename (content ++ flat_map render good ++ written)).
Proof.
  intros Hgood Hbad content. rewrite for_each_app.
  rewrite (for_each_appends body render filename w good Hgood).
  cbn [for_each]. unfold bind. rewrite Hbad, <- app_assoc. reflexivity.
Qed.

(** *** One round of [save_to_csv] *)

Lemma csv_item_error_record item :
  csv_item_error codec container_repr item = None <->
  is_Some (record_fields item)
  /\ encodable_text codec (csv_record_line container_repr item) = true.
Proof.
  unfold csv_item_error, record_fields.
  destruct item as [ | | | | | | rec ];
    try (split; [ discriminate | intros [[? [=]] _] ]).
  destruct (dict_lookup (lit "tagContext") rec) as [ctx | ] eqn:Hctx.
  - destruct (dict_lookup (lit "tagName") rec) as [name | ] eqn:Hname.
    + destruct ctx; try (split; [ discriminate | intros [[? [=]] _] ]).
      destruct (encodable_text codec _); split; try discriminate; eauto.
      intros [_ [=]].
    + split; [ discriminate | intros [[? [=]] _] ].
  - split; [ discriminate | ].
    destruct (dict_lookup (lit "tagName") rec); intros [[? [=]] _].
Qed.

Lemma csv_records_writable items :
  Forall (fun item => is_Some (record_fields item)) items ->
  Forall (fun item => encodable_text codec (csv_record_line container_repr item) = true)
    items ->
  Forall (fun item => csv_item_error codec container_repr item = None) items.
Proof.
  intros Hrec Henc. rewrite Forall_forall in Hrec, Henc |- *. intros item Hin.
  apply csv_item_error_record. split; [ apply Hrec, Hin | apply Henc, Hin ].
Qed.

Lemma save_to_csv_item_written filename item w content :
  csv_item_error codec container_repr item = None ->
  save_to_csv_item codec container_repr filename item (with_file w filename content)
  = (Ok tt, with_file w filename (content ++ csv_record_line container_repr item)).
Proof.
  intros Hnone. apply csv_item_error_record in Hnone as [[[name ctx] Hrec] Henc].
  unfold csv_record_line in Henc |- *. rewrite Hrec in Henc |- *.
  destruct item as [ | | | | | | rec ]; try discriminate. simpl in Hrec.
  destruct (dict_lookup (lit "tagName") rec) as [name' | ] eqn:Hname; [ | discriminate ].
  destruct (dict_lookup (lit "tagContext") rec) as [ [ | | | | | | ctx' ] | ] eqn:Hctx;
    try discriminate.
  injection Hrec as -> ->.
  unfold save_to_csv_item, bind, lift, subscript. rewrite Hctx, Hname.
  unfold py_get. rewrite writerow_record. apply write_with_file. exact Henc.
Qed.

Lemma save_to_csv_item_refused filename item e w content :
  csv_item_error codec container_repr item = Some e ->
  save_to_csv_item codec container_repr filename item (with_file w filename content)
  = (Raise e, with_file w filename content).
Proof.
  unfold csv_item_error, save_to_csv_item, bind, lift, subscript.
  destruct item as [ | | | | | | rec ]; try (intros [= <-]; reflexivity).
  destruct (dict_lookup (lit "tagContext") rec) as [ctx | ] eqn:Hctx;
    [ | intros [= <-]; reflexivity ].
  destruct (dict_lookup (lit "tagName") rec) as [name | ] eqn:Hname;
    [ | intros [= <-]; reflexivity ].
  destruct ctx as [ | | | | | | ctx ]; try (intros [= <-]; reflexivity).
  unfold csv_record_line, record_fields. rewrite Hname, Hctx.
  destruct (encodable_text codec _) eqn:Henc; [ discriminate | ].
  intros [= <-]. unfold py_get. rewrite writerow_record.
  apply write_refused. exact Henc.
Qed.

(** [save_to_csv] on a list whose every item can be written, and on a list
    with a first item that cannot. *)
Lemma save_to_csv_written items filename w :
  Forall (fun item => csv_item_error codec container_repr item = None) items ->
  save_to_csv codec container_repr (JArr items) filename w
  = (Ok tt,
     with_file w filename
       (csv_header_line ++ flat_map (csv_record_line container_repr) items)).
Proof.
  intros Hall. unfold save_to_csv, bind.
  rewrite open_w_with_file, writeheader_line, header_written.
  unfold lift, py_iter. cbv beta iota.
  apply for_each_appends. intros item content Hin.
  rewrite Forall_forall in Hall. apply save_to_csv_item_written, Hall, Hin.
Qed.

Lemma save_to_csv_stops good bad rest e filename w :
  Forall (fun item => csv_item_error codec container_repr item = None) good ->
  csv_item_error codec container_repr bad = Some e ->
  save_to_csv codec container_repr (JArr (good ++ bad :: rest)) filename w
  = (Raise e,
     with_file w filename
       (csv_header_line ++ flat_map (csv_record_line container_repr) good)).
Proof.
  intros Hgood Hbad. unfold save_to_csv, bind.
  rewrite open_w_with_file, writeheader_line, header_written.
  unfold lift, py_iter. cbv beta iota.
  rewrite (for_each_stops _ (csv_record_line container_repr) filename w good rest bad e []).
  - rewrite app_nil_r. reflexivity.
  - intros item content Hin. rewrite Forall_forall in Hgood.
    apply save_to_csv_item_written, Hgood, Hin.
  - intros content. rewrite app_nil_r. apply save_to_csv_item_refused, Hbad.
Qed.

(** *** One round of [save_to_txt] *)

Lemma context_writes_block name ctx :
  (lit "TagName: " ++ py_str container_repr name ++ [LF])
  ++ concat (context_writes container_repr ctx) ++ [LF]
  = flat_map (fun line => line ++ [LF]) (txt_lines container_repr name ctx) ++ [LF].
Proof.
  unfold context_writes, txt_lines, txt_value. cbn [concat flat_map].
  rewrite !app_nil_r, <- !app_assoc. reflexivity.
Qed.

Lemma written_before_refusal_none texts :
  written_before_refusal codec texts = None <->
  encodable_text codec (concat texts) = true.
Proof.
  induction texts as [ | text texts IH ]; [ split; reflexivity | ].
  cbn [written_before_refusal concat]. rewrite encodable_text_app.
  destruct (encodable_text codec text); [ | split; discriminate ].
  cbn [andb]. rewrite <- IH.
  destruct (written_before_refusal codec texts); split; intros H;
    try discriminate; reflexivity.
Qed.

Lemma txt_item_error_record item :
  txt_item_error codec container_repr item = None <->
  is_Some (record_fields item)
  /\ encodable_text codec (txt_record_block container_repr item) = true.
Proof.
  unfold txt_item_error, txt_record_block, record_fields.
  destruct item as [ | | | | | | rec ];
    try (split; [ discriminate | intros [[? [=]] _] ]).
  destruct (dict_lookup (lit "tagName") rec) as [name | ] eqn:Hname;
    [ | split; [ discriminate | intros [[? [=]] _] ] ].
  cbv zeta.
  destruct (dict_lookup (lit "tagContext") rec) as [ctx | ] eqn:Hctx.
  - destruct ctx as [ | | | | | | ctx ];
      try (destruct (encodable_text codec _);
           (split; [ discriminate | intros [[? [=]] _] ])).
    rewrite <- context_writes_block.
    rewrite (encodable_text_app (lit "TagName: " ++ py_str container_repr name ++ [LF])).
    rewrite (encodable_text_app (concat _) [LF]).
    destruct (encodable_text codec (lit "TagName: " ++ _)) eqn:Hfirst;
      [ | split; [ discriminate | intros [_ [=]] ] ].
    cbn [andb]. change (encodable_text codec [LF]) with true. rewrite andb_true_r.
    rewrite <- written_before_refusal_none.
    destruct (written_before_refusal codec _); split; try discriminate; eauto.
    intros [_ [=]].
  - destruct (encodable_text codec _); split; try discriminate; intros [[? [=]] _].
Qed.

Lemma txt_records_writable items :
  Forall (fun item => is_Some (record_fields item)) items ->
  Forall (fun item => encodable_text codec (txt_record_block container_repr item) = true)
    items ->
  Forall (fun item => txt_item_error codec container_repr item = None) items.
Proof.
  intros Hrec Henc. rewrite Forall_forall in Hrec, Henc |- *. intros item Hin.
  apply txt_item_error_record. split; [ apply Hrec, Hin | apply Henc, Hin ].
Qed.

Lemma write_context_line_record filename rec ctx label field content w :
  dict_lookup (lit "tagContext") rec = Some (JObj ctx) ->
  write_context_line codec container_repr filename (JObj rec) label field
    (with_file w filename content)
  = write codec filename
      (label ++ py_str container_repr (context_value ctx field) ++ [LF])
      (with_file w filename content).
Proof.
  intros Hctx. unfold write_context_line, bind, lift, subscript. rewrite Hctx.
  reflexivity.
Qed.

Lemma save_to_txt_item_written filename item w content :
  txt_item_error codec container_repr item = None ->
  save_to_txt_item codec container_repr filename item (with_file w filename content)
  = (Ok tt, with_file w filename (content ++ txt_record_block container_repr item)).
Proof.
  intros Hnone. apply txt_item_error_record in Hnone as [[[name ctx] Hrec] Henc].
  unfold txt_record_block in Henc |- *. rewrite Hrec in Henc |- *.
  destruct item as [ | | | | | | rec ]; try discriminate. simpl in Hrec.
  destruct (dict_lookup (lit "tagName") rec) as [name' | ] eqn:Hname; [ | discriminate ].
  destruct (dict_lookup (lit "tagContext") rec) as [ [ | | | | | | ctx' ] | ] eqn:Hctx;
    try discriminate.
  injection Hrec as -> ->.
  rewrite <- context_writes_block in Henc |- *.
  rewrite (encodable_text_app (lit "TagName: " ++ py_str container_repr name ++ [LF])),
    (encodable_text_app (concat _) [LF]), encodable_text_concat in Henc.
  unfold context_writes in Henc |- *. cbn [forallb] in Henc.
  repeat match goal with
         | H : andb _ _ = true |- _ => apply andb_true_iff in H as [? ?]
         end.
  unfold save_to_txt_item, bind. unfold lift at 1, subscript at 1. rewrite Hname.
  rewrite write_with_file by assumption.
  repeat (rewrite (write_context_line_record _ _ _ _ _ _ _ Hctx);
          rewrite write_with_file by assumption).
  rewrite write_with_file by reflexivity.
  cbn [concat]. rewrite !app_nil_r, <- !app_assoc. reflexivity.
Qed.

Lemma save_to_txt_item_refused filename item e written w content :
  txt_item_error codec container_repr item = Some (e, written) ->
  save_to_txt_item codec container_repr filename item (with_file w filename content)
  = (Raise e, with_file w filename (content ++ written)).
Proof.
  unfold txt_item_error, save_to_txt_item, bind.
  unfold lift at 1, subscript at 1.
  destruct item as [ | | | | | | rec ];
    try (intros [= <- <-]; rewrite app_nil_r; reflexivity).
  destruct (dict_lookup (lit "tagName") rec) as [name | ] eqn:Hname;
    [ | intros [= <- <-]; rewrite app_nil_r; reflexivity ].
  cbv zeta.
  destruct (encodable_text codec (lit "TagName: " ++ _)) eqn:Hfirst.
  2: { intros [= <- <-]. rewrite write_refused by exact Hfirst.
       rewrite app_nil_r. reflexivity. }
  rewrite write_with_file by exact Hfirst.
  destruct (dict_lookup (lit "tagContext") rec) as [ctx | ] eqn:Hctx.
  2: { intros [= <- <-]. unfold write_context_line, bind, lift, subscript.
       rewrite Hctx. reflexivity. }
  destruct ctx as [ | | | | | | ctx ];
    try (intros [= <- <-]; unfold write_context_line, bind, lift, subscript;
         rewrite Hctx; reflexivity).
  unfold context_writes. cbn [written_before_refusal].
  repeat match goal with
         | |- context [if encodable_text codec ?t then _ else _] =>
             destruct (encodable_text codec t) eqn:?
         end;
    cbn [option_map]; try discriminate; intros [= <- <-];
    repeat (rewrite (write_context_line_record _ _ _ _ _ _ _ Hctx);
            first [ rewrite write_with_file by assumption
                  | rewrite write_refused by assumption ]);
    rewrite ?app_nil_r, <- ?app_assoc; reflexivity.
Qed.

Lemma save_to_txt_written items filename w :
  Forall (fun item => txt_item_error codec container_repr item = None) items ->
  save_to_txt codec container_repr (JArr items) filename w
  = (Ok tt, with_file w filename (flat_map (txt_record_block container_repr) items)).
Proof.
  intros Hall. unfold save_to_txt, bind.
  rewrite open_w_with_file. unfold lift, py_iter. cbv beta iota.
  change (flat_map (txt_record_block container_repr) items)
    with ([] ++ flat_map (txt_record_block container_repr) items).
  apply for_each_appends. intros item content Hin.
  rewrite Forall_forall in Hall. apply save_to_txt_item_written, Hall, Hin.
Qed.

Lemma save_to_txt_stops good bad rest e written filename w :
  Forall (fun item => txt_item_error codec container_repr item = None) good ->
  txt_item_error codec container_repr bad = Some (e, written) ->
  save_to_txt codec container_repr (JArr (good ++ bad :: rest)) filename w
  = (Raise e,
     with_file w filename
       (flat_map (txt_record_block container_repr) good ++ written)).
Proof.
  intros Hgood Hbad. unfold save_to_txt, bind.
  rewrite open_w_with_file. unfold lift, py_iter. cbv beta iota.
  rewrite (for_each_stops _ (txt_record_block container_repr) filename w good rest bad
             e written).
  - reflexivity.
  - intros item content Hin. rewrite Forall_forall in Hgood.
    apply save_to_txt_item_written, Hgood, Hin.
  - intros content. apply save_to_txt_item_refused, Hbad.
Qed.

(** [save_to_json] writes ASCII text, which every encoding has. *)
Lemma save_to_json_text data filename w :
  save_to_json codec data filename w
  = (Ok tt, with_file w filename (Encoder.dumps (Some 4%nat) data)).
Proof.
  unfold save_to_json, bind. rewrite open_w_with_file.
  apply write_with_file, printable_encodable, printable_iterencode.
Qed.

End FormatterRuns.

(** ** The claims on the formatters *)

Section FormatterFacts.

Variable codec : N -> bool.
Variable container_repr : json -> pystr.

Lemma no_newline_app a b :
  no_newline (a ++ b) = no_newline a && no_newline b.
Proof. apply forallb_app. Qed.

Lemma no_newline_join_append cell :
  no_newline cell = true -> no_newline (Csv.join_append cell) = true.
Proof.
  intros Hcell.
  assert (Hdata : no_newline (Csv.field_data cell) = true).
  { induction cell as [ | c cell IH ]; [ reflexivity | ].
    simpl in Hcell. apply andb_true_iff in Hcell as [Hc Hrest].
    unfold Csv.field_data. simpl. fold (Csv.field_data cell).
    destruct (c =? QUOTE) eqn:Eq; simpl.
    - apply IH, Hrest.
    - rewrite Hc. apply IH, Hrest. }
  unfold Csv.join_append. destruct (Csv.quoted cell); [ | exact Hdata ].
  change (QUOTE :: Csv.field_data cell ++ [QUOTE])
    with ([QUOTE] ++ Csv.field_data cell ++ [QUOTE]).
  rewrite !no_newline_app, Hdata. reflexivity.
Qed.

Lemma no_newline_join cells :
  forallb no_newline cells = true ->
  no_newline (join [COMMA] (map Csv.join_append cells)) = true.
Proof.
  induction cells as [ | cell cells IH ]; [ reflexivity | ].
  intros Hcells. simpl in Hcells. apply andb_true_iff in Hcells as [Hcell Hrest].
  destruct cells as [ | cell' cells ].
  - simpl. apply no_newline_join_append, Hcell.
  - change (join [COMMA] (map Csv.join_append (cell :: cell' :: cells)))
      with (Csv.join_append cell ++ [COMMA]
            ++ join [COMMA] (map Csv.join_append (cell' :: cells))).
    rewrite !no_newline_app, no_newline_join_append, IH by assumption. reflexivity.
Qed.

(** A text without line ends, followed by [\r\n], is one line. *)
Lemma line_count_terminated line rest :
  no_newline line = true ->
  line_count (line ++ [CR; LF] ++ rest) = S (line_count rest).
Proof.
  induction line as [ | c line IH ]; intros Hline; [ reflexivity | ].
  simpl in Hline. apply andb_true_iff in Hline as [Hc Hrest].
  apply negb_true_iff, orb_false_iff in Hc as [Hcr Hlf].
  change ((c :: line) ++ [CR; LF] ++ rest) with (c :: (line ++ [CR; LF] ++ rest)).
  cbn [line_count]. rewrite Hlf, Hcr. apply IH, Hrest.
Qed.

Lemma line_count_records items :
  Forall (fun item => record_plain container_repr item = true) items ->
  line_count (flat_map (csv_record_line container_repr) items) = length items.
Proof.
  induction 1 as [ | item items Hitem _ IH ]; [ reflexivity | ].
  cbn [flat_map length]. unfold csv_record_line at 1. unfold record_plain in Hitem.
  destruct (record_fields item) as [[name ctx] | ]; [ | discriminate ].
  rewrite <- app_assoc, line_count_terminated by (apply no_newline_join, Hitem).
  rewrite IH. reflexivity.
Qed.

Lemma record_plain_fields item :
  record_plain container_repr item = true -> is_Some (record_fields item).
Proof.
  unfold record_plain. destruct (record_fields item); [ eauto | discriminate ].
Qed.

(** Records whose lines can be encoded are written by [save_to_csv]. *)
Lemma save_to_csv_records items filename w :
  Forall (fun item => is_Some (record_fields item)) items ->
  Forall (fun item => encodable_text codec (csv_record_line container_repr item) = true)
    items ->
  save_to_csv codec container_repr (JArr items) filename w
  = (Ok tt,
     with_file w filename
       (csv_header_line ++ flat_map (csv_record_line container_repr) items)).
Proof.
  intros Hrec Henc. apply save_to_csv_written, csv_records_writable; assumption.
Qed.

Lemma save_to_txt_records items filename w :
  Forall (fun item => is_Some (record_fields item)) items ->
  Forall (fun item => encodable_text codec (txt_record_block container_repr item) = true)
    items ->
  save_to_txt codec container_repr (JArr items) filename w
  = (Ok tt, with_file w filename (flat_map (txt_record_block container_repr) items)).
Proof.
  intros Hrec Henc. apply save_to_txt_written, txt_records_writable; assumption.
Qed.

(** C6 (as amended): on records whose cells hold no carriage return and no
    line feed and whose lines the encoding of the file can encode,
    [save_to_csv] leaves the header line with the five column names in their
    order, then one line per record, so one line more than there are records. *)
Theorem save_to_csv_line_count (items : list json) (filename : pystr) (w : World) :
  Forall (fun item => record_plain container_repr item = true) items ->
  Forall (fun item => encodable_text codec (csv_record_line container_repr item) = true)
    items ->
  exists content,
    save_to_csv codec container_repr (JArr items) filename w
      = (Ok tt, with_file w filename content)
    /\ content
       = lit "tagName,historianItemId,sourceItemId,oldestTimeStamp,latestTimeStamp"
         ++ [CR; LF] ++ flat_map (csv_record_line container_repr) items
    /\ line_count content = S (length items).
Proof.
  intros Hplain Henc. eexists. split; [ | split ].
  - apply save_to_csv_records; [ | exact Henc ].
    eapply Forall_impl; [ exact Hplain | ]. intros item. apply record_plain_fields.
  - unfold csv_header_line. rewrite <- app_assoc. reflexivity.
  - unfold csv_header_line. rewrite <- app_assoc, line_count_terminated by reflexivity.
    rewrite line_count_records by exact Hplain. reflexivity.
Qed.

(** C8 (as amended): on a non-empty list of records whose blocks the encoding
    of the file can encode, [save_to_txt] leaves one block per record, in
    order: the five labelled lines [TagName], [HistorianItemId],
    [SourceItemId], [OldestTimeStamp], [LatestTimeStamp], each ended by a
    newline, then an empty line; so the file ends with a newline after the
    last block. *)
Theorem save_to_txt_blocks (items : list json) (filename : pystr) (w : World) :
  items <> [] ->
  Forall (fun item => is_Some (record_fields item)) items ->
  Forall (fun item => encodable_text codec (txt_record_block container_repr item) = true)
    items ->
  exists content,
    save_to_txt codec container_repr (JArr items) filename w
      = (Ok tt, with_file w filename content)
    /\ content = flat_map (txt_record_block container_repr) items
    /\ exists body, content = body ++ [LF; LF].
Proof.
  intros Hne Hall Henc. eexists. split; [ apply save_to_txt_records; assumption | ].
  split; [ reflexivity | ].
  destruct (exists_last Hne) as (init & last & ->).
  rewrite flat_map_app. cbn [flat_map]. rewrite app_nil_r.
  apply Forall_app in Hall as [_ Hlast]. inversion Hlast as [ | ? ? [[name ctx] Hrec] _ ].
  unfold txt_record_block at 2. rewrite Hrec. unfold txt_lines. cbn [flat_map].
  rewrite app_nil_r.
  eexists. rewrite !app_assoc. rewrite <- (app_assoc _ [LF] [LF]). reflexivity.
Qed.

(** A loop with a round that raises does not end normally. *)
Lemma for_each_raises (body : json -> M unit) (filename : pystr) (w : World)
    (items : list json) :
  Forall (fun item =>
            forall content,
              exists r content',
                body item (with_file w filename content)
                = (r, with_file w filename content')) items ->
  Exists (fun item =>
            forall content,
              exists e content',
                body item (with_file w filename content)
                = (Raise e, with_file w filename content')) items ->
  forall content,
    exists e content',
      for_each items body (with_file w filename content)
      = (Raise e, with_file w filename content').
Proof.
  intros Hall Hbad. induction Hbad as [ item items Hitem | item items _ IH ];
    intros content; cbn [for_each]; unfold bind.
  - destruct (Hitem content) as (e & content' & ->). eauto.
  - inversion Hall as [ | ? ? Hitem Hrest ]; subst.
    destruct (Hitem content) as ([[] | e] & content' & ->); [ | eauto ].
    apply IH, Hrest.
Qed.

Lemma save_to_csv_item_frame filename item w content :
  exists r content',
    save_to_csv_item codec container_repr filename item (with_file w filename content)
    = (r, with_file w filename content').
Proof.
  destruct (csv_item_error codec container_repr item) as [e | ] eqn:Herr.
  - erewrite save_to_csv_item_refused by exact Herr. eauto.
  - rewrite save_to_csv_item_written by exact Herr. eauto.
Qed.

Lemma save_to_txt_item_frame filename item w content :
  exists r content',
    save_to_txt_item codec container_repr filename item (with_file w filename content)
    = (r, with_file w filename content').
Proof.
  destruct (txt_item_error codec container_repr item) as [[e written] | ] eqn:Herr.
  - erewrite save_to_txt_item_refused by exact Herr. eauto.
  - rewrite save_to_txt_item_written by exact Herr. eauto.
Qed.

Lemma csv_item_error_lacking item :
  lacks (lit "tagName") item \/ lacks (lit "tagContext") item ->
  exists key,
    lacks key item /\ csv_item_error codec container_repr item = Some (KeyError key).
Proof.
  destruct item as [ | | | | | | rec ]; try solve [ intros [[] | []] ].
  unfold lacks, csv_item_error.
  destruct (dict_lookup (lit "tagContext") rec) as [ctx | ] eqn:Hctx; [ | eauto ].
  intros [Hname | ?]; [ | discriminate ]. rewrite Hname. eauto.
Qed.

Lemma txt_item_error_lacking item :
  lacks (lit "tagName") item \/ lacks (lit "tagContext") item ->
  exists e written, txt_item_error codec container_repr item = Some (e, written).
Proof.
  destruct item as [ | | | | | | rec ]; try solve [ intros [[] | []] ].
  unfold lacks, txt_item_error.
  destruct (dict_lookup (lit "tagName") rec) as [name | ] eqn:Hname; [ | eauto ].
  intros [? | Hctx]; [ discriminate | ]. rewrite Hctx. cbv zeta.
  destruct (encodable_text codec _); eauto.
Qed.

(** C9 (as amended): [save_to_csv] and [save_to_txt] need [tagName] and
    [tagContext] in every record: on a list with a record that lacks one of
    the two, neither formatter ends normally.  When the records before it
    have both, with a dictionary under [tagContext], and their text can be
    encoded, the error of [save_to_csv] is the [KeyError] of a key the
    record lacks, and the file holds the header and their lines; so is the
    error of [save_to_txt] when it is [tagName] that is missing, or when
    the line of the name can be encoded. *)
Theorem formatters_need_both_keys (good rest : list json) (bad : json)
    (filename : pystr) (w : World) :
  lacks (lit "tagName") bad \/ lacks (lit "tagContext") bad ->
  (exists e w',
      save_to_csv codec container_repr (JArr (good ++ bad :: rest)) filename w
      = (Raise e, w'))
  /\ (exists e w',
         save_to_txt codec container_repr (JArr (good ++ bad :: rest)) filename w
         = (Raise e, w'))
  /\ (Forall (fun item => is_Some (record_fields item)) good ->
      Forall (fun item =>
                encodable_text codec (csv_record_line container_repr item) = true)
        good ->
      exists key,
        lacks key bad
        /\ save_to_csv codec container_repr (JArr (good ++ bad :: rest)) filename w
           = (Raise (KeyError key),
              with_file w filename
                (csv_header_line ++ flat_map (csv_record_line container_repr) good)))
  /\ (Forall (fun item => is_Some (record_fields item)) good ->
      Forall (fun item =>
                encodable_text codec (txt_record_block container_repr item) = true)
        good ->
      (forall name,
          subscript bad (lit "tagName") = Ok name ->
          encodable_text codec (lit "TagName: " ++ py_str container_repr name ++ [LF])
          = true) ->
      exists key written,
        lacks key bad
        /\ save_to_txt codec container_repr (JArr (good ++ bad :: rest)) filename w
           = (Raise (KeyError key),
              with_file w filename
                (flat_map (txt_record_block container_repr) good ++ written))).
Proof.
  intros Hlacks. split; [ | split; [ | split ] ].
  - unfold save_to_csv, bind.
    rewrite open_w_with_file, writeheader_line, header_written.
    unfold lift, py_iter. cbv beta iota.
    destruct (for_each_raises (save_to_csv_item codec container_repr filename)
                filename w (good ++ bad :: rest)) with (content := csv_header_line)
      as (e & content' & ->); [ | | eauto ].
    + apply Forall_forall. intros item _ content. apply save_to_csv_item_frame.
    + apply Exists_app. right. apply Exists_cons_hd. intros content.
      destruct (csv_item_error_lacking bad Hlacks) as (key & _ & Herr).
      erewrite save_to_csv_item_refused by exact Herr. eauto.
  - unfold save_to_txt, bind. rewrite open_w_with_file.
    unfold lift, py_iter. cbv beta iota.
    destruct (for_each_raises (save_to_txt_item codec container_repr filename)
                filename w (good ++ bad :: rest)) with (content := @nil N)
      as (e & content' & ->); [ | | eauto ].
    + apply Forall_forall. intros item _ content. apply save_to_txt_item_frame.
    + apply Exists_app. right. apply Exists_cons_hd. intros content.
      destruct (txt_item_error_lacking bad Hlacks) as (e & written & Herr).
      erewrite save_to_txt_item_refused by exact Herr. eauto.
  - intros Hrec Henc.
    destruct (csv_item_error_lacking bad Hlacks) as (key & Hkey & Herr).
    exists key. split; [ exact Hkey | ]. apply save_to_csv_stops; [ | exact Herr ].
    apply csv_records_writable; assumption.
  - intros Hrec Henc Hline.
    assert (Hgood : Forall (fun item => txt_item_error codec container_repr item = None)
                      good)
      by (apply txt_records_writable; assumption).
    destruct bad as [ | | | | | | rec ]; try solve [ destruct Hlacks as [[] | []] ].
    destruct (dict_lookup (lit "tagName") rec) as [name | ] eqn:Hname.
    + destruct Hlacks as [Hlacks | Hlacks]; [ simpl in Hlacks; congruence | ].
      exists (lit "tagContext"), (lit "TagName: " ++ py_str container_repr name ++ [LF]).
      split; [ exact Hlacks | ]. apply save_to_txt_stops; [ exact Hgood | ].
      unfold txt_item_error. rewrite Hname. cbv zeta.
      rewrite (Hline name) by (unfold subscript; rewrite Hname; reflexivity).
      simpl in Hlacks. rewrite Hlacks. reflexivity.
    + exists (lit "tagName"), []. split; [ exact Hname | ].
      apply save_to_txt_stops; [ exact Hgood | ].
      unfold txt_item_error. rewrite Hname. reflexivity.
Qed.

End FormatterFacts.

Lemma save_to_csv_line_count_witness :
  exists content,
    save_to_csv Sample.utf8 Sample.container_repr (JArr [Sample.tag1; Sample.tag2])
      Sample.output_file Sample.empty_world
      = (Ok tt, with_file Sample.empty_world Sample.output_file content)
    /\ content
       = lit "tagName,historianItemId,sourceItemId,oldestTimeStamp,latestTimeStamp"
         ++ [CR; LF]
         ++ flat_map (csv_record_line Sample.container_repr) [Sample.tag1; Sample.tag2]
    /\ line_count content = 3%nat.
Proof.
  apply (save_to_csv_line_count Sample.utf8 Sample.container_repr
           [Sample.tag1; Sample.tag2] Sample.output_file Sample.empty_world).
  - repeat constructor.
  - repeat constructor.
Defined.

(** C6, as stated, fails on a record whose name is a lone surrogate: no cell
    holds a line break, yet the encoder of the file refuses the line, and
    the file is left with the header and the line of the record before. *)
Lemma save_to_csv_refuses_surrogate :
  Forall (fun item => record_plain Sample.container_repr item = true)
    [Sample.tag1; Servers.tag5]
  /\ save_to_csv Sample.utf8 Sample.container_repr (JArr [Sample.tag1; Servers.tag5])
       Sample.output_file Sample.empty_world
     = (Raise UnicodeEncodeError,
        with_file Sample.empty_world Sample.output_file
          (csv_header_line ++ csv_record_line Sample.container_repr Sample.tag1))
  /\ line_count (csv_header_line ++ csv_record_line Sample.container_repr Sample.tag1)
     = 2%nat.
Proof.
  split; [ repeat constructor | ]. split; [ | reflexivity ].
  rewrite (save_to_csv_stops Sample.utf8 Sample.container_repr [Sample.tag1]
             Servers.tag5 [] UnicodeEncodeError).
  - cbn [flat_map]. rewrite app_nil_r. reflexivity.
  - repeat constructor.
  - reflexivity.
Qed.

Lemma save_to_txt_blocks_witness :
  exists content,
    save_to_txt Sample.utf8 Sample.container_repr (JArr [Sample.tag1; Sample.tag2])
      Sample.output_file Sample.empty_world
      = (Ok tt, with_file Sample.empty_world Sample.output_file content)
    /\ content
       = flat_map (txt_record_block Sample.container_repr) [Sample.tag1; Sample.tag2]
    /\ exists body, content = body ++ [LF; LF].
Proof.
  apply (save_to_txt_blocks Sample.utf8 Sample.container_repr
           [Sample.tag1; Sample.tag2] Sample.output_file Sample.empty_world).
  - discriminate.
  - repeat constructor; vm_compute; eauto.
  - repeat constructor.
Defined.

(** C8, as stated, fails on a record whose name is a lone surrogate: the
    first line of its block is refused and the file is left empty. *)
Lemma save_to_txt_refuses_surrogate :
  is_Some (record_fields Servers.tag5)
  /\ save_to_txt Sample.utf8 Sample.container_repr (JArr [Servers.tag5])
       Sample.output_file Sample.empty_world
     = (Raise UnicodeEncodeError,
        with_file Sample.empty_world Sample.output_file []).
Proof.
  split; [ vm_compute; eauto | ].
  apply (save_to_txt_stops Sample.utf8 Sample.container_repr [] Servers.tag5 []
           UnicodeEncodeError []).
  - constructor.
  - reflexivity.
Qed.

Lemma formatters_need_both_keys_witness :
  (exists e w',
      save_to_csv Sample.utf8 Sample.container_repr (JArr [Sample.tag1; Sample.tag3])
        Sample.output_file Sample.empty_world = (Raise e, w'))
  /\ (exists e w',
         save_to_txt Sample.utf8 Sample.container_repr (JArr [Sample.tag1; Sample.tag3])
           Sample.output_file Sample.empty_world = (Raise e, w'))
  /\ (exists key,
         lacks key Sample.tag3
         /\ save_to_csv Sample.utf8 Sample.container_repr
              (JArr [Sample.tag1; Sample.tag3]) Sample.output_file Sample.empty_world
            = (Raise (KeyError key),
               with_file Sample.empty_world Sample.output_file
                 (csv_header_line
                  ++ flat_map (csv_record_line Sample.container_repr) [Sample.tag1])))
  /\ (exists key written,
         lacks key Sample.tag3
         /\ save_to_txt Sample.utf8 Sample.container_repr
              (JArr [Sample.tag1; Sample.tag3]) Sample.output_file Sample.empty_world
            = (Raise (KeyError key),
               with_file Sample.empty_world Sample.output_file
                 (flat_map (txt_record_block Sample.container_repr) [Sample.tag1]
                  ++ written))).
Proof.
  destruct (formatters_need_both_keys Sample.utf8 Sample.container_repr
              [Sample.tag1] [] Sample.tag3 Sample.output_file Sample.empty_world
              (or_intror eq_refl))
    as (Hcsv & Htxt & Hcsv_key & Htxt_key).
  split; [ exact Hcsv | ]. split; [ exact Htxt | ].
  split; [ apply Hcsv_key; repeat constructor; vm_compute; eauto | ].
  apply Htxt_key; [ repeat constructor; vm_compute; eauto | repeat constructor | ].
  intros name [= <-]. reflexivity.
Defined.

(** C9, as stated, fails in two ways.  A record without [tagContext] whose
    name is a lone surrogate makes [save_to_txt] raise
    [UnicodeEncodeError], on the line of the name, before the missing key
    is looked up; and a record whose [tagContext] is not a dictionary,
    ahead of a record without [tagContext], makes both formatters raise
    [AttributeError]. *)
Lemma formatters_raise_other_errors :
  lacks (lit "tagContext") Servers.tag6
  /\ save_to_txt Sample.utf8 Sample.container_repr (JArr [Servers.tag6])
       Sample.output_file Sample.empty_world
     = (Raise UnicodeEncodeError, with_file Sample.empty_world Sample.output_file [])
  /\ lacks (lit "tagContext") Sample.tag3
  /\ fst (save_to_csv Sample.utf8 Sample.container_repr
            (JArr [Servers.tag4; Sample.tag3]) Sample.output_file Sample.empty_world)
     = Raise AttributeError
  /\ fst (save_to_txt Sample.utf8 Sample.container_repr
            (JArr [Servers.tag4; Sample.tag3]) Sample.output_file Sample.empty_world)
     = Raise AttributeError.
Proof.
  split; [ reflexivity | ]. split.
  { apply (save_to_txt_stops Sample.utf8 Sample.container_repr [] Servers.tag6 []
             UnicodeEncodeError []); [ constructor | reflexivity ]. }
  split; [ reflexivity | ]. split.
  - rewrite (save_to_csv_stops Sample.utf8 Sample.container_repr [] Servers.tag4
               [Sample.tag3] AttributeError); [ reflexivity | constructor | reflexivity ].
  - rewrite (save_to_txt_stops Sample.utf8 Sample.container_repr [] Servers.tag4
               [Sample.tag3] AttributeError
               (lit "TagName: Tag4.PV" ++ [LF]));
      [ reflexivity | constructor | reflexivity ].
Qed.

(** The scenario of two tags, the second without [sourceItemId], written as
    CSV: three lines, the third with an empty third column. *)
Example csv_two_tags :
  csv_header_line
  ++ flat_map (csv_record_line Sample.container_repr) [Sample.tag1; Sample.tag2]
  = lit "tagName,historianItemId,sourceItemId,oldestTimeStamp,latestTimeStamp"
    ++ [CR; LF]
    ++ lit "Tag1.PV,h-1,s-1,2024-01-01T00:00:00,2024-02-01T00:00:00" ++ [CR; LF]
    ++ lit "Tag2.PV,h-2,,2024-01-01T00:00:00,2024-02-01T00:00:00" ++ [CR; LF].
Proof. reflexivity. Qed.

(** ** Context fields that are missing, in the three formats *)

Section MissingFields.

Variable codec : N -> bool.
Variable container_repr : json -> pystr.

(** C2 (as amended): on records that have a name and a context object,
    whatever the context object lacks, [save_to_csv] and [save_to_txt] succeed
    when the encoding of the file can encode their lines, and [save_to_json]
    succeeds always. A field the context lacks, for which [get] gives [None],
    is an empty cell in the CSV line and the text [None] after its label in
    the text block. The JSON file is the encoding of the records as they are,
    and reading it gives them back, the field still absent. *)
Theorem missing_context_fields (items : list json) (filename : pystr) (w : World) :
  Forall (fun item => is_Some (record_fields item)) items ->
  (Forall (fun item => encodable_text codec (csv_record_line container_repr item) = true)
     items ->
   save_to_csv codec container_repr (JArr items) filename w
   = (Ok tt, with_file w filename
               (csv_header_line ++ flat_map (csv_record_line container_repr) items)))
  /\ (Forall (fun item =>
                encodable_text codec (txt_record_block container_repr item) = true)
        items ->
      save_to_txt codec container_repr (JArr items) filename w
      = (Ok tt, with_file w filename
                  (flat_map (txt_record_block container_repr) items)))
  /\ save_to_json codec (JArr items) filename w
     = (Ok tt, with_file w filename (Encoder.dumps (Some 4%nat) (JArr items)))
  /\ (doc_ok (JArr items) = true ->
      Decoder.loads (Encoder.dumps (Some 4%nat) (JArr items)) = Some (JArr items))
  /\ forall ctx field,
       dict_lookup field ctx = None ->
       context_value ctx field = JNull
       /\ csv_cell container_repr ctx field = []
       /\ Csv.join_append (csv_cell container_repr ctx field) = []
       /\ txt_value container_repr ctx field = lit "None".
Proof.
  intros Hall. split; [ apply save_to_csv_records, Hall | ].
  split; [ apply save_to_txt_records, Hall | ].
  split; [ apply save_to_json_text | ].
  split; [ apply loads_dumps | ].
  intros ctx field Hnone. unfold csv_cell, txt_value, context_value.
  rewrite Hnone. repeat split.
Qed.

End MissingFields.

Lemma missing_context_fields_witness :
  save_to_csv Sample.utf8 Sample.container_repr (JArr [Sample.tag1; Sample.tag2])
    Sample.output_file Sample.empty_world
    = (Ok tt, with_file Sample.empty_world Sample.output_file
                (csv_header_line
                 ++ flat_map (csv_record_line Sample.container_repr)
                      [Sample.tag1; Sample.tag2]))
  /\ save_to_txt Sample.utf8 Sample.container_repr (JArr [Sample.tag1; Sample.tag2])
       Sample.output_file Sample.empty_world
     = (Ok tt, with_file Sample.empty_world Sample.output_file
                 (flat_map (txt_record_block Sample.container_repr)
                    [Sample.tag1; Sample.tag2]))
  /\ save_to_json Sample.utf8 (JArr [Sample.tag1; Sample.tag2]) Sample.output_file
       Sample.empty_world
     = (Ok tt, with_file Sample.empty_world Sample.output_file
                 (Encoder.dumps (Some 4%nat) (JArr [Sample.tag1; Sample.tag2])))
  /\ Decoder.loads (Encoder.dumps (Some 4%nat) (JArr [Sample.tag1; Sample.tag2]))
     = Some (JArr [Sample.tag1; Sample.tag2])
  /\ context_value [(lit "historianItemId", JStr (lit "h-2"))] (lit "sourceItemId")
     = JNull
  /\ csv_cell Sample.container_repr [(lit "historianItemId", JStr (lit "h-2"))]
       (lit "sourceItemId") = []
  /\ Csv.join_append
       (csv_cell Sample.container_repr [(lit "historianItemId", JStr (lit "h-2"))]
          (lit "sourceItemId")) = []
  /\ txt_value Sample.container_repr [(lit "historianItemId", JStr (lit "h-2"))]
       (lit "sourceItemId") = lit "None".
Proof.
  assert (Hrec : Forall (fun item => is_Some (record_fields item))
                   [Sample.tag1; Sample.tag2])
    by (repeat constructor; vm_compute; eauto).
  destruct (missing_context_fields Sample.utf8 Sample.container_repr
              [Sample.tag1; Sample.tag2] Sample.output_file Sample.empty_world Hrec)
    as (Hcsv & Htxt & Hjson & Hback & Hmiss).
  split; [ apply Hcsv; repeat constructor | ].
  split; [ apply Htxt; repeat constructor | ].
  split; [ exact Hjson | ].
  split; [ apply Hback; reflexivity | ].
  apply Hmiss. reflexivity.
Defined.

(** C2, as stated, fails in two ways.  The JSON file of a record without
    [sourceItemId] has no such key at all, neither [null] nor an empty
    string; and a record with an empty context whose name is a lone
    surrogate makes [save_to_csv] and [save_to_txt] raise. *)
Lemma missing_field_left_out_or_raised :
  save_to_json Sample.utf8 (JArr [Sample.tag2]) Sample.output_file Sample.empty_world
  = (Ok tt,
     with_file Sample.empty_world Sample.output_file
       (join [LF]
          [lit "[";
           lit "    {";
           lit "        " ++ [QUOTE] ++ lit "tagName" ++ [QUOTE] ++ lit ": "
             ++ [QUOTE] ++ lit "Tag2.PV" ++ [QUOTE] ++ lit ",";
           lit "        " ++ [QUOTE] ++ lit "tagContext" ++ [QUOTE] ++ lit ": {";
           lit "            " ++ [QUOTE] ++ lit "historianItemId" ++ [QUOTE] ++ lit ": "
             ++ [QUOTE] ++ lit "h-2" ++ [QUOTE] ++ lit ",";
           lit "            " ++ [QUOTE] ++ lit "oldestTimeStamp" ++ [QUOTE] ++ lit ": "
             ++ [QUOTE] ++ lit "2024-01-01T00:00:00" ++ [QUOTE] ++ lit ",";
           lit "            " ++ [QUOTE] ++ lit "latestTimeStamp" ++ [QUOTE] ++ lit ": "
             ++ [QUOTE] ++ lit "2024-02-01T00:00:00" ++ [QUOTE];
           lit "        }";
           lit "    }";
           lit "]"]))
  /\ record_fields Servers.tag5 = Some (JStr [55296], [])
  /\ save_to_csv Sample.utf8 Sample.container_repr (JArr [Servers.tag5])
       Sample.output_file Sample.empty_world
     = (Raise UnicodeEncodeError,
        with_file Sample.empty_world Sample.output_file csv_header_line)
  /\ save_to_txt Sample.utf8 Sample.container_repr (JArr [Servers.tag5])
       Sample.output_file Sample.empty_world
     = (Raise UnicodeEncodeError, with_file Sample.empty_world Sample.output_file []).
Proof.
  split; [ rewrite save_to_json_text; reflexivity | ].
  split; [ reflexivity | ]. split.
  - rewrite (save_to_csv_stops Sample.utf8 Sample.container_repr [] Servers.tag5 []
               UnicodeEncodeError); [ | constructor | reflexivity ].
    cbn [flat_map]. rewrite app_nil_r. reflexivity.
  - apply (save_to_txt_stops Sample.utf8 Sample.container_repr [] Servers.tag5 []
             UnicodeEncodeError []); [ constructor | reflexivity ].
Qed.

(** ** The JSON file *)

Section JsonFile.

Variable codec : N -> bool.


End JsonFile.



(** The JSON file of a record with a number, a float and a null among its
    fields: four spaces per level, the values as [json] writes them. *)
Example json_one_tag :
  Encoder.dumps (Some 4%nat) (JArr [Servers.tag7])
  = join [LF]
      [lit "[";
       lit "    {";
       lit "        " ++ [QUOTE] ++ lit "tagName" ++ [QUOTE] ++ lit ": "
         ++ [QUOTE] ++ lit "Tag7.PV" ++ [QUOTE] ++ lit ",";
       lit "        " ++ [QUOTE] ++ lit "tagContext" ++ [QUOTE] ++ lit ": {";
       lit "            " ++ [QUOTE] ++ lit "historianItemId" ++ [QUOTE] ++ lit ": 7,";
       lit "            " ++ [QUOTE] ++ lit "sourceItemId" ++ [QUOTE] ++ lit ": 1.5,";
       lit "            " ++ [QUOTE] ++ lit "oldestTimeStamp" ++ [QUOTE] ++ lit ": null";
       lit "        }";
       lit "    }";
       lit "]"].
Proof. vm_compute. reflexivity. Qed.

(** * Further properties *)

(** ** The clients and the wrapper, beyond the claims *)

Section ClientExtras.

Variable transport : list Request -> Request -> result Response.

(** X3: [_request_call] catches [RequestException] only: any other exception
    out of [requests.request] reaches the caller as it is, and nothing is
    printed. *)
Theorem request_call_lets_other_errors_through (method url : pystr)
    (headers : list (pystr * pystr)) (data : pystr) (w : World) (e : exn) :
  transport (sent w) {| req_method := method; req_url := url;
                        req_headers := headers; req_data := data |} = Raise e ->
  (forall kind message, e <> RequestException kind message) ->
  exists w',
    _request_call transport method url headers data w = (Raise e, w')
    /\ stdout w' = stdout w /\ files w' = files w.
Proof.
  intros E Hother. rewrite request_call_cases. cbv zeta. rewrite E.
  destruct e; try (eexists; repeat split).
  exfalso. eapply Hother. reflexivity.
Qed.

Lemma request_call_footprint (method url : pystr)
    (headers : list (pystr * pystr)) (data : pystr) (w w' : World)
    (res : result (option Response)) :
  _request_call transport method url headers data w = (res, w') ->
  sent w' = sent w ++ [{| req_method := method; req_url := url;
                          req_headers := headers; req_data := data |}]
  /\ files w' = files w
  /\ (stdout w' = stdout w
      \/ exists message,
           stdout w' = stdout w ++ [lit "Error during request: " ++ message]
           /\ res = Ok None).
Proof.
  rewrite request_call_cases. cbv zeta.
  destruct (transport _ _) as [r | e].
  - destruct (raise_for_status r) as [[] | e].
    + intros [= <- <-]. auto.
    + destruct e; intros [= <- <-]; simpl; eauto 6.
  - destruct e; intros [= <- <-]; simpl; eauto 6.
Qed.

(** X4: Whatever the outcome, [_request_call] hands exactly one request to
    [requests.request], with the method, URL, headers and body it was
    given; it never retries, and it leaves the files alone. *)
Theorem request_call_sends_once (method url : pystr)
    (headers : list (pystr * pystr)) (data : pystr) (w w' : World)
    (res : result (option Response)) :
  _request_call transport method url headers data w = (res, w') ->
  sent w' = sent w ++ [{| req_method := method; req_url := url;
                          req_headers := headers; req_data := data |}]
  /\ files w' = files w
  /\ (stdout w' = stdout w
      \/ exists message,
           stdout w' = stdout w ++ [lit "Error during request: " ++ message]
           /\ res = Ok None).
Proof. apply request_call_footprint. Qed.

(** X1: [get_tag_context] fails softly as [get_tags] does: [None] from the
    wrapper, or a decoded body that is an object without [data], gives the
    empty list; a [data] that is there is returned as it is. *)
Theorem get_tag_context_soft_fail (canary api_version api_token : pystr)
    (tags : json) (w w1 : World) :
  let call :=
    _request_call transport (lit "POST") (get_tag_context_url canary api_version)
      json_headers (get_tag_context_payload api_token tags) in
  let context := get_tag_context transport canary api_version api_token tags in
  (call w = (Ok None, w1) -> context w = (Ok (JArr []), w1))
  /\ (forall r dct,
         call w = (Ok (Some r), w1) -> response_json r = Ok (JObj dct) ->
         (dict_lookup (lit "data") dct = None -> context w = (Ok (JArr []), w1))
         /\ (forall v, dict_lookup (lit "data") dct = Some v -> context w = (Ok v, w1))).
Proof.
  intros call context. split.
  - intros E. unfold context, get_tag_context, bind. fold call. rewrite E. reflexivity.
  - intros r dct E Ej.
    assert (Ht := request_call_some_truthy _ _ _ _ _ _ _ _ E).
    assert (Hrun : context w
                   = (Ok (default (JArr []) (dict_lookup (lit "data") dct)), w1)).
    { unfold context, get_tag_context, bind. fold call. rewrite E, Ht.
      unfold lift. rewrite Ej. reflexivity. }
    split.
    + intros Hnone. rewrite Hrun, Hnone. reflexivity.
    + intros v Hsome. rewrite Hrun, Hsome. reflexivity.
Qed.

(** X2: The soft failure stops at the wrapper.  For either client, when its
    request came back with a response whose [json()] raises, or gives
    something that is not an object, the client raises: the exception of
    [json()], or [AttributeError] for the missing [get]. *)
Theorem clients_raise_on_bad_body (canary api_version api_token application
                                     timezone : pystr) (tags : json)
    (w w' : World) (r : Response) :
  (_request_call transport (lit "POST") (get_tags_url canary api_version)
     json_headers (get_tags_payload api_token application timezone) w
   = (Ok (Some r), w') ->
   (forall e, response_json r = Raise e ->
              get_tags transport canary api_version api_token application timezone w
              = (Raise e, w'))
   /\ (forall body, response_json r = Ok body ->
                    (forall dct, body <> JObj dct) ->
                    get_tags transport canary api_version api_token application
                      timezone w = (Raise AttributeError, w')))
  /\ (_request_call transport (lit "POST") (get_tag_context_url canary api_version)
        json_headers (get_tag_context_payload api_token tags) w = (Ok (Some r), w') ->
      (forall e, response_json r = Raise e ->
                 get_tag_context transport canary api_version api_token tags w
                 = (Raise e, w'))
      /\ (forall body, response_json r = Ok body ->
                       (forall dct, body <> JObj dct) ->
                       get_tag_context transport canary api_version api_token tags w
                       = (Raise AttributeError, w'))).
Proof.
  split; intros E; assert (Ht := request_call_some_truthy _ _ _ _ _ _ _ _ E); split.
  - intros e Ej. unfold get_tags, bind. rewrite E, Ht. unfold lift. rewrite Ej.
    reflexivity.
  - intros body Ej Hobj. unfold get_tags, bind. rewrite E, Ht. unfold lift.
    rewrite Ej. destruct body; try reflexivity. exfalso. eapply Hobj. reflexivity.
  - intros e Ej. unfold get_tag_context, bind. rewrite E, Ht. unfold lift.
    rewrite Ej. reflexivity.
  - intros body Ej Hobj. unfold get_tag_context, bind. rewrite E, Ht. unfold lift.
    rewrite Ej. destruct body; try reflexivity. exfalso. eapply Hobj. reflexivity.
Qed.

End ClientExtras.

(** X5: The body that [get_tags] posts is JSON text for one object with the
    six keys of the source in their order: the three arguments, an empty
    [path] and [search], and [deep] set. *)
Theorem get_tags_payload_decodes (api_token application timezone : pystr) :
  str_ok api_token = true -> str_ok application = true -> str_ok timezone = true ->
  Decoder.loads (get_tags_payload api_token application timezone)
  = Some (JObj [(lit "application", JStr application);
                (lit "timezone", JStr timezone);
                (lit "apiToken", JStr api_token);
                (lit "path", JStr []);
                (lit "deep", JBool true);
                (lit "search", JStr [])]).
Proof.
  intros Ht Ha Hz. unfold get_tags_payload. apply loads_dumps.
  cbn [doc_ok forallb fst snd]. rewrite Ht, Ha, Hz. reflexivity.
Qed.

(** X6: The body that [get_tag_context] posts carries the tags exactly as
    discovery returned them, whatever they are (names, numbers with or
    without a fraction, nested values): decoding it gives the token and the
    very same [tags] value. *)
Theorem get_tag_context_payload_decodes (api_token : pystr) (tags : json) :
  str_ok api_token = true -> doc_ok tags = true ->
  Decoder.loads (get_tag_context_payload api_token tags)
  = Some (JObj [(lit "apiToken", JStr api_token); (lit "tags", tags)]).
Proof.
  intros Ht Htags. unfold get_tag_context_payload. apply loads_dumps.
  cbn [doc_ok forallb fst snd]. rewrite Ht, Htags. reflexivity.
Qed.

(** ** The formatters, beyond the claims *)

Section FormatterExtras.

Variable codec : N -> bool.
Variable container_repr : json -> pystr.

Lemma frame_refl filename w : frame filename w w.
Proof. repeat split; auto. Qed.

Lemma frame_trans filename w1 w2 w3 :
  frame filename w1 w2 -> frame filename w2 w3 -> frame filename w1 w3.
Proof.
  intros (Ho & Hs & Hf) (Ho' & Hs' & Hf').
  repeat split; try congruence.
  intros other Hne. rewrite Hf', Hf by exact Hne. reflexivity.
Qed.

Lemma keeps_lift {A} filename (r : result A) : keeps filename (lift r).
Proof. intros w res w' [= <- <-]. apply frame_refl. Qed.

Lemma keeps_raise {A} filename e : keeps filename (@raise A e).
Proof. intros w res w' [= <- <-]. apply frame_refl. Qed.

Lemma keeps_bind {A B} filename (m : M A) (k : A -> M B) :
  keeps filename m -> (forall a, keeps filename (k a)) -> keeps filename (bind m k).
Proof.
  intros Hm Hk w res w'. unfold bind.
  destruct (m w) as [[a | e] w1] eqn:E.
  - intros Hrun. eapply frame_trans; [ eapply Hm, E | eapply Hk, Hrun ].
  - intros [= <- <-]. eapply Hm, E.
Qed.

Lemma keeps_open_w filename : keeps filename (open_w filename).
Proof.
  intros w res w' [= <- <-]. repeat split; simpl.
  intros other Hne. apply lookup_insert_ne. congruence.
Qed.

Lemma keeps_write filename text : keeps filename (write codec filename text).
Proof.
  intros w res w'. unfold write.
  destruct (encodable_text codec text); intros [= <- <-]; [ | apply frame_refl ].
  repeat split; simpl.
  intros other Hne. apply lookup_insert_ne. congruence.
Qed.

Lemma keeps_for_each {A} filename (body : A -> M unit) xs :
  (forall x, keeps filename (body x)) -> keeps filename (for_each xs body).
Proof.
  intros Hbody. induction xs as [ | x xs IH ].
  - intros w res w' [= <- <-]. apply frame_refl.
  - cbn [for_each]. apply keeps_bind; [ apply Hbody | intros _; exact IH ].
Qed.

Lemma keeps_writerow filename names rowdict :
  keeps filename (DictWriter_writerow codec container_repr filename names rowdict).
Proof.
  unfold DictWriter_writerow.
  destruct (forallb _ rowdict); [ apply keeps_write | apply keeps_raise ].
Qed.

Lemma keeps_save_to_csv_item filename item :
  keeps filename (save_to_csv_item codec container_repr filename item).
Proof.
  unfold save_to_csv_item.
  repeat (apply keeps_bind; [ apply keeps_lift | intros ? ]).
  apply keeps_writerow.
Qed.

Lemma keeps_write_context_line filename item label field :
  keeps filename (write_context_line codec container_repr filename item label field).
Proof.
  unfold write_context_line.
  repeat (apply keeps_bind; [ apply keeps_lift | intros ? ]).
  apply keeps_write.
Qed.

Lemma keeps_save_to_txt_item filename item :
  keeps filename (save_to_txt_item codec container_repr filename item).
Proof.
  unfold save_to_txt_item.
  apply keeps_bind; [ apply keeps_lift | intros ? ].
  apply keeps_bind; [ apply keeps_write | intros ? ].
  repeat (apply keeps_bind; [ apply keeps_write_context_line | intros ? ]).
  apply keeps_write.
Qed.

Lemma keeps_save_to_csv data filename :
  keeps filename (save_to_csv codec container_repr data filename).
Proof.
  unfold save_to_csv.
  apply keeps_bind; [ apply keeps_open_w | intros ? ].
  apply keeps_bind; [ apply keeps_writerow | intros ? ].
  apply keeps_bind; [ apply keeps_lift | intros items ].
  apply keeps_for_each. intros item. apply keeps_save_to_csv_item.
Qed.

Lemma keeps_save_to_txt data filename :
  keeps filename (save_to_txt codec container_repr data filename).
Proof.
  unfold save_to_txt.
  apply keeps_bind; [ apply keeps_open_w | intros ? ].
  apply keeps_bind; [ apply keeps_lift | intros items ].
  apply keeps_for_each. intros item. apply keeps_save_to_txt_item.
Qed.

Lemma keeps_save_to_json data filename : keeps filename (save_to_json codec data filename).
Proof.
  unfold save_to_json.
  apply keeps_bind; [ apply keeps_open_w | intros ? ]. apply keeps_write.
Qed.

(** X7: Whatever the data and whether they succeed or raise, the three
    formatters touch nothing but the file they were given: the output, the
    requests and all other files stay as they were. *)
Theorem formatters_touch_one_file (data : json) (filename : pystr) (w w' : World)
    (res : result unit) :
  save_to_csv codec container_repr data filename w = (res, w')
  \/ save_to_txt codec container_repr data filename w = (res, w')
  \/ save_to_json codec data filename w = (res, w') ->
  stdout w' = stdout w
  /\ sent w' = sent w
  /\ (forall other, other <> filename -> files w' !! other = files w !! other).
Proof.
  intros [Hrun | [Hrun | Hrun]].
  - eapply keeps_save_to_csv, Hrun.
  - eapply keeps_save_to_txt, Hrun.
  - eapply keeps_save_to_json, Hrun.
Qed.

Lemma open_w_overwrites filename old w :
  open_w filename (with_file w filename old) = open_w filename w.
Proof.
  unfold open_w, with_file. simpl. rewrite insert_insert_eq. reflexivity.
Qed.

(** X8: The formatters open the file for writing, so what it held before
    plays no part: a run on a world where the file had any content gives
    the result and the world of the run where it had none. *)
Theorem formatters_overwrite (data : json) (filename old : pystr) (w : World) :
  save_to_csv codec container_repr data filename (with_file w filename old)
  = save_to_csv codec container_repr data filename w
  /\ save_to_txt codec container_repr data filename (with_file w filename old)
     = save_to_txt codec container_repr data filename w
  /\ save_to_json codec data filename (with_file w filename old)
     = save_to_json codec data filename w.
Proof.
  repeat split.
  - unfold save_to_csv, bind at 1 4. rewrite open_w_overwrites. reflexivity.
  - unfold save_to_txt, bind at 1 3. rewrite open_w_overwrites. reflexivity.
  - unfold save_to_json, bind. rewrite open_w_overwrites. reflexivity.
Qed.

End FormatterExtras.

Section FormatterErrors.

Variable codec : N -> bool.
Variable container_repr : json -> pystr.

(** X9: [save_to_csv] on a list stops at the first item it cannot write.  The
    exception is the one that item meets first in the body of the loop
    ([TypeError] for an item that is no dictionary, [KeyError] for a missing
    [tagContext], then for a missing [tagName], [AttributeError] for a
    [tagContext] that is no dictionary, [UnicodeEncodeError] for a line that
    the encoding of the file cannot encode), and the file is left with the
    header and the lines of the records before it. *)
Theorem save_to_csv_first_bad_item (good rest : list json) (bad : json) (e : exn)
    (filename : pystr) (w : World) :
  Forall (fun item => is_Some (record_fields item)) good ->
  Forall (fun item => encodable_text codec (csv_record_line container_repr item) = true)
    good ->
  csv_item_error codec container_repr bad = Some e ->
  save_to_csv codec container_repr (JArr (good ++ bad :: rest)) filename w
  = (Raise e,
     with_file w filename
       (csv_header_line ++ flat_map (csv_record_line container_repr) good)).
Proof.
  intros Hrec Henc. apply save_to_csv_stops, csv_records_writable; assumption.
Qed.

(** X10: [save_to_txt] on a list stops at the first item it cannot write.  A
    missing [tagName] is met first; a missing [tagContext], or one that is
    no dictionary, is met only after the [TagName] line of that item has
    been written; a line that the encoding of the file cannot encode is
    refused after the lines before it have been written.  The file is left
    with the blocks of the records before and what was written of the
    item. *)
Theorem save_to_txt_first_bad_item (good rest : list json) (bad : json) (e : exn)
    (written filename : pystr) (w : World) :
  Forall (fun item => is_Some (record_fields item)) good ->
  Forall (fun item => encodable_text codec (txt_record_block container_repr item) = true)
    good ->
  txt_item_error codec container_repr bad = Some (e, written) ->
  save_to_txt codec container_repr (JArr (good ++ bad :: rest)) filename w
  = (Raise e,
     with_file w filename
       (flat_map (txt_record_block container_repr) good ++ written)).
Proof.
  intros Hrec Henc. apply save_to_txt_stops, txt_records_writable; assumption.
Qed.

(** X11: Data that is true in [if tag_context_data:] and is not a list (a
    dictionary, a string, a number, [True]) makes [save_to_csv] and
    [save_to_txt] raise [TypeError]; by then the CSV file holds the header
    and the text file is empty. *)
Theorem formatters_reject_non_list (data : json) (filename : pystr) (w : World) :
  truthy data = true ->
  (forall items, data <> JArr items) ->
  save_to_csv codec container_repr data filename w
    = (Raise TypeError, with_file w filename csv_header_line)
  /\ save_to_txt codec container_repr data filename w
     = (Raise TypeError, with_file w filename []).
Proof.
  intros Htrue Hlist.
  assert (Hiter : py_iter data = Raise TypeError
                  \/ exists item items,
                       py_iter data = Ok (item :: items)
                       /\ forall rec, item <> JObj rec).
  { destruct data as [ | b | z | x | s | lst | dct ]; try (left; reflexivity).
    - destruct s as [ | c s ]; [ discriminate | ].
      right. eexists _, _. split; [ reflexivity | discriminate ].
    - exfalso. eapply Hlist. reflexivity.
    - destruct dct as [ | kv dct ]; [ discriminate | ].
      right. eexists _, _. split; [ reflexivity | discriminate ]. }
  split.
  - unfold save_to_csv, bind.
    rewrite open_w_with_file, writeheader_line, header_written.
    unfold lift. destruct Hiter as [-> | (item & items & -> & Hitem)]; [ reflexivity | ].
    cbn [for_each]. unfold bind.
    erewrite (save_to_csv_item_refused _ _ _ _ TypeError); [ reflexivity | ].
    destruct item; try reflexivity. exfalso. eapply Hitem. reflexivity.
  - unfold save_to_txt, bind. rewrite open_w_with_file.
    unfold lift. destruct Hiter as [-> | (item & items & -> & Hitem)]; [ reflexivity | ].
    cbn [for_each]. unfold bind.
    erewrite (save_to_txt_item_refused _ _ _ _ TypeError []); [ reflexivity | ].
    destruct item; try reflexivity. exfalso. eapply Hitem. reflexivity.
Qed.

End FormatterErrors.

(** ** The CSV line, read back *)

Section CsvCells.

Lemma field_data_plain field :
  existsb (fun c => c =? QUOTE) field = false -> Csv.field_data field = field.
Proof.
  induction field as [ | c field IH ]; [ reflexivity | ].
  cbn [existsb]. intros H. apply orb_false_iff in H as [Hc Hrest].
  unfold Csv.field_data. cbn [flat_map]. rewrite Hc. cbn [app].
  f_equal. apply IH, Hrest.
Qed.

Lemma unquoted_plain field :
  Csv.quoted field = false ->
  existsb (fun c => c =? QUOTE) field = false
  /\ forallb (fun c => negb ((c =? COMMA) || (c =? CR) || (c =? LF))) field = true.
Proof.
  unfold Csv.quoted. induction field as [ | c field IH ]; [ auto | ].
  cbn [existsb forallb]. intros H. apply orb_false_iff in H as [Hc Hrest].
  destruct (IH Hrest) as [Hq Hp]. rewrite Hq, Hp.
  unfold Csv.special in Hc.
  destruct (c =? COMMA), (c =? QUOTE), (c =? CR), (c =? LF); try discriminate.
  auto.
Qed.

(** A cell with no comma, quote, carriage return or line feed is written
    as it is. *)
Lemma join_append_plain field :
  Csv.quoted field = false -> Csv.join_append field = field.
Proof.
  intros H. unfold Csv.join_append. rewrite H.
  apply field_data_plain. apply (unquoted_plain field H).
Qed.

Lemma read_quoted_data field rest :
  match rest with c :: _ => (c =? QUOTE) = false | [] => True end ->
  read_quoted (Csv.field_data field ++ QUOTE :: rest) = (field, rest).
Proof.
  intros Hrest. induction field as [ | c field IH ].
  - cbn [Csv.field_data flat_map app read_quoted]. rewrite N.eqb_refl.
    destruct rest as [ | c' rest ]; [ reflexivity | ]. rewrite Hrest. reflexivity.
  - unfold Csv.field_data. cbn [flat_map]. fold (Csv.field_data field).
    destruct (c =? QUOTE) eqn:Ec.
    + apply N.eqb_eq in Ec. subst c. cbn [app read_quoted].
      rewrite N.eqb_refl, IH. reflexivity.
    + cbn [app read_quoted]. rewrite Ec, IH. reflexivity.
Qed.

Lemma read_plain_cell field rest :
  forallb (fun c => negb ((c =? COMMA) || (c =? CR) || (c =? LF))) field = true ->
  cell_end rest = true ->
  read_plain (field ++ rest) = (field, rest).
Proof.
  intros Hfield Hrest. induction field as [ | c field IH ].
  - destruct rest as [ | c rest ]; [ discriminate | ].
    cbn [app read_plain]. unfold cell_end in Hrest.
    apply orb_true_iff in Hrest as [-> | ->]; rewrite ?orb_true_r; reflexivity.
  - cbn [forallb] in Hfield. apply andb_true_iff in Hfield as [Hc Hfield].
    apply negb_true_iff in Hc. cbn [app read_plain]. rewrite Hc, IH by exact Hfield.
    reflexivity.
Qed.

(** [read_cell] undoes [join_append]: a written cell, followed by a comma
    or the line terminator, is read back as the cell's text. *)
Lemma read_cell_join_append field rest :
  cell_end rest = true ->
  read_cell (Csv.join_append field ++ rest) = (field, rest).
Proof.
  intros Hrest. unfold Csv.join_append.
  destruct (Csv.quoted field) eqn:Hq.
  - cbn [app read_cell]. rewrite N.eqb_refl. rewrite <- app_assoc.
    apply read_quoted_data.
    destruct rest as [ | c rest ]; [ exact I | ]. unfold cell_end in Hrest.
    apply orb_true_iff in Hrest as [H | H]; apply N.eqb_eq in H; subst c; reflexivity.
  - destruct (unquoted_plain field Hq) as [Hnq Hplain].
    rewrite field_data_plain by exact Hnq.
    assert (Hhead : match field ++ rest with
                    | c :: _ => (c =? QUOTE) = false
                    | [] => True
                    end).
    { destruct field as [ | c field ].
      - destruct rest as [ | c rest ]; [ exact I | ]. unfold cell_end in Hrest.
        apply orb_true_iff in Hrest as [H | H]; apply N.eqb_eq in H; subst c;
          reflexivity.
      - cbn [existsb] in Hnq. apply orb_false_iff in Hnq as [Hc _]. exact Hc. }
    unfold read_cell. destruct (field ++ rest) as [ | c s ] eqn:E.
    + destruct rest; [ discriminate | destruct field; discriminate ].
    + rewrite Hhead, <- E. apply read_plain_cell; assumption.
Qed.

Lemma row_front cell cells :
  exists rest,
    join [COMMA] (map Csv.join_append (cell :: cells)) ++ [CR; LF]
    = Csv.join_append cell ++ rest
    /\ cell_end rest = true
    /\ rest = match cells with
              | [] => [CR; LF]
              | _ :: _ => COMMA :: join [COMMA] (map Csv.join_append cells) ++ [CR; LF]
              end.
Proof.
  destruct cells as [ | cell' cells ].
  - exists [CR; LF]. repeat split.
  - eexists. split; [ | split; [ | reflexivity ] ]; [ | reflexivity ].
    cbn [map]. rewrite join_cons, <- !app_assoc. reflexivity.
Qed.

(** A line of cells determines the cells: two rows of at least one cell
    written as the same line are the same row. *)
Lemma row_determines_cells cells :
  forall cells',
    cells <> [] -> cells' <> [] ->
    join [COMMA] (map Csv.join_append cells) ++ [CR; LF]
    = join [COMMA] (map Csv.join_append cells') ++ [CR; LF] ->
    cells = cells'.
Proof.
  induction cells as [ | cell cells IH ]; intros cells' Hne Hne' Hline;
    [ contradiction | ].
  destruct cells' as [ | cell' cells' ]; [ contradiction | ].
  destruct (row_front cell cells) as (rest & E & Hend & Hrest).
  destruct (row_front cell' cells') as (rest' & E' & Hend' & Hrest').
  rewrite E, E' in Hline.
  apply (f_equal read_cell) in Hline.
  rewrite !read_cell_join_append in Hline by assumption.
  injection Hline as <- Hrests. f_equal.
  rewrite Hrest, Hrest' in Hrests.
  destruct cells as [ | c cells ], cells' as [ | c' cells' ];
    try reflexivity; try discriminate.
  injection Hrests as Hrests. apply IH; [ discriminate | discriminate | exact Hrests ].
Qed.

End CsvCells.

Section CsvRecords.

Variable container_repr : json -> pystr.

(** X12: The CSV line of a record gives its five cells back: two records that
    [save_to_csv] writes as the same line have the same cell texts, so
    quoting never merges or splits cells. *)
Theorem csv_line_determines_cells (item item' : json) (name name' : json)
    (ctx ctx' : list (pystr * json)) :
  record_fields item = Some (name, ctx) ->
  record_fields item' = Some (name', ctx') ->
  csv_record_line container_repr item = csv_record_line container_repr item' ->
  csv_cells container_repr name ctx = csv_cells container_repr name' ctx'.
Proof.
  intros Hrec Hrec'. unfold csv_record_line. rewrite Hrec, Hrec'.
  apply row_determines_cells; discriminate.
Qed.

(** X13: A cell written by the CSV writer, whatever it holds (commas, quotes,
    line breaks), is read back whole from a line: quotes around it and
    doubled quotes inside it are undone, and the reading stops where the
    cell stops. *)
Theorem csv_cell_round_trip (field rest : pystr) :
  cell_end rest = true ->
  read_cell (Csv.join_append field ++ rest) = (field, rest).
Proof. apply read_cell_join_append. Qed.

(** X26: a cell with no comma, no quote and no line break is written to
    the CSV file exactly as it is, without quotes. *)
Theorem csv_plain_cell_verbatim (field : pystr) :
  Csv.quoted field = false -> Csv.join_append field = field.
Proof. apply join_append_plain. Qed.

End CsvRecords.

(** ** Lines of the text file, characters of the JSON text *)

Section TextLines.

Variable codec : N -> bool.
Variable container_repr : json -> pystr.

Lemma line_count_lf line rest :
  no_newline line = true -> line_count (line ++ LF :: rest) = S (line_count rest).
Proof.
  induction line as [ | c line IH ]; intros Hline; [ reflexivity | ].
  simpl in Hline. apply andb_true_iff in Hline as [Hc Hrest].
  apply negb_true_iff, orb_false_iff in Hc as [Hcr Hlf].
  cbn [app line_count]. rewrite Hlf, Hcr. apply IH, Hrest.
Qed.

Lemma line_count_lines lines rest :
  forallb no_newline lines = true ->
  line_count (flat_map (fun line => line ++ [LF]) lines ++ rest)
  = (length lines + line_count rest)%nat.
Proof.
  induction lines as [ | line lines IH ]; intros H; [ reflexivity | ].
  cbn [forallb] in H. apply andb_true_iff in H as [Hline Hlines].
  cbn [flat_map length]. rewrite <- !app_assoc. cbn [app].
  rewrite line_count_lf by exact Hline. rewrite IH by exact Hlines. reflexivity.
Qed.

Lemma line_count_block item :
  record_plain_txt container_repr item = true ->
  forall rest,
    line_count (txt_record_block container_repr item ++ rest)
    = (6 + line_count rest)%nat.
Proof.
  unfold record_plain_txt, txt_record_block.
  destruct (record_fields item) as [[name ctx] | ]; [ | discriminate ].
  intros H rest. rewrite <- app_assoc, line_count_lines by exact H.
  reflexivity.
Qed.

(** X14: On records whose texts hold no line break and can be encoded, the
    file of [save_to_txt] has six lines for each record: the five labelled
    ones and the empty one. *)
Theorem save_to_txt_line_count (items : list json) (filename : pystr) (w : World) :
  Forall (fun item => record_plain_txt container_repr item = true) items ->
  Forall (fun item => encodable_text codec (txt_record_block container_repr item) = true)
    items ->
  exists content,
    save_to_txt codec container_repr (JArr items) filename w
    = (Ok tt, with_file w filename content)
    /\ line_count content = (6 * length items)%nat.
Proof.
  intros Hplain Henc. eexists. split.
  - apply save_to_txt_records; [ | exact Henc ].
    eapply Forall_impl; [ exact Hplain | ].
    intros item Hitem. unfold record_plain_txt in Hitem.
    destruct (record_fields item); [ eauto | discriminate ].
  - clear Henc. induction Hplain as [ | item items Hitem _ IH ]; [ reflexivity | ].
    cbn [flat_map length]. rewrite line_count_block by exact Hitem. rewrite IH. lia.
Qed.

End TextLines.

Section Ascii.

(** X15: Whatever the data holds, the JSON file and the two request bodies are
    made of printable ASCII characters and, when an indent is asked for,
    line feeds: every other character of a string is written as an
    escape. *)
Theorem json_text_is_ascii (data tags : json)
    (api_token application timezone : pystr) :
  forallb printable (Encoder.dumps (Some 4%nat) data) = true
  /\ forallb printable (get_tags_payload api_token application timezone) = true
  /\ forallb printable (get_tag_context_payload api_token tags) = true.
Proof.
  repeat split; apply printable_iterencode.
Qed.

End Ascii.

(** X25: data that [json.loads] read from a body of UTF-8 text, numbers with
    a fraction or an exponent among them, needs no further condition:
    [save_to_json] writes a file from which [json.loads] reads the same
    data again. *)
Theorem response_data_round_trip (codec : N -> bool) (body : pystr) (data : json)
    (filename : pystr) (w : World) :
  text_ok body = true ->
  Decoder.loads body = Some data ->
  exists text,
    save_to_json codec data filename w = (Ok tt, with_file w filename text)
    /\ Decoder.loads text = Some data.
Proof.
  intros Hbody Hdata. eexists. split; [ apply save_to_json_text | ].
  apply loads_dumps. eapply loads_doc_ok; eassumption.
Qed.

(** ** The orchestrator, beyond the claims *)

Section MainExtras.

Variable transport : list Request -> Request -> result Response.
Variable codec : N -> bool.
Variable container_repr : json -> pystr.

Lemma get_tag_context_sent canary api_version api_token tags w res w1 :
  get_tag_context transport canary api_version api_token tags w = (res, w1) ->
  sent w1 = sent w ++ [get_tag_context_request canary api_version api_token tags].
Proof.
  unfold get_tag_context, bind.
  destruct (_request_call transport (lit "POST") (get_tag_context_url canary api_version)
              json_headers (get_tag_context_payload api_token tags) w)
    as [[response | e] w0] eqn:E;
    destruct (request_call_footprint _ _ _ _ _ _ _ _ E) as (Hs & _ & _).
  - destruct (response_truthy response); [ | intros [= _ <-]; exact Hs ].
    destruct response as [r | ]; [ | intros [= _ <-]; exact Hs ].
    unfold lift. destruct (response_json r); intros [= _ <-]; exact Hs.
  - intros [= _ <-]. exact Hs.
Qed.

(** X16: With tags and records at hand, records whose lines the encoding of
    the file can encode, and [csv] asked for, [main] leaves the header and
    one line per record in the output file, nothing else on disk changes,
    and it reports the file and the format. *)
Theorem main_saves_csv (canary api_version api_token application timezone
                          output_file : pystr) (tags : json) (items : list json)
    (w w1 w2 : World) :
  get_tags transport canary api_version api_token application timezone w
    = (Ok tags, w1) ->
  truthy tags = true ->
  get_tag_context transport canary api_version api_token tags w1
    = (Ok (JArr items), w2) ->
  items <> [] ->
  Forall (fun item => is_Some (record_fields item)) items ->
  Forall (fun item => encodable_text codec (csv_record_line container_repr item) = true)
    items ->
  exists w',
    main transport codec container_repr canary api_version api_token application timezone
      (lit "csv") output_file w = (Ok tt, w')
    /\ files w'
       = <[output_file := csv_header_line
                          ++ flat_map (csv_record_line container_repr) items]> (files w)
    /\ stdout w' = stdout w2 ++ [lit "Data saved to " ++ output_file
                                 ++ lit " in csv format."].
Proof.
  intros E Ht Ec Hne Hrec Henc.
  destruct (get_tags_world _ _ _ _ _ _ _ _ _ E) as [Hf _].
  assert (Hf2 := get_tag_context_world _ _ _ _ _ _ _ _ Ec).
  unfold main, bind. rewrite E, Ht, Ec.
  replace (truthy (JArr items)) with true
    by (destruct items; [ contradiction | reflexivity ]).
  rewrite decide_True by reflexivity.
  rewrite save_to_csv_records by assumption.
  eexists. split; [ reflexivity | ]. unfold print, with_file. cbn [files stdout].
  rewrite Hf2, Hf. split; reflexivity.
Qed.

(** X17: The same with [txt], on records whose blocks the encoding of the
    file can encode: the output file holds one block per record. *)
Theorem main_saves_txt (canary api_version api_token application timezone
                          output_file : pystr) (tags : json) (items : list json)
    (w w1 w2 : World) :
  get_tags transport canary api_version api_token application timezone w
    = (Ok tags, w1) ->
  truthy tags = true ->
  get_tag_context transport canary api_version api_token tags w1
    = (Ok (JArr items), w2) ->
  items <> [] ->
  Forall (fun item => is_Some (record_fields item)) items ->
  Forall (fun item => encodable_text codec (txt_record_block container_repr item) = true)
    items ->
  exists w',
    main transport codec container_repr canary api_version api_token application timezone
      (lit "txt") output_file w = (Ok tt, w')
    /\ files w'
       = <[output_file := flat_map (txt_record_block container_repr) items]> (files w)
    /\ stdout w' = stdout w2 ++ [lit "Data saved to " ++ output_file
                                 ++ lit " in txt format."].
Proof.
  intros E Ht Ec Hne Hrec Henc.
  destruct (get_tags_world _ _ _ _ _ _ _ _ _ E) as [Hf _].
  assert (Hf2 := get_tag_context_world _ _ _ _ _ _ _ _ Ec).
  unfold main, bind. rewrite E, Ht, Ec.
  replace (truthy (JArr items)) with true
    by (destruct items; [ contradiction | reflexivity ]).
  rewrite decide_False by discriminate. rewrite decide_True by reflexivity.
  rewrite save_to_txt_records by assumption.
  eexists. split; [ reflexivity | ]. unfold print, with_file. cbn [files stdout].
  rewrite Hf2, Hf. split; reflexivity.
Qed.

(** X18: With [json], any data that counts as true is written, records or
    not, whatever encoding the file has: the output file holds its encoding
    with an indent of four, which reads back to the data the server sent,
    floats included. *)
Theorem main_saves_json (canary api_version api_token application timezone
                           output_file : pystr) (tags data : json)
    (w w1 w2 : World) :
  get_tags transport canary api_version api_token application timezone w
    = (Ok tags, w1) ->
  truthy tags = true ->
  get_tag_context transport canary api_version api_token tags w1 = (Ok data, w2) ->
  truthy data = true ->
  doc_ok data = true ->
  exists w' text,
    main transport codec container_repr canary api_version api_token application timezone
      (lit "json") output_file w = (Ok tt, w')
    /\ files w' = <[output_file := text]> (files w)
    /\ Decoder.loads text = Some data
    /\ stdout w' = stdout w2 ++ [lit "Data saved to " ++ output_file
                                 ++ lit " in json format."].
Proof.
  intros E Ht Ec Hd Hok.
  destruct (get_tags_world _ _ _ _ _ _ _ _ _ E) as [Hf _].
  assert (Hf2 := get_tag_context_world _ _ _ _ _ _ _ _ Ec).
  unfold main, bind. rewrite E, Ht, Ec, Hd.
  rewrite !decide_False by discriminate. rewrite decide_True by reflexivity.
  rewrite save_to_json_text.
  eexists _, _. split; [ reflexivity | ]. unfold print, with_file. cbn [files stdout].
  rewrite Hf2, Hf. split; [ reflexivity | ].
  split; [ apply loads_dumps, Hok | reflexivity ].
Qed.

(** X19: A value from discovery that counts as false ([null], [false], [0], an
    empty string, list or dictionary) is treated as no tags at all: no
    second request, no file, [No tags found.] *)
Theorem main_falsy_tags (canary api_version api_token application timezone
                           output_format output_file : pystr) (tags : json)
    (w w1 : World) :
  get_tags transport canary api_version api_token application timezone w
    = (Ok tags, w1) ->
  truthy tags = false ->
  main transport codec container_repr canary api_version api_token application timezone
    output_format output_file w
  = (Ok tt, {| files := files w;
               stdout := stdout w1 ++ [lit "No tags found."];
               sent := sent w ++ [get_tags_request canary api_version api_token
                                    application timezone] |}).
Proof.
  intros E Ht. destruct (get_tags_world _ _ _ _ _ _ _ _ _ E) as [Hf Hs].
  unfold main, bind. rewrite E, Ht. unfold print. rewrite Hf, Hs. reflexivity.
Qed.

(** X20: When the discovery request fails in transport, [main] ends normally
    after two lines of output, the error and [No tags found.], with no
    file written and no second request. *)
Theorem main_discovery_unreachable (canary api_version api_token application timezone
                                      output_format output_file : pystr)
    (kind : request_failure) (message : pystr) (w : World) :
  transport (sent w)
    (get_tags_request canary api_version api_token application timezone)
    = Raise (RequestException kind message) ->
  main transport codec container_repr canary api_version api_token application timezone
    output_format output_file w
  = (Ok tt, {| files := files w;
               stdout := stdout w ++ [lit "Error during request: " ++ message;
                                      lit "No tags found."];
               sent := sent w ++ [get_tags_request canary api_version api_token
                                    application timezone] |}).
Proof.
  intros E. unfold main, bind at 1. unfold get_tags, bind at 1.
  rewrite request_call_cases. cbv zeta.
  change {| req_method := lit "POST"; req_url := get_tags_url canary api_version;
            req_headers := json_headers;
            req_data := get_tags_payload api_token application timezone |}
    with (get_tags_request canary api_version api_token application timezone).
  rewrite E. unfold response_truthy, ret, print. cbn [truthy files stdout sent].
  rewrite <- app_assoc. reflexivity.
Qed.

(** X21: When discovery succeeds and the context request fails in transport,
    [main] ends normally with the error and
    [No data returned in the tag context.], and writes no file. *)
Theorem main_context_unreachable (canary api_version api_token application timezone
                                    output_format output_file : pystr) (tags : json)
    (kind : request_failure) (message : pystr) (w w1 : World) :
  get_tags transport canary api_version api_token application timezone w
    = (Ok tags, w1) ->
  truthy tags = true ->
  transport (sent w1) (get_tag_context_request canary api_version api_token tags)
    = Raise (RequestException kind message) ->
  main transport codec container_repr canary api_version api_token application timezone
    output_format output_file w
  = (Ok tt, {| files := files w;
               stdout := stdout w1 ++ [lit "Error during request: " ++ message;
                                       lit "No data returned in the tag context."];
               sent := sent w1 ++ [get_tag_context_request canary api_version api_token
                                     tags] |}).
Proof.
  intros E Ht Ec. destruct (get_tags_world _ _ _ _ _ _ _ _ _ E) as [Hf _].
  unfold main, bind at 1. rewrite E, Ht. unfold bind at 1.
  unfold get_tag_context, bind at 1. rewrite request_call_cases. cbv zeta.
  change {| req_method := lit "POST"; req_url := get_tag_context_url canary api_version;
            req_headers := json_headers;
            req_data := get_tag_context_payload api_token tags |}
    with (get_tag_context_request canary api_version api_token tags).
  rewrite Ec. unfold response_truthy, ret, print. cbn [truthy files stdout sent].
  rewrite <- app_assoc, Hf. reflexivity.
Qed.

(** X24: Any run of [main], however it ends, makes the discovery request and at
    most one more, the context request carrying the tags that discovery
    returned; and on disk it touches the output file only. *)
Theorem main_footprint (canary api_version api_token application timezone
                          output_format output_file : pystr)
    (res : result unit) (w w' : World) :
  main transport codec container_repr canary api_version api_token application timezone
    output_format output_file w = (res, w') ->
  (forall other, other <> output_file -> files w' !! other = files w !! other)
  /\ (sent w' = sent w ++ [get_tags_request canary api_version api_token
                             application timezone]
      \/ exists tags w1,
           get_tags transport canary api_version api_token application timezone w
             = (Ok tags, w1)
           /\ truthy tags = true
           /\ sent w' = sent w ++ [get_tags_request canary api_version api_token
                                     application timezone;
                                   get_tag_context_request canary api_version
                                     api_token tags]).
Proof.
  unfold main, bind at 1.
  destruct (get_tags transport canary api_version api_token application timezone w)
    as [[tags | e] w1] eqn:E;
    destruct (get_tags_world _ _ _ _ _ _ _ _ _ E) as [Hf Hs];
    [ | intros [= _ <-]; split; [ intros; rewrite Hf; reflexivity | left; exact Hs ] ].
  destruct (truthy tags) eqn:Ht;
    [ | intros [= _ <-]; split; [ intros; simpl; rewrite Hf; reflexivity
                              | left; exact Hs ] ].
  unfold bind at 1.
  destruct (get_tag_context transport canary api_version api_token tags w1)
    as [[data | e] w2] eqn:Ec;
    pose proof (get_tag_context_world _ _ _ _ _ _ _ _ Ec) as Hf2;
    pose proof (get_tag_context_sent _ _ _ _ _ _ _ Ec) as Hs2.
  2: { intros [= _ <-]. split; [ intros; rewrite Hf2, Hf; reflexivity | ].
       right. exists tags, w1. repeat split; try assumption.
       rewrite Hs2, Hs, <- app_assoc. reflexivity. }
  assert (Hsent : sent w2 = sent w ++ [get_tags_request canary api_version api_token
                                         application timezone;
                                       get_tag_context_request canary api_version
                                         api_token tags])
    by (rewrite Hs2, Hs, <- app_assoc; reflexivity).
  destruct (truthy data).
  2: { intros [= _ <-]. split; [ intros; simpl; rewrite Hf2, Hf; reflexivity | ].
       right. exists tags, w1. auto. }
  assert (Hsave : keeps output_file
            (if decide (output_format = lit "csv")
             then save_to_csv codec container_repr data output_file
             else if decide (output_format = lit "txt")
                  then save_to_txt codec container_repr data output_file
                  else if decide (output_format = lit "json")
                       then save_to_json codec data output_file
                       else ret tt)).
  { repeat case_decide;
      [ apply keeps_save_to_csv | apply keeps_save_to_txt | apply keeps_save_to_json | ].
    intros w0 r0 w0' [= <- <-]. apply frame_refl. }
  unfold bind.
  destruct ((if decide (output_format = lit "csv")
             then save_to_csv codec container_repr data output_file
             else if decide (output_format = lit "txt")
                  then save_to_txt codec container_repr data output_file
                  else if decide (output_format = lit "json")
                       then save_to_json codec data output_file
                       else ret tt) w2) as [[[] | e] w3] eqn:Ed;
    destruct (Hsave _ _ _ Ed) as (_ & Hs3 & Hf3);
    intros [= _ <-]; (split;
      [ intros other Hne; simpl; rewrite Hf3, Hf2, Hf by exact Hne; reflexivity
      | right; exists tags, w1; repeat split; try assumption; simpl; congruence ]).
Qed.

End MainExtras.

Section MainBodies.

Variable transport : list Request -> Request -> result Response.
Variable codec : N -> bool.
Variable container_repr : json -> pystr.

(** X23: The soft failure does not reach a body that cannot be decoded: when
    discovery is answered with a status that is no error and a body whose
    [json()] raises, [main] raises that exception; nothing is printed and
    no file is written. *)
Theorem main_raises_on_undecodable_body (canary api_version api_token application
                                           timezone output_format output_file : pystr)
    (r : Response) (e : exn) (w : World) :
  transport (sent w)
    (get_tags_request canary api_version api_token application timezone) = Ok r ->
  ~ (400 <= status_code r < 600)%Z ->
  response_json r = Raise e ->
  main transport codec container_repr canary api_version api_token application timezone
    output_format output_file w
  = (Raise e, {| files := files w; stdout := stdout w;
                 sent := sent w ++ [get_tags_request canary api_version api_token
                                      application timezone] |}).
Proof.
  intros E Hst Ej. unfold main, bind at 1. unfold get_tags, bind at 1.
  rewrite request_call_cases. cbv zeta.
  change {| req_method := lit "POST"; req_url := get_tags_url canary api_version;
            req_headers := json_headers;
            req_data := get_tags_payload api_token application timezone |}
    with (get_tags_request canary api_version api_token application timezone).
  rewrite E.
  destruct (raise_for_status_cases r) as [[Er _] | (message & _ & Hin)];
    [ | contradiction ].
  rewrite Er. unfold response_truthy. rewrite Er. unfold bind, lift. rewrite Ej.
  reflexivity.
Qed.

(** X22: A 4xx or 5xx answer to discovery is reported like a transport failure:
    the error line, then [No tags found.], and a normal end. *)
Theorem main_discovery_http_error (canary api_version api_token application timezone
                                     output_format output_file : pystr)
    (r : Response) (w : World) :
  transport (sent w)
    (get_tags_request canary api_version api_token application timezone) = Ok r ->
  (400 <= status_code r < 600)%Z ->
  exists message,
    main transport codec container_repr canary api_version api_token application timezone
      output_format output_file w
    = (Ok tt, {| files := files w;
                 stdout := stdout w ++ [lit "Error during request: " ++ message;
                                        lit "No tags found."];
                 sent := sent w ++ [get_tags_request canary api_version api_token
                                      application timezone] |}).
Proof.
  intros E Hst.
  destruct (raise_for_status_cases r) as [[_ Hn] | (message & Er & _)];
    [ contradiction | ].
  exists message. unfold main, bind at 1. unfold get_tags, bind at 1.
  rewrite request_call_cases. cbv zeta.
  change {| req_method := lit "POST"; req_url := get_tags_url canary api_version;
            req_headers := json_headers;
            req_data := get_tags_payload api_token application timezone |}
    with (get_tags_request canary api_version api_token application timezone).
  rewrite E, Er. unfold response_truthy, ret, print. cbn [truthy files stdout sent].
  rewrite <- app_assoc. reflexivity.
Qed.

End MainBodies.

(** ** The further properties on the sample runs *)

Lemma request_call_lets_other_errors_through_witness :
  exists w',
    _request_call Servers.interrupted (lit "POST") Sample.canary json_headers []
      Sample.empty_world = (Raise (OtherError (lit "KeyboardInterrupt")), w')
    /\ stdout w' = [] /\ files w' = ∅.
Proof.
  apply (request_call_lets_other_errors_through Servers.interrupted (lit "POST")
           Sample.canary json_headers [] Sample.empty_world
           (OtherError (lit "KeyboardInterrupt"))).
  - reflexivity.
  - discriminate.
Defined.

Lemma request_call_sends_once_witness :
  sent (snd (_request_call Sample.unreachable (lit "POST") Sample.canary json_headers
               [] Sample.empty_world))
  = [{| req_method := lit "POST"; req_url := Sample.canary;
        req_headers := json_headers; req_data := [] |}].
Proof.
  apply (request_call_sends_once Sample.unreachable (lit "POST") Sample.canary
           json_headers [] Sample.empty_world
           (snd (_request_call Sample.unreachable (lit "POST") Sample.canary
                   json_headers [] Sample.empty_world))
           (fst (_request_call Sample.unreachable (lit "POST") Sample.canary
                   json_headers [] Sample.empty_world))).
  reflexivity.
Defined.

Lemma get_tag_context_soft_fail_witness :
  get_tag_context Sample.unreachable Sample.canary Sample.api_version Sample.api_token
    Sample.tag_names Sample.empty_world
  = (Ok (JArr []),
     snd (_request_call Sample.unreachable (lit "POST")
            (get_tag_context_url Sample.canary Sample.api_version) json_headers
            (get_tag_context_payload Sample.api_token Sample.tag_names)
            Sample.empty_world))
  /\ get_tag_context
       (Sample.always (Sample.respond 200 "OK" (JObj [(lit "data", JArr [Sample.tag1])])))
       Sample.canary Sample.api_version Sample.api_token Sample.tag_names
       Sample.empty_world
     = (Ok (JArr [Sample.tag1]),
        snd (_request_call
               (Sample.always
                  (Sample.respond 200 "OK" (JObj [(lit "data", JArr [Sample.tag1])])))
               (lit "POST") (get_tag_context_url Sample.canary Sample.api_version)
               json_headers (get_tag_context_payload Sample.api_token Sample.tag_names)
               Sample.empty_world)).
Proof.
  split.
  - pose proof (get_tag_context_soft_fail Sample.unreachable Sample.canary
                  Sample.api_version Sample.api_token Sample.tag_names
                  Sample.empty_world) as H.
    cbv zeta in H. apply H. reflexivity.
  - pose proof (get_tag_context_soft_fail
                  (Sample.always
                     (Sample.respond 200 "OK" (JObj [(lit "data", JArr [Sample.tag1])])))
                  Sample.canary Sample.api_version Sample.api_token Sample.tag_names
                  Sample.empty_world) as H.
    cbv zeta in H.
    destruct (H (snd (_request_call
                        (Sample.always
                           (Sample.respond 200 "OK"
                              (JObj [(lit "data", JArr [Sample.tag1])])))
                        (lit "POST") (get_tag_context_url Sample.canary Sample.api_version)
                        json_headers
                        (get_tag_context_payload Sample.api_token Sample.tag_names)
                        Sample.empty_world))) as [_ H2].
    destruct (H2 (Sample.respond 200 "OK" (JObj [(lit "data", JArr [Sample.tag1])]))
                [(lit "data", JArr [Sample.tag1])] eq_refl eq_refl) as [_ Hsome].
    apply Hsome. reflexivity.
Defined.

Lemma clients_raise_on_bad_body_witness :
  fst (get_tags (Sample.always Servers.undecodable) Sample.canary Sample.api_version
         Sample.api_token Sample.application Sample.timezone Sample.empty_world)
  = Raise (RequestException JSONDecodeError
             (lit "Expecting value: line 1 column 1 (char 0)"))
  /\ fst (get_tag_context (Sample.always (Sample.respond 200 "OK" (JArr [Sample.tag1])))
            Sample.canary Sample.api_version Sample.api_token Sample.tag_names
            Sample.empty_world)
     = Raise AttributeError.
Proof.
  split.
  - pose (srv := Sample.always Servers.undecodable).
    destruct (clients_raise_on_bad_body srv Sample.canary Sample.api_version
                Sample.api_token Sample.application Sample.timezone Sample.tag_names
                Sample.empty_world
                (snd (_request_call srv (lit "POST")
                        (get_tags_url Sample.canary Sample.api_version) json_headers
                        (get_tags_payload Sample.api_token Sample.application
                           Sample.timezone) Sample.empty_world))
                Servers.undecodable)
      as [Htags _].
    destruct (Htags eq_refl) as [H _].
    subst srv. rewrite (H _ eq_refl). reflexivity.
  - pose (r := Sample.respond 200 "OK" (JArr [Sample.tag1])).
    pose (srv := Sample.always r).
    destruct (clients_raise_on_bad_body srv Sample.canary Sample.api_version
                Sample.api_token Sample.application Sample.timezone Sample.tag_names
                Sample.empty_world
                (snd (_request_call srv (lit "POST")
                        (get_tag_context_url Sample.canary Sample.api_version)
                        json_headers
                        (get_tag_context_payload Sample.api_token Sample.tag_names)
                        Sample.empty_world))
                r)
      as [_ Hcontext].
    destruct (Hcontext eq_refl) as [_ H].
    subst srv r. rewrite (H (JArr [Sample.tag1]) eq_refl); [ reflexivity | discriminate ].
Defined.

Lemma get_tags_payload_decodes_witness :
  Decoder.loads (get_tags_payload Sample.api_token Sample.application Sample.timezone)
  = Some (JObj [(lit "application", JStr Sample.application);
                (lit "timezone", JStr Sample.timezone);
                (lit "apiToken", JStr Sample.api_token);
                (lit "path", JStr []);
                (lit "deep", JBool true);
                (lit "search", JStr [])]).
Proof.
  apply (get_tags_payload_decodes Sample.api_token Sample.application Sample.timezone);
    reflexivity.
Defined.

Lemma get_tag_context_payload_decodes_witness :
  Decoder.loads
    (get_tag_context_payload Sample.api_token
       (JArr [JStr (lit "Tag1.PV"); JInt 7;
              JFloat (Float.Finite false 6755399441055744 (-52))]))
  = Some (JObj [(lit "apiToken", JStr Sample.api_token);
                (lit "tags",
                 JArr [JStr (lit "Tag1.PV"); JInt 7;
                       JFloat (Float.Finite false 6755399441055744 (-52))])]).
Proof.
  apply (get_tag_context_payload_decodes Sample.api_token
           (JArr [JStr (lit "Tag1.PV"); JInt 7;
                  JFloat (Float.Finite false 6755399441055744 (-52))]));
    reflexivity.
Defined.

Lemma formatters_touch_one_file_witness :
  stdout (snd (save_to_csv Sample.utf8 Sample.container_repr
                 (JArr [Sample.tag1; Sample.tag3]) Sample.output_file
                 Sample.empty_world)) = []
  /\ sent (snd (save_to_csv Sample.utf8 Sample.container_repr
                  (JArr [Sample.tag1; Sample.tag3]) Sample.output_file
                  Sample.empty_world)) = []
  /\ (forall other,
         other <> Sample.output_file ->
         files (snd (save_to_csv Sample.utf8 Sample.container_repr
                       (JArr [Sample.tag1; Sample.tag3]) Sample.output_file
                       Sample.empty_world)) !! other
         = files Sample.empty_world !! other).
Proof.
  apply (formatters_touch_one_file Sample.utf8 Sample.container_repr
           (JArr [Sample.tag1; Sample.tag3]) Sample.output_file Sample.empty_world
           (snd (save_to_csv Sample.utf8 Sample.container_repr
                   (JArr [Sample.tag1; Sample.tag3]) Sample.output_file
                   Sample.empty_world))
           (fst (save_to_csv Sample.utf8 Sample.container_repr
                   (JArr [Sample.tag1; Sample.tag3]) Sample.output_file
                   Sample.empty_world))).
  left. reflexivity.
Defined.

Lemma save_to_csv_first_bad_item_witness :
  save_to_csv Sample.utf8 Sample.container_repr
    (JArr ([Sample.tag1] ++ Servers.tag5 :: [Sample.tag2]))
    Sample.output_file Sample.empty_world
  = (Raise UnicodeEncodeError,
     with_file Sample.empty_world Sample.output_file
       (csv_header_line ++ flat_map (csv_record_line Sample.container_repr) [Sample.tag1])).
Proof.
  apply (save_to_csv_first_bad_item Sample.utf8 Sample.container_repr [Sample.tag1]
           [Sample.tag2] Servers.tag5 UnicodeEncodeError Sample.output_file
           Sample.empty_world).
  - repeat constructor; vm_compute; eauto.
  - repeat constructor.
  - reflexivity.
Defined.

Lemma save_to_txt_first_bad_item_witness :
  save_to_txt Sample.utf8 Sample.container_repr
    (JArr ([Sample.tag1] ++ Sample.tag3 :: [Sample.tag2]))
    Sample.output_file Sample.empty_world
  = (Raise (KeyError (lit "tagContext")),
     with_file Sample.empty_world Sample.output_file
       (flat_map (txt_record_block Sample.container_repr) [Sample.tag1]
        ++ lit "TagName: Tag3.PV" ++ [LF])).
Proof.
  apply (save_to_txt_first_bad_item Sample.utf8 Sample.container_repr [Sample.tag1]
           [Sample.tag2] Sample.tag3 (KeyError (lit "tagContext"))
           (lit "TagName: Tag3.PV" ++ [LF]) Sample.output_file Sample.empty_world).
  - repeat constructor; vm_compute; eauto.
  - repeat constructor.
  - reflexivity.
Defined.

Lemma formatters_reject_non_list_witness :
  save_to_csv Sample.utf8 Sample.container_repr (JObj [(lit "error", JStr (lit "denied"))])
    Sample.output_file Sample.empty_world
    = (Raise TypeError, with_file Sample.empty_world Sample.output_file csv_header_line)
  /\ save_to_txt Sample.utf8 Sample.container_repr (JObj [(lit "error", JStr (lit "denied"))])
       Sample.output_file Sample.empty_world
     = (Raise TypeError, with_file Sample.empty_world Sample.output_file []).
Proof.
  apply (formatters_reject_non_list Sample.utf8 Sample.container_repr
           (JObj [(lit "error", JStr (lit "denied"))]) Sample.output_file
           Sample.empty_world).
  - reflexivity.
  - discriminate.
Defined.

Lemma csv_line_determines_cells_witness :
  csv_cells Sample.container_repr (JStr (lit "Tag1.PV"))
    [(lit "historianItemId", JStr (lit "h-1")); (lit "sourceItemId", JNull)]
  = csv_cells Sample.container_repr (JStr (lit "Tag1.PV"))
      [(lit "historianItemId", JStr (lit "h-1"))].
Proof.
  apply (csv_line_determines_cells Sample.container_repr
           (JObj [(lit "tagName", JStr (lit "Tag1.PV"));
                  (lit "tagContext",
                   JObj [(lit "historianItemId", JStr (lit "h-1"));
                         (lit "sourceItemId", JNull)])])
           (JObj [(lit "tagName", JStr (lit "Tag1.PV"));
                  (lit "tagContext", JObj [(lit "historianItemId", JStr (lit "h-1"))])])).
  - reflexivity.
  - reflexivity.
  - reflexivity.
Defined.

Lemma csv_cell_round_trip_witness :
  read_cell (Csv.join_append (lit "Line 5, " ++ [QUOTE] ++ lit "PV" ++ [QUOTE])
             ++ lit ",5,,," ++ [CR; LF])
  = (lit "Line 5, " ++ [QUOTE] ++ lit "PV" ++ [QUOTE], lit ",5,,," ++ [CR; LF]).
Proof.
  apply (csv_cell_round_trip (lit "Line 5, " ++ [QUOTE] ++ lit "PV" ++ [QUOTE])
           (lit ",5,,," ++ [CR; LF])).
  reflexivity.
Defined.

Lemma save_to_txt_line_count_witness :
  exists content,
    save_to_txt Sample.utf8 Sample.container_repr (JArr [Sample.tag1; Sample.tag2])
      Sample.output_file Sample.empty_world
    = (Ok tt, with_file Sample.empty_world Sample.output_file content)
    /\ line_count content = 12%nat.
Proof.
  apply (save_to_txt_line_count Sample.utf8 Sample.container_repr
           [Sample.tag1; Sample.tag2] Sample.output_file Sample.empty_world).
  - repeat constructor.
  - repeat constructor.
Defined.

Lemma response_data_round_trip_witness :
  exists text,
    save_to_json Sample.utf8
      (JArr [JObj [(lit "a", JFloat (Float.Finite false 6755399441055744 (-52)))]; JNull])
      Sample.output_file Sample.empty_world
    = (Ok tt, with_file Sample.empty_world Sample.output_file text)
    /\ Decoder.loads text
       = Some (JArr [JObj [(lit "a",
                            JFloat (Float.Finite false 6755399441055744 (-52)))];
                     JNull]).
Proof.
  apply (response_data_round_trip Sample.utf8
           (lit "[{" ++ [QUOTE] ++ lit "a" ++ [QUOTE] ++ lit " : 15e-1 }, null ]")
           (JArr [JObj [(lit "a", JFloat (Float.Finite false 6755399441055744 (-52)))];
                  JNull])
           Sample.output_file Sample.empty_world).
  - reflexivity.
  - reflexivity.
Defined.

Lemma csv_plain_cell_verbatim_witness :
  Csv.join_append (lit "2024-01-01T00:00:00") = lit "2024-01-01T00:00:00".
Proof. apply (csv_plain_cell_verbatim (lit "2024-01-01T00:00:00")). reflexivity. Defined.

Lemma main_saves_csv_witness :
  exists w',
    main (Sample.serve Sample.tag_names (JArr [Sample.tag1; Sample.tag2]))
      Sample.utf8 Sample.container_repr Sample.canary Sample.api_version Sample.api_token
      Sample.application Sample.timezone (lit "csv") Sample.output_file
      Sample.empty_world = (Ok tt, w')
    /\ files w'
       = <[Sample.output_file :=
             csv_header_line
             ++ flat_map (csv_record_line Sample.container_repr)
                  [Sample.tag1; Sample.tag2]]> (files Sample.empty_world)
    /\ stdout w' = [lit "Data saved to out.dat in csv format."].
Proof.
  pose (srv := Sample.serve Sample.tag_names (JArr [Sample.tag1; Sample.tag2])).
  pose (w1 := snd (get_tags srv Sample.canary Sample.api_version Sample.api_token
                     Sample.application Sample.timezone Sample.empty_world)).
  apply (main_saves_csv srv Sample.utf8 Sample.container_repr Sample.canary
           Sample.api_version Sample.api_token Sample.application Sample.timezone
           Sample.output_file Sample.tag_names [Sample.tag1; Sample.tag2]
           Sample.empty_world w1
           (snd (get_tag_context srv Sample.canary Sample.api_version Sample.api_token
                   Sample.tag_names w1))).
  - reflexivity.
  - reflexivity.
  - reflexivity.
  - discriminate.
  - repeat constructor; vm_compute; eauto.
  - repeat constructor.
Defined.

Lemma main_saves_txt_witness :
  exists w',
    main (Sample.serve Sample.tag_names (JArr [Sample.tag1; Sample.tag2]))
      Sample.utf8 Sample.container_repr Sample.canary Sample.api_version Sample.api_token
      Sample.application Sample.timezone (lit "txt") Sample.output_file
      Sample.empty_world = (Ok tt, w')
    /\ files w'
       = <[Sample.output_file :=
             flat_map (txt_record_block Sample.container_repr)
               [Sample.tag1; Sample.tag2]]> (files Sample.empty_world)
    /\ stdout w' = [lit "Data saved to out.dat in txt format."].
Proof.
  pose (srv := Sample.serve Sample.tag_names (JArr [Sample.tag1; Sample.tag2])).
  pose (w1 := snd (get_tags srv Sample.canary Sample.api_version Sample.api_token
                     Sample.application Sample.timezone Sample.empty_world)).
  apply (main_saves_txt srv Sample.utf8 Sample.container_repr Sample.canary
           Sample.api_version Sample.api_token Sample.application Sample.timezone
           Sample.output_file Sample.tag_names [Sample.tag1; Sample.tag2]
           Sample.empty_world w1
           (snd (get_tag_context srv Sample.canary Sample.api_version Sample.api_token
                   Sample.tag_names w1))).
  - reflexivity.
  - reflexivity.
  - reflexivity.
  - discriminate.
  - repeat constructor; vm_compute; eauto.
  - repeat constructor.
Defined.

Lemma main_saves_json_witness :
  exists w' text,
    main (Sample.serve Sample.tag_names (JArr [Sample.tag1; Servers.tag7]))
      Sample.utf8 Sample.container_repr Sample.canary Sample.api_version Sample.api_token
      Sample.application Sample.timezone (lit "json") Sample.output_file
      Sample.empty_world = (Ok tt, w')
    /\ files w' = <[Sample.output_file := text]> (files Sample.empty_world)
    /\ Decoder.loads text = Some (JArr [Sample.tag1; Servers.tag7])
    /\ stdout w' = [lit "Data saved to out.dat in json format."].
Proof.
  pose (srv := Sample.serve Sample.tag_names (JArr [Sample.tag1; Servers.tag7])).
  pose (w1 := snd (get_tags srv Sample.canary Sample.api_version Sample.api_token
                     Sample.application Sample.timezone Sample.empty_world)).
  apply (main_saves_json srv Sample.utf8 Sample.container_repr Sample.canary
           Sample.api_version Sample.api_token Sample.application Sample.timezone
           Sample.output_file Sample.tag_names (JArr [Sample.tag1; Servers.tag7])
           Sample.empty_world w1
           (snd (get_tag_context srv Sample.canary Sample.api_version Sample.api_token
                   Sample.tag_names w1))).
  - reflexivity.
  - reflexivity.
  - reflexivity.
  - reflexivity.
  - reflexivity.
Defined.

Lemma main_falsy_tags_witness :
  main (Sample.serve JNull JNull) Sample.utf8 Sample.container_repr Sample.canary Sample.api_version
    Sample.api_token Sample.application Sample.timezone (lit "csv") Sample.output_file
    Sample.empty_world
  = (Ok tt, {| files := files Sample.empty_world;
               stdout := [lit "No tags found."];
               sent := [get_tags_request Sample.canary Sample.api_version
                          Sample.api_token Sample.application Sample.timezone] |}).
Proof.
  apply (main_falsy_tags (Sample.serve JNull JNull) Sample.utf8 Sample.container_repr Sample.canary
           Sample.api_version Sample.api_token Sample.application Sample.timezone
           (lit "csv") Sample.output_file JNull Sample.empty_world
           (snd (get_tags (Sample.serve JNull JNull) Sample.canary Sample.api_version
                   Sample.api_token Sample.application Sample.timezone
                   Sample.empty_world))).
  - reflexivity.
  - reflexivity.
Defined.

Lemma main_discovery_unreachable_witness :
  main Sample.unreachable Sample.utf8 Sample.container_repr Sample.canary Sample.api_version
    Sample.api_token Sample.application Sample.timezone (lit "csv") Sample.output_file
    Sample.empty_world
  = (Ok tt, {| files := files Sample.empty_world;
               stdout := [lit "Error during request: Connection refused";
                          lit "No tags found."];
               sent := [get_tags_request Sample.canary Sample.api_version
                          Sample.api_token Sample.application Sample.timezone] |}).
Proof.
  apply (main_discovery_unreachable Sample.unreachable Sample.utf8 Sample.container_repr
           Sample.canary Sample.api_version Sample.api_token Sample.application
           Sample.timezone (lit "csv") Sample.output_file ConnectionError
           (lit "Connection refused") Sample.empty_world).
  reflexivity.
Defined.

Lemma main_context_unreachable_witness :
  main (Servers.serve_then_drop Sample.tag_names) Sample.utf8 Sample.container_repr Sample.canary
    Sample.api_version Sample.api_token Sample.application Sample.timezone (lit "csv")
    Sample.output_file Sample.empty_world
  = (Ok tt, {| files := files Sample.empty_world;
               stdout := [lit "Error during request: Read timed out.";
                          lit "No data returned in the tag context."];
               sent := [get_tags_request Sample.canary Sample.api_version
                          Sample.api_token Sample.application Sample.timezone;
                        get_tag_context_request Sample.canary Sample.api_version
                          Sample.api_token Sample.tag_names] |}).
Proof.
  apply (main_context_unreachable (Servers.serve_then_drop Sample.tag_names)
           Sample.utf8 Sample.container_repr Sample.canary Sample.api_version Sample.api_token
           Sample.application Sample.timezone (lit "csv") Sample.output_file
           Sample.tag_names Timeout (lit "Read timed out.") Sample.empty_world
           (snd (get_tags (Servers.serve_then_drop Sample.tag_names) Sample.canary
                   Sample.api_version Sample.api_token Sample.application
                   Sample.timezone Sample.empty_world))).
  - reflexivity.
  - reflexivity.
  - reflexivity.
Defined.

Lemma main_footprint_witness :
  (forall other,
      other <> Sample.output_file ->
      files (snd (main (Sample.serve Sample.tag_names (JArr [Sample.tag1; Sample.tag3]))
                    Sample.utf8 Sample.container_repr Sample.canary Sample.api_version
                    Sample.api_token Sample.application Sample.timezone (lit "csv")
                    Sample.output_file Sample.empty_world)) !! other
      = files Sample.empty_world !! other)
  /\ length (sent (snd (main (Sample.serve Sample.tag_names
                                (JArr [Sample.tag1; Sample.tag3]))
                          Sample.utf8 Sample.container_repr Sample.canary Sample.api_version
                          Sample.api_token Sample.application Sample.timezone
                          (lit "csv") Sample.output_file Sample.empty_world)))
     = 2%nat.
Proof.
  pose (srv := Sample.serve Sample.tag_names (JArr [Sample.tag1; Sample.tag3])).
  destruct (main_footprint srv Sample.utf8 Sample.container_repr Sample.canary Sample.api_version
              Sample.api_token Sample.application Sample.timezone (lit "csv")
              Sample.output_file
              (fst (main srv Sample.utf8 Sample.container_repr Sample.canary Sample.api_version
                      Sample.api_token Sample.application Sample.timezone (lit "csv")
                      Sample.output_file Sample.empty_world))
              Sample.empty_world
              (snd (main srv Sample.utf8 Sample.container_repr Sample.canary Sample.api_version
                      Sample.api_token Sample.application Sample.timezone (lit "csv")
                      Sample.output_file Sample.empty_world))
              eq_refl) as [Hfiles _].
  split; [ exact Hfiles | reflexivity ].
Defined.

Lemma main_raises_on_undecodable_body_witness :
  main (Sample.always Servers.undecodable) Sample.utf8 Sample.container_repr Sample.canary
    Sample.api_version Sample.api_token Sample.application Sample.timezone (lit "csv")
    Sample.output_file Sample.empty_world
  = (Raise (RequestException JSONDecodeError
              (lit "Expecting value: line 1 column 1 (char 0)")),
     {| files := files Sample.empty_world; stdout := stdout Sample.empty_world;
        sent := [get_tags_request Sample.canary Sample.api_version Sample.api_token
                   Sample.application Sample.timezone] |}).
Proof.
  apply (main_raises_on_undecodable_body (Sample.always Servers.undecodable)
           Sample.utf8 Sample.container_repr Sample.canary Sample.api_version Sample.api_token
           Sample.application Sample.timezone (lit "csv") Sample.output_file
           Servers.undecodable
           (RequestException JSONDecodeError
              (lit "Expecting value: line 1 column 1 (char 0)"))
           Sample.empty_world).
  - reflexivity.
  - simpl. lia.
  - reflexivity.
Defined.

Lemma main_discovery_http_error_witness :
  exists message,
    main (Sample.always (Sample.respond 503 "Service Unavailable" JNull))
      Sample.utf8 Sample.container_repr Sample.canary Sample.api_version Sample.api_token
      Sample.application Sample.timezone (lit "csv") Sample.output_file
      Sample.empty_world
    = (Ok tt, {| files := files Sample.empty_world;
                 stdout := [lit "Error during request: " ++ message;
                            lit "No tags found."];
                 sent := [get_tags_request Sample.canary Sample.api_version
                            Sample.api_token Sample.application Sample.timezone] |}).
Proof.
  apply (main_discovery_http_error
           (Sample.always (Sample.respond 503 "Service Unavailable" JNull))
           Sample.utf8 Sample.container_repr Sample.canary Sample.api_version Sample.api_token
           Sample.application Sample.timezone (lit "csv") Sample.output_file
           (Sample.respond 503 "Service Unavailable" JNull) Sample.empty_world).
  - reflexivity.
  - simpl. lia.
Defined.
